(** * Embedded-C training examples: traffic-light FSM, RTOS tasks, timer statistics

    A shallow embedding of three programs of the repository, and of the
    scheduler their tasks run under:

    - [TrafficLight]: [Module5-Real-Time-Concepts/01_state_machine_traffic.c],
      the switch-on-enum traffic-light state machine with its simulated clock;
    - [Rtos]: [Module5-Real-Time-Concepts/03_freertos_tasks.c], the bodies of
      the sensor and watchdog tasks and the objects [setup] creates;
    - [Scheduler]: the priority scheduler the tasks of [setup] are handed to;
      it is the FreeRTOS kernel, not code of the repository, and follows the
      specification;
    - [HwTimer]: the hardware-timer example, its circular buffer of sensor
      readings and [calculateSensorStats].

    [TrafficLightRuns], [RtosTasks] and [HwTimerRuns] add what runs of these
    programs need: the lamps a trace of hardware calls leaves lit, the loop
    bodies of the sensor and button tasks, sequences of sensor readings and
    the uptime display.

    Globals and function-local [static] variables become fields of an explicit
    world record that every function threads through a small state monad.
    [uint32_t] values are integers in [0, 2^32) with the wrap-around written
    out, and the [int] counters of the hardware-timer example wrap at 32 bits
    likewise.  Console narration ([printf], [Serial.print]) is not part of the
    model unless a property talks about it; calls that drive the (simulated)
    hardware are recorded in a trace. *)

From Stdlib Require Import ZArith List Bool Lia.
From Stdlib Require Import Floats.SpecFloat.
From Stdlib Require Import Sorting.Sorted Sorting.Permutation.
Import ListNotations.
Open Scope Z_scope.

(** ** Unsigned 32-bit arithmetic *)

Module U32.

Definition modulus : Z := 4294967296.

Definition wrap (z : Z) : Z := z mod modulus.

Definition add (a b : Z) : Z := wrap (a + b).

Definition sub (a b : Z) : Z := wrap (a - b).

Definition in_range (z : Z) : Prop := 0 <= z < modulus.

End U32.

(** ** Signed 32-bit arithmetic *)

(** [int] on the target: 32 bits, two's complement, an increment past
    [INT_MAX] wrapping to [INT_MIN]. *)
Module I32.

Definition min_signed : Z := -2147483648.

Definition max_signed : Z := 2147483647.

Definition wrap (z : Z) : Z := (z + 2147483648) mod 4294967296 - 2147483648.

Definition add (a b : Z) : Z := wrap (a + b).

Definition in_range (z : Z) : Prop := min_signed <= z <= max_signed.

End I32.

(** ** A state monad for globals and statics *)

Module State.

Definition M (S A : Type) : Type := S -> A * S.

Definition ret {S A : Type} (a : A) : M S A := fun s => (a, s).

Definition bind {S A B : Type} (m : M S A) (k : A -> M S B) : M S B :=
  fun s => let (a, s') := m s in k a s'.

Definition get {S A : Type} (f : S -> A) : M S A := fun s => (f s, s).

Definition modify {S : Type} (f : S -> S) : M S unit := fun s => (tt, f s).

Definition exec {S A : Type} (m : M S A) (s : S) : S := snd (m s).

Definition eval {S A : Type} (m : M S A) (s : S) : A := fst (m s).

Definition when {S : Type} (b : bool) (m : M S unit) : M S unit :=
  if b then m else ret tt.

Fixpoint repeat_m {S : Type} (n : nat) (m : M S unit) : M S unit :=
  match n with
  | O => ret tt
  | Datatypes.S n' => bind m (fun _ => repeat_m n' m)
  end.

Module Notations.
Declare Scope state_scope.
Delimit Scope state_scope with state.
Notation "x <- m ;; k" := (bind m (fun x => k))
  (at level 61, m at next level, right associativity) : state_scope.
Notation "m ;; k" := (bind m (fun _ => k))
  (at level 61, right associativity) : state_scope.
End Notations.

End State.

(** ** The traffic-light state machine *)

Module TrafficLight.

Inductive TrafficLightState : Type :=
| STATE_RED
| STATE_GREEN
| STATE_YELLOW
| STATE_RED_YELLOW
| STATE_PEDESTRIAN
| STATE_ERROR.

Inductive TrafficLightEvent : Type :=
| EVENT_TIMER_EXPIRED
| EVENT_BUTTON_PRESSED
| EVENT_EMERGENCY
| EVENT_SENSOR_TRIGGERED
| EVENT_RESET.

Definition state_eqb (a b : TrafficLightState) : bool :=
  match a, b with
  | STATE_RED, STATE_RED
  | STATE_GREEN, STATE_GREEN
  | STATE_YELLOW, STATE_YELLOW
  | STATE_RED_YELLOW, STATE_RED_YELLOW
  | STATE_PEDESTRIAN, STATE_PEDESTRIAN
  | STATE_ERROR, STATE_ERROR => true
  | _, _ => false
  end.

Record TrafficLightSystem : Type := mkTrafficLightSystem {
  currentState : TrafficLightState;
  previousState : TrafficLightState;
  stateStartTime : Z;
  stateDuration : Z;
  pedestrianRequested : bool;
  emergencyMode : bool;
  totalCycles : Z;
  errorFlag : bool
}.

(** Calls into the simulated hardware, in the order they are made. *)
Inductive HwCall : Type :=
| RedOn | RedOff
| GreenOn | GreenOff
| YellowOn | YellowOff
| WalkOn | WalkOff
| EmergencyAlarm.

(** The global [trafficLight] together with the function-local statics:
    [simulatedTime] of [getCurrentTime], [redFlashing] of [handleEvent] and
    [eventCounter] of [simulateEvents]. *)
Record World : Type := mkWorld {
  trafficLight : TrafficLightSystem;
  simulatedTime : Z;
  redFlashing : bool;
  eventCounter : Z;
  hw : list HwCall
}.

Definition initialTrafficLight : TrafficLightSystem :=
  {| currentState := STATE_RED;
     previousState := STATE_RED;
     stateStartTime := 0;
     stateDuration := 0;
     pedestrianRequested := false;
     emergencyMode := false;
     totalCycles := 0;
     errorFlag := false |}.

Definition initialWorld : World :=
  {| trafficLight := initialTrafficLight;
     simulatedTime := 0;
     redFlashing := false;
     eventCounter := 0;
     hw := [] |}.

Definition M : Type -> Type := State.M World.

Import State.Notations.
Local Open Scope state_scope.

(** Field assignments on the global [trafficLight]. *)
Definition set_currentState (v : TrafficLightState) (t : TrafficLightSystem) :=
  mkTrafficLightSystem v (previousState t) (stateStartTime t) (stateDuration t)
    (pedestrianRequested t) (emergencyMode t) (totalCycles t) (errorFlag t).

Definition set_previousState (v : TrafficLightState) (t : TrafficLightSystem) :=
  mkTrafficLightSystem (currentState t) v (stateStartTime t) (stateDuration t)
    (pedestrianRequested t) (emergencyMode t) (totalCycles t) (errorFlag t).

Definition set_stateStartTime (v : Z) (t : TrafficLightSystem) :=
  mkTrafficLightSystem (currentState t) (previousState t) v (stateDuration t)
    (pedestrianRequested t) (emergencyMode t) (totalCycles t) (errorFlag t).

Definition set_stateDuration (v : Z) (t : TrafficLightSystem) :=
  mkTrafficLightSystem (currentState t) (previousState t) (stateStartTime t) v
    (pedestrianRequested t) (emergencyMode t) (totalCycles t) (errorFlag t).

Definition set_pedestrianRequested (v : bool) (t : TrafficLightSystem) :=
  mkTrafficLightSystem (currentState t) (previousState t) (stateStartTime t)
    (stateDuration t) v (emergencyMode t) (totalCycles t) (errorFlag t).

Definition set_emergencyMode (v : bool) (t : TrafficLightSystem) :=
  mkTrafficLightSystem (currentState t) (previousState t) (stateStartTime t)
    (stateDuration t) (pedestrianRequested t) v (totalCycles t) (errorFlag t).

Definition set_totalCycles (v : Z) (t : TrafficLightSystem) :=
  mkTrafficLightSystem (currentState t) (previousState t) (stateStartTime t)
    (stateDuration t) (pedestrianRequested t) (emergencyMode t) v (errorFlag t).

Definition set_errorFlag (v : bool) (t : TrafficLightSystem) :=
  mkTrafficLightSystem (currentState t) (previousState t) (stateStartTime t)
    (stateDuration t) (pedestrianRequested t) (emergencyMode t) (totalCycles t) v.

Definition readTL {A : Type} (f : TrafficLightSystem -> A) : M A :=
  State.get (fun w => f (trafficLight w)).

Definition modifyTL (f : TrafficLightSystem -> TrafficLightSystem) : M unit :=
  State.modify (fun w => mkWorld (f (trafficLight w)) (simulatedTime w)
                           (redFlashing w) (eventCounter w) (hw w)).

Definition call (c : HwCall) : M unit :=
  State.modify (fun w => mkWorld (trafficLight w) (simulatedTime w)
                           (redFlashing w) (eventCounter w) (hw w ++ [c])).

Definition turnOnRedLight : M unit := call RedOn.
Definition turnOffRedLight : M unit := call RedOff.
Definition turnOnGreenLight : M unit := call GreenOn.
Definition turnOffGreenLight : M unit := call GreenOff.
Definition turnOnYellowLight : M unit := call YellowOn.
Definition turnOffYellowLight : M unit := call YellowOff.
Definition turnOnPedestrianSignal : M unit := call WalkOn.
Definition turnOffPedestrianSignal : M unit := call WalkOff.
Definition soundEmergencyAlarm : M unit := call EmergencyAlarm.

(** [simulatedTime += 1000; return simulatedTime;] *)
Definition getCurrentTime : M Z :=
  fun w =>
    let t := U32.add (simulatedTime w) 1000 in
    (t, mkWorld (trafficLight w) t (redFlashing w) (eventCounter w) (hw w)).

Definition turnOffAllLights : M unit :=
  turnOffRedLight ;;
  turnOffGreenLight ;;
  turnOffYellowLight ;;
  turnOffPedestrianSignal.

Definition enterState (newState : TrafficLightState) : M unit :=
  cur <- readTL currentState ;;
  modifyTL (set_previousState cur) ;;
  modifyTL (set_currentState newState) ;;
  now <- getCurrentTime ;;
  modifyTL (set_stateStartTime now) ;;
  match newState with
  | STATE_RED =>
      turnOffAllLights ;;
      turnOnRedLight ;;
      turnOnPedestrianSignal ;;
      modifyTL (set_stateDuration 10000)
  | STATE_GREEN =>
      turnOffAllLights ;;
      turnOnGreenLight ;;
      turnOffPedestrianSignal ;;
      modifyTL (set_stateDuration 15000)
  | STATE_YELLOW =>
      turnOffAllLights ;;
      turnOnYellowLight ;;
      turnOffPedestrianSignal ;;
      modifyTL (set_stateDuration 3000)
  | STATE_RED_YELLOW =>
      turnOffAllLights ;;
      turnOnRedLight ;;
      turnOnYellowLight ;;
      turnOffPedestrianSignal ;;
      modifyTL (set_stateDuration 2000)
  | STATE_PEDESTRIAN =>
      turnOffAllLights ;;
      turnOnRedLight ;;
      turnOnPedestrianSignal ;;
      modifyTL (set_stateDuration 20000) ;;
      modifyTL (set_pedestrianRequested false)
  | STATE_ERROR =>
      turnOffAllLights ;;
      soundEmergencyAlarm ;;
      modifyTL (set_stateDuration 1000) ;;
      modifyTL (set_errorFlag true)
  end.

(** The [static bool redFlashing] toggled in the error state. *)
Definition flashRed : M unit :=
  fun w =>
    if redFlashing w
    then (tt, mkWorld (trafficLight w) (simulatedTime w) false
                (eventCounter w) (hw w ++ [RedOff]))
    else (tt, mkWorld (trafficLight w) (simulatedTime w) true
                (eventCounter w) (hw w ++ [RedOn])).

Definition handleEvent (event : TrafficLightEvent) : M unit :=
  match event with
  | EVENT_TIMER_EXPIRED =>
      cur <- readTL currentState ;;
      match cur with
      | STATE_RED =>
          ped <- readTL pedestrianRequested ;;
          if ped then enterState STATE_PEDESTRIAN
          else enterState STATE_RED_YELLOW
      | STATE_RED_YELLOW => enterState STATE_GREEN
      | STATE_GREEN => enterState STATE_YELLOW
      | STATE_YELLOW =>
          enterState STATE_RED ;;
          modifyTL (fun t => set_totalCycles (U32.add (totalCycles t) 1) t)
      | STATE_PEDESTRIAN => enterState STATE_RED_YELLOW
      | STATE_ERROR => flashRed
      end
  | EVENT_BUTTON_PRESSED =>
      modifyTL (set_pedestrianRequested true) ;;
      cur <- readTL currentState ;;
      State.when (state_eqb cur STATE_GREEN)
        (currentTime <- getCurrentTime ;;
         start <- readTL stateStartTime ;;
         let timeInState := U32.sub currentTime start in
         State.when (5000 <? timeInState) (enterState STATE_YELLOW))
  | EVENT_EMERGENCY =>
      modifyTL (set_emergencyMode true) ;;
      enterState STATE_GREEN
  | EVENT_SENSOR_TRIGGERED =>
      cur <- readTL currentState ;;
      State.when (state_eqb cur STATE_GREEN)
        (modifyTL (fun t => set_stateDuration (U32.add (stateDuration t) 5000) t))
  | EVENT_RESET =>
      modifyTL (set_emergencyMode false) ;;
      modifyTL (set_errorFlag false) ;;
      modifyTL (set_pedestrianRequested false) ;;
      enterState STATE_RED
  end.

Definition isTimeToChangeState : M bool :=
  currentTime <- getCurrentTime ;;
  start <- readTL stateStartTime ;;
  duration <- readTL stateDuration ;;
  let timeInState := U32.sub currentTime start in
  State.ret (duration <=? timeInState).

(** [displayStatus] only prints, but it reads the clock to do so, and reading
    the simulated clock advances it. *)
Definition displayStatus : M unit :=
  _ <- getCurrentTime ;;
  State.ret tt.

Definition runStateMachine : M unit :=
  expired <- isTimeToChangeState ;;
  State.when expired (handleEvent EVENT_TIMER_EXPIRED) ;;
  displayStatus.

Definition set_eventCounter (v : Z) : M unit :=
  State.modify (fun w => mkWorld (trafficLight w) (simulatedTime w)
                           (redFlashing w) v (hw w)).

Definition simulateEvents : M unit :=
  c <- State.get (fun w => eventCounter w + 1) ;;
  set_eventCounter c ;;
  if c =? 5 then handleEvent EVENT_BUTTON_PRESSED
  else if c =? 15 then handleEvent EVENT_SENSOR_TRIGGERED
  else if c =? 25 then handleEvent EVENT_EMERGENCY
  else if c =? 30 then handleEvent EVENT_RESET ;; set_eventCounter 0
  else State.ret tt.

(** The body of the [for] loop of [main], and [main] itself up to the loop
    bound. *)
Definition cycle : M unit :=
  runStateMachine ;;
  simulateEvents.

Definition main_cycles (n : nat) : M unit :=
  enterState STATE_RED ;;
  State.repeat_m n cycle.

(** *** Runs and notions the properties are stated with *)

(** The duration each state is entered with. *)
Definition durationOf (s : TrafficLightState) : Z :=
  match s with
  | STATE_RED => 10000
  | STATE_GREEN => 15000
  | STATE_YELLOW => 3000
  | STATE_RED_YELLOW => 2000
  | STATE_PEDESTRIAN => 20000
  | STATE_ERROR => 1000
  end.

(** The machine right after [main] entered [STATE_RED]. *)
Definition booted : World := State.exec (enterState STATE_RED) initialWorld.

(** Five steps after start-up, with no event in between. *)
Definition redForFiveSteps : World :=
  State.exec (State.repeat_m 5 runStateMachine) booted.

(** One check of the clock as a step makes it when nothing is due. *)
Definition idleCheck : M unit :=
  State.bind isTimeToChangeState (fun _ => displayStatus).

(** None of the next [n] steps finds the duration elapsed. *)
Fixpoint nothingDue (n : nat) (w : World) : Prop :=
  match n with
  | O => True
  | S n' =>
      State.eval isTimeToChangeState w = false
      /\ nothingDue n' (State.exec runStateMachine w)
  end.

(** A clock reading that is discarded. *)
Definition readClock : M unit :=
  State.bind getCurrentTime (fun _ => State.ret tt).

(** The world with 5000 ms added to [stateDuration] and nothing else
    changed. *)
Definition extendGreen (w : World) : World :=
  mkWorld (set_stateDuration (U32.add (stateDuration (trafficLight w)) 5000)
             (trafficLight w))
          (simulatedTime w) (redFlashing w) (eventCounter w) (hw w).

(** The green phase after start-up, an emergency, and [k] sensor events. *)
Definition greenAfterSensorEvents (k : N) : World :=
  N.iter k (State.exec (handleEvent EVENT_SENSOR_TRIGGERED))
    (State.exec (handleEvent EVENT_EMERGENCY) booted).

(** The green phase the emergency starts, before any sensor event. *)
Definition greenPhase : World := greenAfterSensorEvents 0.

(** The world after the first [n] calls of [getCurrentTime] of a run, and the
    timestamp the next call, number [n + 1], returns.  Whoever makes the
    calls, the clock only moves through them. *)
Definition afterCalls (n : N) : World :=
  N.iter n (State.exec getCurrentTime) initialWorld.

Definition nextTimestamp (n : N) : Z := State.eval getCurrentTime (afterCalls n).

End TrafficLight.

(** ** The RTOS tasks example *)

Module Rtos.

Import State.Notations.
Local Open Scope state_scope.

(** *** Queues *)

(** Modelled from the spec: the bounded FIFO queue behind [xQueueCreate],
    [xQueueSend] and [xQueueReceive].  These are FreeRTOS kernel calls; the
    repository only contains their callers.  The spec gives a queue a fixed
    capacity N and FIFO order, keeps [size] within [0, N], and makes a full
    queue reject a non-blocking send with a queue-full condition rather than
    overwriting; receive is symmetric.  Every send and receive of the source
    passes a timeout of zero ticks, the only form modelled. *)
Record Queue (T : Type) : Type := mkQueue {
  capacity : nat;
  items : list T
}.

Arguments mkQueue {T} _ _.
Arguments capacity {T} _.
Arguments items {T} _.

Inductive BaseType : Type :=
| pdTRUE
| errQUEUE_FULL
| errQUEUE_EMPTY.

Definition xQueueCreate {T : Type} (uxQueueLength : nat) : Queue T :=
  mkQueue uxQueueLength [].

Definition uxQueueMessagesWaiting {T : Type} (q : Queue T) : nat :=
  length (items q).

Definition isFull {T : Type} (q : Queue T) : bool :=
  (capacity q <=? uxQueueMessagesWaiting q)%nat.

(** [xQueueSend(q, &item, 0)] *)
Definition xQueueSend {T : Type} (q : Queue T) (item : T) : BaseType * Queue T :=
  if isFull q then (errQUEUE_FULL, q)
  else (pdTRUE, mkQueue (capacity q) (items q ++ [item])).

(** [xQueueReceive(q, &buffer, 0)]; the received item stands for the buffer
    written on success. *)
Definition xQueueReceive {T : Type} (q : Queue T) : BaseType * option T * Queue T :=
  match items q with
  | [] => (errQUEUE_EMPTY, None, q)
  | x :: rest => (pdTRUE, Some x, mkQueue (capacity q) rest)
  end.

(** *** Shared data of the tasks *)

Record SensorData : Type := mkSensorData {
  voltage : spec_float;
  temperature : spec_float;
  lightLevel : Z;
  timestamp : Z
}.

Record ButtonEvent : Type := mkButtonEvent {
  pressed : bool;
  released : bool;
  duration : Z;
  eventTimestamp : Z
}.

(** The fixed lines the modelled task bodies print through [safePrintln]. *)
Inductive Message : Type :=
| MsgSensorQueueFull
| MsgButtonQueueFull
| MsgSensorNotResponding
| MsgLowMemory
| MsgLedStackLow
| MsgSystemResetRequired.

Record SystemState : Type := mkSystemState {
  systemRunning : bool;
  ledMode : Z;
  sensorSamples : Z;
  buttonPresses : Z;
  averageTemp : spec_float;
  alarmActive : bool
}.

(** Globals of the sketch, the serial line, and the variables of
    [taskWatchdog] that live across iterations of its loop: the local
    [lastSensorTime] and the [static int unhealthyCount].  A queue handle is
    [None] while it is [NULL]. *)
Record World : Type := mkWorld {
  systemState : SystemState;
  sensorDataQueue : option (Queue SensorData);
  buttonEventQueue : option (Queue ButtonEvent);
  serialMutexTaken : bool;
  serial : list Message;
  lastSensorTime : Z;
  unhealthyCount : Z
}.

Definition M : Type -> Type := State.M World.

Definition initialSystemState : SystemState :=
  {| systemRunning := true;
     ledMode := 1;
     sensorSamples := 0;
     buttonPresses := 0;
     averageTemp := S754_zero false;
     alarmActive := false |}.

Definition initialWorld : World :=
  {| systemState := initialSystemState;
     sensorDataQueue := None;
     buttonEventQueue := None;
     serialMutexTaken := false;
     serial := [];
     lastSensorTime := 0;
     unhealthyCount := 0 |}.

Definition set_alarmActive (v : bool) : M unit :=
  State.modify (fun w =>
    mkWorld (mkSystemState (systemRunning (systemState w)) (ledMode (systemState w))
               (sensorSamples (systemState w)) (buttonPresses (systemState w))
               (averageTemp (systemState w)) v)
            (sensorDataQueue w) (buttonEventQueue w) (serialMutexTaken w)
            (serial w) (lastSensorTime w) (unhealthyCount w)).

Definition set_sensorDataQueue (q : option (Queue SensorData)) : M unit :=
  State.modify (fun w =>
    mkWorld (systemState w) q (buttonEventQueue w) (serialMutexTaken w)
            (serial w) (lastSensorTime w) (unhealthyCount w)).

Definition set_buttonEventQueue (q : option (Queue ButtonEvent)) : M unit :=
  State.modify (fun w =>
    mkWorld (systemState w) (sensorDataQueue w) q (serialMutexTaken w)
            (serial w) (lastSensorTime w) (unhealthyCount w)).

Definition set_lastSensorTime (v : Z) : M unit :=
  State.modify (fun w =>
    mkWorld (systemState w) (sensorDataQueue w) (buttonEventQueue w)
            (serialMutexTaken w) (serial w) v (unhealthyCount w)).

Definition set_unhealthyCount (v : Z) : M unit :=
  State.modify (fun w =>
    mkWorld (systemState w) (sensorDataQueue w) (buttonEventQueue w)
            (serialMutexTaken w) (serial w) (lastSensorTime w) v).

(** [safePrintln]: the line is printed only if the mutex is obtained; a mutex
    another task keeps for the whole wait makes the call a no-op.  The mutex
    is given back before returning. *)
Definition safePrintln (msg : Message) : M unit :=
  taken <- State.get serialMutexTaken ;;
  State.when (negb taken)
    (State.modify (fun w =>
       mkWorld (systemState w) (sensorDataQueue w) (buttonEventQueue w)
               (serialMutexTaken w) (serial w ++ [msg]) (lastSensorTime w)
               (unhealthyCount w))).

(** The queue creation of [setup]: five sensor readings, three button
    events. *)
Definition setup : M unit :=
  set_sensorDataQueue (Some (xQueueCreate 5)) ;;
  set_buttonEventQueue (Some (xQueueCreate 3)).

(** The priorities [setup] passes to [xTaskCreate], in creation order. *)
Definition taskPriorities : list Z := [1; 2; 3; 1; 4].

(** The send at the end of one iteration of [taskSensorReading]; the result
    is the status of [xQueueSend], if the handle was not [NULL]. *)
Definition sendSensorData (data : SensorData) : M (option BaseType) :=
  handle <- State.get sensorDataQueue ;;
  match handle with
  | None => State.ret None
  | Some q =>
      let (status, q') := xQueueSend q data in
      set_sensorDataQueue (Some q') ;;
      match status with
      | pdTRUE => State.ret (Some status)
      | _ => safePrintln MsgSensorQueueFull ;; State.ret (Some status)
      end
  end.

(** The send at the end of one iteration of [taskButtonHandler], made when
    a press or a release was seen. *)
Definition sendButtonEvent (event : ButtonEvent) : M (option BaseType) :=
  handle <- State.get buttonEventQueue ;;
  match handle with
  | None => State.ret None
  | Some q =>
      let (status, q') := xQueueSend q event in
      set_buttonEventQueue (Some q') ;;
      match status with
      | pdTRUE => State.ret (Some status)
      | _ => safePrintln MsgButtonQueueFull ;; State.ret (Some status)
      end
  end.

(** *** The watchdog *)

(** What one iteration of the watchdog loop reads from its environment. *)
Record Readings : Type := mkReadings {
  millis : Z;
  freeHeap : Z;
  ledStackHighWater : Z
}.

Definition checkSensorTask (env : Readings) : M bool :=
  samples <- State.get (fun w => sensorSamples (systemState w)) ;;
  if 0 <? samples then
    set_lastSensorTime (millis env) ;;
    State.ret true
  else
    last <- State.get lastSensorTime ;;
    if 10000 <? U32.sub (millis env) last then
      safePrintln MsgSensorNotResponding ;;
      State.ret false
    else State.ret true.

Definition checkMemory (env : Readings) : M bool :=
  if freeHeap env <? 10000 then
    safePrintln MsgLowMemory ;;
    State.ret false
  else State.ret true.

Definition checkLedStack (env : Readings) : M bool :=
  if ledStackHighWater env <? 100 then
    safePrintln MsgLedStackLow ;;
    State.ret false
  else State.ret true.

(** The three checks in program order; [systemHealthy] ends up false as soon
    as one of them fails. *)
Definition systemHealthy (env : Readings) : M bool :=
  sensorOk <- checkSensorTask env ;;
  memoryOk <- checkMemory env ;;
  stackOk <- checkLedStack env ;;
  State.ret (sensorOk && memoryOk && stackOk).

(** The counting at the end of the loop body. *)
Definition countUnhealthy (healthy : bool) : M unit :=
  if negb healthy then
    c <- State.get unhealthyCount ;;
    set_unhealthyCount (c + 1) ;;
    c' <- State.get unhealthyCount ;;
    State.when (5 <? c')
      (safePrintln MsgSystemResetRequired ;;
       set_alarmActive true ;;
       set_unhealthyCount 0)
  else set_unhealthyCount 0.

(** One iteration of the loop of [taskWatchdog]. *)
Definition watchdogCheck (env : Readings) : M unit :=
  healthy <- systemHealthy env ;;
  countUnhealthy healthy.

Fixpoint watchdogRun (envs : list Readings) : M unit :=
  match envs with
  | [] => State.ret tt
  | env :: rest => watchdogCheck env ;; watchdogRun rest
  end.

(** *** Runs and notions the properties are stated with *)

(** The number of waiting items never exceeds the capacity. *)
Definition wellFormed {T : Type} (q : Queue T) : Prop :=
  (uxQueueMessagesWaiting q <= capacity q)%nat.

(** What the health checks leave alone: they print and refresh
    [lastSensorTime], nothing else. *)
Definition sameCore (w w' : World) : Prop :=
  unhealthyCount w' = unhealthyCount w
  /\ systemState w' = systemState w
  /\ sensorDataQueue w' = sensorDataQueue w
  /\ buttonEventQueue w' = buttonEventQueue w
  /\ serialMutexTaken w' = serialMutexTaken w.

(** The sensor check of the watchdog has something to report: no sample
    yet, and more than 10000 ms since [lastSensorTime]. *)
Definition sensorSilent (env : Readings) (w : World) : bool :=
  negb (0 <? sensorSamples (systemState w))
  && (10000 <? U32.sub (millis env) (lastSensorTime w)).

(** The warnings of the three health checks of one iteration, in the order
    they are printed. *)
Definition warnings (env : Readings) (w : World) : list Message :=
  (if sensorSilent env w then [MsgSensorNotResponding] else [])
  ++ (if freeHeap env <? 10000 then [MsgLowMemory] else [])
  ++ (if ledStackHighWater env <? 100 then [MsgLedStackLow] else []).

(** Every check of the run finds the system unhealthy. *)
Fixpoint allUnhealthy (envs : list Readings) (w : World) : Prop :=
  match envs with
  | [] => True
  | env :: rest =>
      State.eval (systemHealthy env) w = false
      /\ allUnhealthy rest (State.exec (watchdogCheck env) w)
  end.

(** After start-up: queues created, counter at zero, alarm off. *)
Definition afterSetup : World := State.exec setup initialWorld.

(** A check made two seconds after start-up with 5000 bytes of heap left. *)
Definition lowMemory : Readings := mkReadings 2000 5000 500.

End Rtos.

(** ** The scheduler of the tasks *)

Module Scheduler.

(** Modelled from the spec: the priority scheduler that runs the tasks
    [setup] creates.  It is the FreeRTOS kernel; the repository only
    contains the [xTaskCreate] calls that hand it the tasks and their
    priorities.  Section 4.1 of the spec: a task has a priority, a higher
    number being more urgent, and is Ready, Running, Blocked, Suspended or
    Terminated; [register_task] returns the handle of the new task, which
    enters Ready or Blocked depending on its wake policy, and fails with
    [CapacityExceeded] once the maximum task count is reached; a scheduling
    decision selects the highest-priority Ready task, the earliest
    registered among equal priorities; the selected task runs until it
    blocks or until a task of strictly higher priority becomes Ready, tasks
    of equal priority being given no time slices.  In this
    priority-run-to-block model a task gives the processor to a less urgent
    one only by leaving Ready, so the yield of the scenarios is the blocking
    wait.  Deadlines, [tick] and [delete_task] are not modelled: a blocked
    task becomes Ready by [wake]. *)
Inductive TaskState : Type :=
| Ready
| Running
| Blocked
| Suspended
| Terminated.

Inductive WakePolicy : Type :=
| Periodic
| EventDriven.

Record Task : Type := mkTask {
  priority : Z;
  state : TaskState
}.

(** A handle is the position of the task in registration order. *)
Definition TaskHandle : Type := nat.

Inductive SchedulerError : Type :=
| CapacityExceeded.

Record TaskSet : Type := mkTaskSet {
  maxTasks : nat;
  tasks : list Task
}.

Definition newTaskSet (maxTasks : nat) : TaskSet := mkTaskSet maxTasks [].

Definition isReady (t : Task) : bool :=
  match state t with
  | Ready => true
  | _ => false
  end.

(** A periodic task is due at once; an event-driven one waits for its
    event. *)
Definition initialState (wake : WakePolicy) : TaskState :=
  match wake with
  | Periodic => Ready
  | EventDriven => Blocked
  end.

Definition register_task (prio : Z) (wake : WakePolicy) (s : TaskSet)
  : SchedulerError + (TaskHandle * TaskSet) :=
  if (length (tasks s) <? maxTasks s)%nat then
    inr (length (tasks s),
         mkTaskSet (maxTasks s) (tasks s ++ [mkTask prio (initialState wake)]))
  else inl CapacityExceeded.

(** Registration of several tasks in order, stopping at the first failure. *)
Fixpoint registerAll (specs : list (Z * WakePolicy)) (s : TaskSet)
  : SchedulerError + TaskSet :=
  match specs with
  | [] => inr s
  | (prio, wake) :: rest =>
      match register_task prio wake s with
      | inl e => inl e
      | inr (_, s') => registerAll rest s'
      end
  end.

Definition priorityOf (ts : list Task) (h : TaskHandle) : Z :=
  match nth_error ts h with
  | Some t => priority t
  | None => 0
  end.

Definition stateOf (ts : list Task) (h : TaskHandle) : option TaskState :=
  option_map state (nth_error ts h).

Fixpoint setState (h : TaskHandle) (st : TaskState) (ts : list Task)
  : list Task :=
  match ts, h with
  | [], _ => []
  | t :: rest, O => mkTask (priority t) st :: rest
  | t :: rest, S h' => t :: setState h' st rest
  end.

(** Modelled from the spec: the scan of the scheduling decision.  The tasks
    are visited in registration order, and a Ready task replaces the
    candidate only if its priority is strictly higher. *)
Definition replaces (t : Task) (best : option (TaskHandle * Z)) : bool :=
  isReady t
  && match best with
     | None => true
     | Some (_, p) => p <? priority t
     end.

Fixpoint scan (h : TaskHandle) (ts : list Task)
    (best : option (TaskHandle * Z)) : option (TaskHandle * Z) :=
  match ts with
  | [] => best
  | t :: rest =>
      scan (S h) rest (if replaces t best then Some (h, priority t) else best)
  end.

Definition select (ts : list Task) : option TaskHandle :=
  option_map fst (scan 0%nat ts None).

(** The selected task is given control. *)
Definition dispatch (ts : list Task) : option (TaskHandle * list Task) :=
  match select ts with
  | Some h => Some (h, setState h Running ts)
  | None => None
  end.

(** The running task waits on a queue, a mutex or a delay. *)
Definition block (h : TaskHandle) (ts : list Task) : list Task :=
  setState h Blocked ts.

(** A signal or a timeout ends the wait of a blocked task. *)
Definition wake (h : TaskHandle) (ts : list Task) : list Task :=
  match stateOf ts h with
  | Some Blocked => setState h Ready ts
  | _ => ts
  end.

(** Modelled from the spec: a preemption point while task [r] is running.
    A Ready task of strictly higher priority takes over and [r] goes back to
    Ready; otherwise [r] keeps the processor. *)
Definition preemptionPoint (r : TaskHandle) (ts : list Task)
  : TaskHandle * list Task :=
  match select ts with
  | Some h =>
      if priorityOf ts r <? priorityOf ts h
      then (h, setState h Running (setState r Ready ts))
      else (r, ts)
  | None => (r, ts)
  end.

(** Modelled from the spec: scheduling decisions one after the other, each
    selected task running until it blocks, until no Ready task remains or
    the fuel is used up.  The result is the order in which the tasks ran and
    the tasks at the end. *)
Fixpoint runOrder (fuel : nat) (ts : list Task)
  : list TaskHandle * list Task :=
  match fuel with
  | O => ([], ts)
  | S fuel' =>
      match dispatch ts with
      | None => ([], ts)
      | Some (h, ts1) =>
          let '(order, ts') := runOrder fuel' (block h ts1) in
          (h :: order, ts')
      end
  end.

(** Every task can be selected at most once before it is woken, so the
    number of tasks is fuel enough. *)
Definition runUntilIdle (ts : list Task) : list TaskHandle * list Task :=
  runOrder (length ts) ts.

(** *** Notions the properties are stated with *)

Definition readyAt (ts : list Task) (h : TaskHandle) : Prop :=
  exists t, nth_error ts h = Some t /\ state t = Ready.

(** [a] is served before [b]: it is more urgent, or as urgent and
    registered earlier. *)
Definition before (ts : list Task) (a b : TaskHandle) : Prop :=
  priorityOf ts b < priorityOf ts a
  \/ (priorityOf ts b = priorityOf ts a /\ (a < b)%nat).

(** Tasks of the given priorities, in registration order, all Ready. *)
Definition allReady (priorities : list Z) : list Task :=
  map (fun p => mkTask p Ready) priorities.

Definition readyCount (ts : list Task) : nat :=
  length (filter isReady ts).

(** The tasks of [setup], registered in the order of its [xTaskCreate]
    calls. *)
Definition setupTasks : list Task := allReady Rtos.taskPriorities.

End Scheduler.

(** ** The hardware-timer example: sensor buffer and statistics *)

Module HwTimer.

Import State.Notations.
Local Open Scope state_scope.

(** *** IEEE 754 arithmetic of the target

    [float] is binary32 and [double] binary64, both rounding to nearest
    even; the operations are those of the standard library's executable
    specification of IEEE 754. *)

Definition float : Type := spec_float.
Definition double : Type := spec_float.

Definition f32_add : float -> float -> float := SFadd 24 128.
Definition f32_div : float -> float -> float := SFdiv 24 128.
Definition f32_lt : float -> float -> bool := SFltb.
Definition f32_le : float -> float -> bool := SFleb.
Definition f32_of_int (z : Z) : float := binary_normalize 24 128 z 0 false.
Definition f32_zero : float := S754_zero false.

Definition f64_mul : double -> double -> double := SFmul 53 1024.
Definition f64_div : double -> double -> double := SFdiv 53 1024.
Definition f64_lt : double -> double -> bool := SFltb.
Definition f64_of_int (z : Z) : double := binary_normalize 53 1024 z 0 false.

(** Conversions between the two formats: rounding on the way down, exact on
    the way up. *)
Definition f64_to_f32 (x : double) : float :=
  match x with
  | S754_finite s m e => binary_round 24 128 s m e
  | _ => x
  end.

Definition f32_to_f64 (x : float) : double :=
  match x with
  | S754_finite s m e => binary_round 53 1024 s m e
  | _ => x
  end.

(** The literals [4095.0], [3.3], [2.8] and [0.5]: the doubles nearest to the
    decimal values, obtained as correctly rounded quotients of integers. *)
Definition lit_4095_0 : double := f64_of_int 4095.
Definition lit_3_3 : double := f64_div (f64_of_int 33) (f64_of_int 10).
Definition lit_2_8 : double := f64_div (f64_of_int 28) (f64_of_int 10).
Definition lit_0_5 : double := f64_div (f64_of_int 1) (f64_of_int 2).

(** *** Globals *)

Definition BUFFER_SIZE : Z := 60.

(** [sensorReadings], [bufferIndex], [totalReadings] and [alarmCount], and
    the levels written to the buzzer pin. *)
Record Globals : Type := mkGlobals {
  sensorReadings : list float;
  bufferIndex : Z;
  totalReadings : Z;
  alarmCount : Z;
  buzzer : list bool
}.

Definition M : Type -> Type := State.M Globals.

Definition initialGlobals : Globals :=
  {| sensorReadings := repeat f32_zero (Z.to_nat BUFFER_SIZE);
     bufferIndex := 0;
     totalReadings := 0;
     alarmCount := 0;
     buzzer := [] |}.

(** [a[i] = v] on an array held as a list; [i] is within bounds wherever the
    program stores. *)
Fixpoint store {A : Type} (i : nat) (v : A) (a : list A) : list A :=
  match a, i with
  | [], _ => []
  | _ :: rest, O => v :: rest
  | x :: rest, S i' => x :: store i' v rest
  end.

Definition load (a : list float) (i : nat) : float := nth i a f32_zero.

(** [float voltage = (rawValue / 4095.0) * 3.3;] *)
Definition adcVoltage (rawValue : Z) : float :=
  f64_to_f32 (f64_mul (f64_div (f64_of_int rawValue) lit_4095_0) lit_3_3).

Definition outOfRange (voltage : float) : bool :=
  f64_lt lit_2_8 (f32_to_f64 voltage) || f64_lt (f32_to_f64 voltage) lit_0_5.

Definition readAndStoreSensor (rawValue : Z) : M unit :=
  let voltage := adcVoltage rawValue in
  State.modify (fun g =>
    mkGlobals (store (Z.to_nat (bufferIndex g)) voltage (sensorReadings g))
              (Z.rem (bufferIndex g + 1) BUFFER_SIZE)
              (I32.add (totalReadings g) 1)
              (alarmCount g) (buzzer g)) ;;
  State.when (outOfRange voltage)
    (State.modify (fun g =>
       mkGlobals (sensorReadings g) (bufferIndex g) (totalReadings g)
                 (I32.add (alarmCount g) 1) (buzzer g ++ [true; false]))).

(** *** Statistics *)

Record Stats : Type := mkStats {
  average : float;
  minimum : float;
  maximum : float
}.

(** [(totalReadings < BUFFER_SIZE) ? totalReadings : BUFFER_SIZE] *)
Definition readingsToUse (total : Z) : Z :=
  if total <? BUFFER_SIZE then total else BUFFER_SIZE.

(** The running [sum], [min] and [max] of the loop. *)
Record Acc : Type := mkAcc {
  acc_sum : float;
  acc_min : float;
  acc_max : float
}.

(** One iteration of the [for] loop, at index [i]. *)
Definition statsStep (readings : list float) (acc : Acc) (i : nat) : Acc :=
  let value := load readings i in
  mkAcc (f32_add (acc_sum acc) value)
        (if f32_lt value (acc_min acc) then value else acc_min acc)
        (if f32_lt (acc_max acc) value then value else acc_max acc).

Definition statsLoop (readings : list float) (n : Z) : Acc :=
  fold_left (statsStep readings) (seq 0 (Z.to_nat n))
    (mkAcc f32_zero (load readings 0) (load readings 0)).

Definition calculateSensorStats (g : Globals) : Stats :=
  if totalReadings g =? 0 then mkStats f32_zero f32_zero f32_zero
  else
    let n := readingsToUse (totalReadings g) in
    let acc := statsLoop (sensorReadings g) n in
    mkStats (f32_div (acc_sum acc) (f32_of_int n)) (acc_min acc) (acc_max acc).

(** *** Runs and notions the properties are stated with *)

(** The readings the loop visits at the indices [idxs]. *)
Definition visited (readings : list float) (idxs : list nat) : list float :=
  map (load readings) idxs.

(** The binary32 sum of [values], added one by one to [start]. *)
Definition sumFrom (start : float) (values : list float) : float :=
  fold_left f32_add values start.

(** Finite and different from zero: a divisor that is no division by
    zero. *)
Definition isNonzeroFinite (x : float) : bool :=
  match x with
  | S754_finite _ _ _ => true
  | _ => false
  end.

(** Three readings of the raw ADC value 7 after start-up. *)
Definition threeLowReadings : Globals :=
  State.exec (State.repeat_m 3 (readAndStoreSensor 7)) initialGlobals.

End HwTimer.

(** ** Runs of the traffic light and the lamps they leave on *)

Module TrafficLightRuns.

Import TrafficLight.

(** Which lamps are lit.  [walk] is the pedestrian signal showing WALK;
    [turnOffPedestrianSignal] switches it to DON'T WALK. *)
Record Lamps : Type := mkLamps {
  red : bool;
  green : bool;
  yellow : bool;
  walk : bool
}.

Definition allOff : Lamps := mkLamps false false false false.

(** The effect of one hardware call on the lamps. *)
Definition applyCall (l : Lamps) (c : HwCall) : Lamps :=
  match c with
  | RedOn => mkLamps true (green l) (yellow l) (walk l)
  | RedOff => mkLamps false (green l) (yellow l) (walk l)
  | GreenOn => mkLamps (red l) true (yellow l) (walk l)
  | GreenOff => mkLamps (red l) false (yellow l) (walk l)
  | YellowOn => mkLamps (red l) (green l) true (walk l)
  | YellowOff => mkLamps (red l) (green l) false (walk l)
  | WalkOn => mkLamps (red l) (green l) (yellow l) true
  | WalkOff => mkLamps (red l) (green l) (yellow l) false
  | EmergencyAlarm => l
  end.

(** The lamps lit after a trace of hardware calls, all lamps off before. *)
Definition lamps (trace : list HwCall) : Lamps :=
  fold_left applyCall trace allOff.

(** The lamps [enterState] switches on for each state, after
    [turnOffAllLights]. *)
Definition lampsOf (s : TrafficLightState) : Lamps :=
  match s with
  | STATE_RED => mkLamps true false false true
  | STATE_GREEN => mkLamps false true false false
  | STATE_YELLOW => mkLamps false false true false
  | STATE_RED_YELLOW => mkLamps true false true false
  | STATE_PEDESTRIAN => mkLamps true false false true
  | STATE_ERROR => allOff
  end.

(** The hardware calls of [enterState], in order. *)
Definition entryCalls (s : TrafficLightState) : list HwCall :=
  [RedOff; GreenOff; YellowOff; WalkOff] ++
  match s with
  | STATE_RED => [RedOn; WalkOn]
  | STATE_GREEN => [GreenOn; WalkOff]
  | STATE_YELLOW => [YellowOn; WalkOff]
  | STATE_RED_YELLOW => [RedOn; YellowOn; WalkOff]
  | STATE_PEDESTRIAN => [RedOn; WalkOn]
  | STATE_ERROR => [EmergencyAlarm]
  end.

(** What can happen to the machine between two observations: an event is
    handled, the step function runs, or the event simulation runs. *)
Inductive Action : Type :=
| Deliver (e : TrafficLightEvent)
| Step
| Simulate.

Definition perform (a : Action) : M unit :=
  match a with
  | Deliver e => handleEvent e
  | Step => runStateMachine
  | Simulate => simulateEvents
  end.

Fixpoint performAll (actions : list Action) : M unit :=
  match actions with
  | [] => State.ret tt
  | a :: rest => State.bind (perform a) (fun _ => performAll rest)
  end.

(** Actions that can deliver [EVENT_RESET]: the event itself, and the event
    simulation, which does so on every thirtieth call. *)
Definition mayReset (a : Action) : bool :=
  match a with
  | Deliver EVENT_RESET => true
  | Simulate => true
  | _ => false
  end.

(** The number of runs of the event simulation among the actions. *)
Fixpoint countSimulate (actions : list Action) : Z :=
  match actions with
  | [] => 0
  | Simulate :: rest => 1 + countSimulate rest
  | _ :: rest => countSimulate rest
  end.

(** [k] timer events in a row. *)
Definition timerEvents (k : nat) : M unit :=
  State.repeat_m k (handleEvent EVENT_TIMER_EXPIRED).

(** The number of timer events after which a pending pedestrian request is
    served, by state. *)
Definition timerEventsToPedestrian (s : TrafficLightState) : nat :=
  match s with
  | STATE_RED => 1
  | STATE_YELLOW => 2
  | STATE_GREEN => 3
  | STATE_RED_YELLOW => 4
  | STATE_PEDESTRIAN => 5
  | STATE_ERROR => 0
  end.

(** A request made while the light is yellow. *)
Definition requestInYellow : World :=
  State.exec (handleEvent EVENT_BUTTON_PRESSED)
    (State.exec (timerEvents 3) booted).

(** The state, the error flag and the lamps agree, and the state is not the
    error state. *)
Definition consistent (w : World) : Prop :=
  currentState (trafficLight w) <> STATE_ERROR
  /\ errorFlag (trafficLight w) = false
  /\ lamps (hw w) = lampsOf (currentState (trafficLight w)).

End TrafficLightRuns.

(** ** The RTOS tasks example: the loops of the sensor and button tasks *)

Module RtosTasks.

Import HwTimer Rtos.
Import State.Notations.
Local Open Scope state_scope.

(** One iteration of each task loop is a function of what the iteration
    reads from its environment and of the task's local variables.  The
    fields of [systemState] that are counted up are [int]s of 32 bits.
    Lines printed for narration only are left out; the queue-full warnings
    are printed by [sendSensorData] and [sendButtonEvent]. *)

Definition f64_sub : double -> double -> double := SFsub 53 1024.

Definition lit_100_0 : double := f64_of_int 100.
Definition lit_50_0 : double := f64_of_int 50.
Definition lit_minus_10_0 : double := f64_of_int (-10).

Definition modifySystemState (f : SystemState -> SystemState) : M unit :=
  State.modify (fun w =>
    mkWorld (f (systemState w)) (sensorDataQueue w) (buttonEventQueue w)
            (serialMutexTaken w) (serial w) (lastSensorTime w) (unhealthyCount w)).

Definition set_ledMode (v : Z) (s : SystemState) : SystemState :=
  mkSystemState (systemRunning s) v (sensorSamples s) (buttonPresses s)
    (averageTemp s) (alarmActive s).

Definition set_sensorSamples (v : Z) (s : SystemState) : SystemState :=
  mkSystemState (systemRunning s) (ledMode s) v (buttonPresses s)
    (averageTemp s) (alarmActive s).

Definition set_buttonPresses (v : Z) (s : SystemState) : SystemState :=
  mkSystemState (systemRunning s) (ledMode s) (sensorSamples s) v
    (averageTemp s) (alarmActive s).

Definition set_averageTemp (v : float) (s : SystemState) : SystemState :=
  mkSystemState (systemRunning s) (ledMode s) (sensorSamples s)
    (buttonPresses s) v (alarmActive s).

(** *** The sensor task *)

(** [data.temperature = (data.voltage * 100.0) - 50.0;] *)
Definition sensorTemperature (voltage : float) : float :=
  f64_to_f32 (f64_sub (f64_mul (f32_to_f64 voltage) lit_100_0) lit_50_0).

(** [data.temperature > 50.0 || data.temperature < -10.0] *)
Definition temperatureAlarm (temperature : float) : bool :=
  f64_lt lit_50_0 (f32_to_f64 temperature)
  || f64_lt (f32_to_f64 temperature) lit_minus_10_0.

(** One iteration of the loop of [taskSensorReading]: [rawValue] is what
    [analogRead] returns, [now] what [millis] returns, [tempSum] the local
    running sum, whose new value is the result. *)
Definition sensorIteration (rawValue now : Z) (tempSum : float) : M float :=
  let voltage := adcVoltage rawValue in
  let temperature := sensorTemperature voltage in
  let data := mkSensorData voltage temperature rawValue now in
  modifySystemState (fun s =>
    set_sensorSamples (I32.add (sensorSamples s) 1) s) ;;
  let tempSum' := f32_add tempSum temperature in
  modifySystemState (fun s =>
    set_averageTemp (f32_div tempSum' (f32_of_int (sensorSamples s))) s) ;;
  (if temperatureAlarm temperature then
     set_alarmActive true ;;
     modifySystemState (set_ledMode 2)
   else
     set_alarmActive false ;;
     mode <- State.get (fun w => ledMode (systemState w)) ;;
     State.when (mode =? 2) (modifySystemState (set_ledMode 1))) ;;
  _ <- sendSensorData data ;;
  State.ret tempSum'.

(** The alarm condition as a function of the raw ADC value. *)
Definition rawAlarm (rawValue : Z) : bool :=
  temperatureAlarm (sensorTemperature (adcVoltage rawValue)).

(** *** The button task *)

(** The locals of [taskButtonHandler] that live across iterations.  Pin
    levels are booleans, [true] for [HIGH]; the pin is pulled up, so [LOW]
    means pressed. *)
Record ButtonLocals : Type := mkButtonLocals {
  lastButtonState : bool;
  pressStartTime : Z
}.

Definition initialButtonLocals : ButtonLocals := mkButtonLocals true 0.

(** What one iteration reads: the pin, [millis] for the time stamp of the
    event, and [millis] once more if it finds an edge. *)
Record ButtonReadings : Type := mkButtonReadings {
  pinLevel : bool;
  stampReading : Z;
  edgeReading : Z
}.

Definition toggleAlarm : M unit :=
  a <- State.get (fun w => alarmActive (systemState w)) ;;
  set_alarmActive (negb a).

(** One iteration of the loop of [taskButtonHandler]. *)
Definition buttonIteration (env : ButtonReadings) (loc : ButtonLocals)
  : M ButtonLocals :=
  let currentButtonState := pinLevel env in
  let event := mkButtonEvent false false 0 (stampReading env) in
  (* HIGH to LOW: pressed *)
  onPress <-
    (if lastButtonState loc && negb currentButtonState then
       modifySystemState (fun s =>
         set_buttonPresses (I32.add (buttonPresses s) 1) s) ;;
       modifySystemState (fun s =>
         set_ledMode (Z.rem (I32.add (ledMode s) 1) 4) s) ;;
       State.ret (edgeReading env,
                  mkButtonEvent true (released event) (duration event)
                    (eventTimestamp event),
                  true)
     else State.ret (pressStartTime loc, event, false)) ;;
  let '(start, event, sendEvent) := onPress in
  (* LOW to HIGH: released *)
  onRelease <-
    (if negb (lastButtonState loc) && currentButtonState then
       let held := U32.sub (edgeReading env) start in
       State.when (2000 <? held) toggleAlarm ;;
       State.ret (mkButtonEvent (pressed event) true held (eventTimestamp event),
                  true)
     else State.ret (event, sendEvent)) ;;
  let '(event, sendEvent) := onRelease in
  State.when sendEvent (_ <- sendButtonEvent event ;; State.ret tt) ;;
  State.ret (mkButtonLocals currentButtonState start).

(** Iterations in a row, the locals handed on from one to the next. *)
Fixpoint buttonIterations (envs : list ButtonReadings) (loc : ButtonLocals)
  : M ButtonLocals :=
  match envs with
  | [] => State.ret loc
  | env :: rest => loc' <- buttonIteration env loc ;; buttonIterations rest loc'
  end.

(** *** Runs *)

(** Several readings sent one after the other by the sensor task. *)
Fixpoint sendAll (readings : list SensorData) : M (list (option BaseType)) :=
  match readings with
  | [] => State.ret []
  | d :: rest =>
      r <- sendSensorData d ;;
      rs <- sendAll rest ;;
      State.ret (r :: rs)
  end.

(** *** Notions the properties are stated with *)

(** The sensor check of the watchdog finds nothing to report. *)
Definition sensorCheckPasses (env : Readings) (w : World) : Prop :=
  State.eval (checkSensorTask env) w = true.

(** Any iteration of any of the three modelled task loops, whatever values
    its locals have. *)
Inductive TaskStep : Type :=
| SensorStep (rawValue now : Z) (tempSum : float)
| ButtonStep (env : ButtonReadings) (loc : ButtonLocals)
| WatchdogStep (env : Readings).

Definition taskStep (s : TaskStep) : M unit :=
  match s with
  | SensorStep rawValue now tempSum =>
      _ <- sensorIteration rawValue now tempSum ;; State.ret tt
  | ButtonStep env loc => _ <- buttonIteration env loc ;; State.ret tt
  | WatchdogStep env => watchdogCheck env
  end.

Fixpoint taskSteps (steps : list TaskStep) : M unit :=
  match steps with
  | [] => State.ret tt
  | s :: rest => taskStep s ;; taskSteps rest
  end.

(** A queue handle that is set, with the given capacity and no more items
    than that. *)
Definition queueWithin {T : Type} (n : nat) (handle : option (Queue T)) : Prop :=
  match handle with
  | None => False
  | Some q => capacity q = n /\ (uxQueueMessagesWaiting q <= n)%nat
  end.

(** What every interleaving of the task loops keeps true. *)
Definition tasksInvariant (w : World) : Prop :=
  0 <= ledMode (systemState w) <= 3
  /\ 0 <= unhealthyCount w <= 5
  /\ queueWithin 5 (sensorDataQueue w)
  /\ queueWithin 3 (buttonEventQueue w).

End RtosTasks.

(** ** The hardware-timer example: runs of readings and the uptime display *)

Module HwTimerRuns.

Import HwTimer.
Import State.Notations.
Local Open Scope state_scope.

(** The readings taken one after the other, oldest first; each is what
    [analogRead] returned. *)
Fixpoint readAll (raws : list Z) : M unit :=
  match raws with
  | [] => State.ret tt
  | rawValue :: rest => readAndStoreSensor rawValue ;; readAll rest
  end.

(** The globals after start-up and the given readings. *)
Definition afterReadings (raws : list Z) : Globals :=
  State.exec (readAll raws) initialGlobals.

(** What the 12-bit converter can return. *)
Definition validRaw (rawValue : Z) : Prop := 0 <= rawValue <= 4095.

(** The readings that trigger the out-of-range warning. *)
Definition alarming (raws : list Z) : list Z :=
  filter (fun rawValue => outOfRange (adcVoltage rawValue)) raws.

(** One short beep: the buzzer pin driven high, then low. *)
Definition beeps (n : nat) : list bool :=
  flat_map (fun _ => [true; false]) (seq 0 n).

(** The uptime as [checkSystemHealth] prints it: hours, minutes and seconds,
    from a reading of [millis], an [unsigned long] of 32 bits. *)
Record Uptime : Type := mkUptime {
  hours : Z;
  minutes : Z;
  seconds : Z
}.

Definition uptimeOf (millis : Z) : Uptime :=
  let uptimeSeconds := millis / 1000 in
  let uptimeMinutes := uptimeSeconds / 60 in
  let uptimeHours := uptimeMinutes / 60 in
  mkUptime uptimeHours (uptimeMinutes mod 60) (uptimeSeconds mod 60).

End HwTimerRuns.

(** * Properties *)

(** ** Facts on unsigned 32-bit arithmetic *)

Module U32Facts.

Import U32.

Lemma wrap_range z : in_range (wrap z).
Proof. unfold in_range, wrap, modulus. apply Z.mod_pos_bound. lia. Qed.

Lemma wrap_small z : in_range z -> wrap z = z.
Proof. unfold in_range, wrap, modulus. intros H. apply Z.mod_small. exact H. Qed.

Lemma add_range a b : in_range (add a b).
Proof. apply wrap_range. Qed.

Lemma sub_range a b : in_range (sub a b).
Proof. apply wrap_range. Qed.

Lemma add_no_overflow a b :
  0 <= a + b < modulus -> add a b = a + b.
Proof. intros H. apply wrap_small. exact H. Qed.

Lemma add_overflow a b :
  modulus <= a + b < 2 * modulus -> add a b = a + b - modulus.
Proof.
  unfold add, wrap, modulus. intros H.
  symmetry. apply (Z.mod_unique_pos _ _ 1); lia.
Qed.

(** Adding inside or outside of a wrapped sum is the same. *)
Lemma add_wrap_l a b : add (wrap a) b = wrap (a + b).
Proof. unfold add, wrap. apply Zplus_mod_idemp_l. Qed.

(** The unsigned difference between a counter advanced by [d] and the
    counter itself is [d], whether the counter wrapped in between or not. *)
Lemma sub_add_cancel a d :
  in_range d -> sub (add a d) a = d.
Proof.
  unfold sub, add, wrap, in_range, modulus. intros H.
  rewrite Zminus_mod_idemp_l.
  replace (a + d - a) with d by lia.
  apply Z.mod_small. exact H.
Qed.

End U32Facts.

(** ** Running monadic code *)

Module StateFacts.

Import State.

Lemma exec_bind {S A B : Type} (m : M S A) (k : A -> M S B) (s : S) :
  exec (bind m k) s = exec (k (eval m s)) (exec m s).
Proof. unfold exec, eval, bind. destruct (m s) as [a s']. reflexivity. Qed.

Lemma eval_bind {S A B : Type} (m : M S A) (k : A -> M S B) (s : S) :
  eval (bind m k) s = eval (k (eval m s)) (exec m s).
Proof. unfold exec, eval, bind. destruct (m s) as [a s']. reflexivity. Qed.

Lemma exec_repeat_succ {S : Type} (n : nat) (m : M S unit) (s : S) :
  exec (repeat_m (Datatypes.S n) m) s = exec (repeat_m n m) (exec m s).
Proof. cbn [repeat_m]. apply exec_bind. Qed.

End StateFacts.

(** ** The traffic-light state machine *)

Module TrafficLightProofs.

Import TrafficLight.

Lemma state_eqb_spec a b : reflect (a = b) (state_eqb a b).
Proof. destruct a, b; simpl; constructor; congruence. Qed.

(** The timestamp the next call of [getCurrentTime] returns. *)
Lemma getCurrentTime_eval w :
  State.eval getCurrentTime w = U32.add (simulatedTime w) 1000.
Proof. reflexivity. Qed.

Lemma getCurrentTime_exec w :
  simulatedTime (State.exec getCurrentTime w) = State.eval getCurrentTime w
  /\ trafficLight (State.exec getCurrentTime w) = trafficLight w.
Proof. split; reflexivity. Qed.

(** *** Entering a state *)

Lemma enterState_fields s w :
  let t := trafficLight w in
  let t' := trafficLight (State.exec (enterState s) w) in
  currentState t' = s
  /\ previousState t' = currentState t
  /\ stateStartTime t' = State.eval getCurrentTime w
  /\ stateDuration t' = durationOf s
  /\ emergencyMode t' = emergencyMode t
  /\ totalCycles t' = totalCycles t
  /\ pedestrianRequested t' =
       (if state_eqb s STATE_PEDESTRIAN then false else pedestrianRequested t)
  /\ errorFlag t' = (if state_eqb s STATE_ERROR then true else errorFlag t).
Proof. destruct s; cbn; repeat split. Qed.

Lemma enterState_clock s w :
  simulatedTime (State.exec (enterState s) w) = State.eval getCurrentTime w.
Proof. destruct s; reflexivity. Qed.

(** *** Checking the clock *)

Lemma isTimeToChangeState_eval w :
  State.eval isTimeToChangeState w =
  (stateDuration (trafficLight w)
     <=? U32.sub (State.eval getCurrentTime w) (stateStartTime (trafficLight w))).
Proof. reflexivity. Qed.

Lemma isTimeToChangeState_exec w :
  State.exec isTimeToChangeState w = State.exec getCurrentTime w.
Proof. reflexivity. Qed.

Lemma displayStatus_exec w :
  State.exec displayStatus w = State.exec getCurrentTime w.
Proof. reflexivity. Qed.

Lemma runStateMachine_unfold w :
  State.exec runStateMachine w =
  if State.eval isTimeToChangeState w
  then State.exec displayStatus
         (State.exec (handleEvent EVENT_TIMER_EXPIRED)
            (State.exec isTimeToChangeState w))
  else State.exec displayStatus (State.exec isTimeToChangeState w).
Proof.
  unfold runStateMachine. rewrite StateFacts.exec_bind.
  destruct (State.eval isTimeToChangeState w); cbn [State.when];
    rewrite StateFacts.exec_bind; reflexivity.
Qed.

(** A step whose clock check does not fire changes the clock only. *)
Lemma runStateMachine_not_expired w :
  State.eval isTimeToChangeState w = false ->
  trafficLight (State.exec runStateMachine w) = trafficLight w
  /\ redFlashing (State.exec runStateMachine w) = redFlashing w
  /\ hw (State.exec runStateMachine w) = hw w.
Proof.
  intros H. rewrite runStateMachine_unfold, H. repeat split.
Qed.

Lemma timer_expired_in_red w :
  currentState (trafficLight w) = STATE_RED ->
  pedestrianRequested (trafficLight w) = false ->
  currentState (trafficLight (State.exec (handleEvent EVENT_TIMER_EXPIRED) w))
  = STATE_RED_YELLOW.
Proof.
  destruct w as [[cs ps st du pr em tc ef] clk rf ec h]. cbn.
  intros -> ->. reflexivity.
Qed.

(** *** Reset *)

(** C1. Whatever the current state and whatever the values of
    [pedestrianRequested], [emergencyMode] and [errorFlag], handling
    [EVENT_RESET] leaves the machine in [STATE_RED] with the three flags
    cleared. *)
Theorem reset_returns_to_red (w : World) :
  let t' := trafficLight (State.exec (handleEvent EVENT_RESET) w) in
  currentState t' = STATE_RED
  /\ pedestrianRequested t' = false
  /\ emergencyMode t' = false
  /\ errorFlag t' = false.
Proof. cbn. repeat split. Qed.

(** *** Steps before and at the timeout *)

(** C3. When [runStateMachine] runs with no event delivered and the time in
    state it measures, the clock reading of the step minus [stateStartTime],
    is strictly below [stateDuration], the current state after the call is
    the current state before it. *)
Theorem step_before_timeout_keeps_state (w : World) :
  U32.sub (State.eval getCurrentTime w) (stateStartTime (trafficLight w))
    < stateDuration (trafficLight w) ->
  currentState (trafficLight (State.exec runStateMachine w))
  = currentState (trafficLight w).
Proof.
  intros H.
  destruct (runStateMachine_not_expired w) as [Htl _].
  - rewrite isTimeToChangeState_eval. apply Z.leb_gt. exact H.
  - rewrite Htl. reflexivity.
Qed.

Lemma step_before_timeout_keeps_state_witness :
  U32.sub (State.eval getCurrentTime booted) (stateStartTime (trafficLight booted))
    < stateDuration (trafficLight booted)
  /\ currentState (trafficLight (State.exec runStateMachine booted)) = STATE_RED.
Proof.
  split.
  - vm_compute. reflexivity.
  - apply (step_before_timeout_keeps_state booted). vm_compute. reflexivity.
Defined.

(** The clock advances when it is read: a step taken when the last reading
    was 9000 ms after entry into [STATE_RED] measures 10000 ms and fires. *)
Example step_reads_advanced_clock :
  let w := State.exec (State.repeat_m 9 readClock) booted in
  U32.sub (simulatedTime w) (stateStartTime (trafficLight w)) = 9000
  /\ stateDuration (trafficLight w) = 10000
  /\ currentState (trafficLight (State.exec runStateMachine w)) = STATE_RED_YELLOW.
Proof. vm_compute. repeat split. Qed.

(** C4. In [STATE_RED] with no pedestrian request: the state was entered with
    a duration of 10000 ms, handling the timer event moves the machine to
    [STATE_RED_YELLOW], and so does the step that finds the duration
    elapsed. *)
Theorem red_timeout_enters_red_yellow (w : World) :
  currentState (trafficLight w) = STATE_RED ->
  pedestrianRequested (trafficLight w) = false ->
  stateDuration (trafficLight w)
    <= U32.sub (State.eval getCurrentTime w) (stateStartTime (trafficLight w)) ->
  stateDuration (trafficLight (State.exec (enterState STATE_RED) w)) = 10000
  /\ currentState (trafficLight (State.exec (handleEvent EVENT_TIMER_EXPIRED) w))
     = STATE_RED_YELLOW
  /\ currentState (trafficLight (State.exec runStateMachine w)) = STATE_RED_YELLOW.
Proof.
  intros Hred Hped Hdue. split; [reflexivity|]. split.
  - apply timer_expired_in_red; assumption.
  - rewrite runStateMachine_unfold, isTimeToChangeState_eval.
    apply Z.leb_le in Hdue. rewrite Hdue.
    rewrite displayStatus_exec.
    destruct (getCurrentTime_exec
                (State.exec (handleEvent EVENT_TIMER_EXPIRED)
                   (State.exec isTimeToChangeState w))) as [_ ->].
    apply timer_expired_in_red; rewrite isTimeToChangeState_exec;
      destruct (getCurrentTime_exec w) as [_ ->]; assumption.
Qed.

Lemma red_timeout_enters_red_yellow_witness :
  (currentState (trafficLight redForFiveSteps) = STATE_RED
   /\ pedestrianRequested (trafficLight redForFiveSteps) = false
   /\ stateDuration (trafficLight redForFiveSteps)
        <= U32.sub (State.eval getCurrentTime redForFiveSteps)
                   (stateStartTime (trafficLight redForFiveSteps)))
  /\ currentState (trafficLight (State.exec runStateMachine redForFiveSteps))
     = STATE_RED_YELLOW.
Proof.
  assert (H1 : currentState (trafficLight redForFiveSteps) = STATE_RED)
    by (vm_compute; reflexivity).
  assert (H2 : pedestrianRequested (trafficLight redForFiveSteps) = false)
    by (vm_compute; reflexivity).
  assert (H3 : stateDuration (trafficLight redForFiveSteps)
               <= U32.sub (State.eval getCurrentTime redForFiveSteps)
                          (stateStartTime (trafficLight redForFiveSteps)))
    by (vm_compute; discriminate).
  split; [repeat split; assumption|].
  exact (proj2 (proj2 (red_timeout_enters_red_yellow redForFiveSteps H1 H2 H3))).
Defined.

(** Scenario of the machine left alone after start-up: it stays red for five
    steps, the sixth measures 11000 ms and switches to red-yellow. *)
Example red_phase_without_events :
  map (fun n => currentState (trafficLight
                  (State.exec (State.repeat_m n runStateMachine) booted)))
      [0; 1; 2; 3; 4; 5; 6]%nat
  = [STATE_RED; STATE_RED; STATE_RED; STATE_RED; STATE_RED; STATE_RED;
     STATE_RED_YELLOW].
Proof. vm_compute. reflexivity. Qed.

Lemma idleChecks_trafficLight n w :
  trafficLight (State.exec (State.repeat_m n idleCheck) w) = trafficLight w.
Proof.
  revert w. induction n as [|n IH]; intros w; [reflexivity|].
  rewrite StateFacts.exec_repeat_succ, IH. reflexivity.
Qed.

Lemma quietSteps_trafficLight n w :
  nothingDue n w ->
  trafficLight (State.exec (State.repeat_m n runStateMachine) w) = trafficLight w.
Proof.
  revert w. induction n as [|n IH]; intros w Hquiet; [reflexivity|].
  destruct Hquiet as [Hnow Hlater].
  rewrite StateFacts.exec_repeat_succ, (IH _ Hlater).
  apply runStateMachine_not_expired. exact Hnow.
Qed.

(** C5. The timeout condition is [now - stateStartTime >= stateDuration] in
    [uint32_t] arithmetic, [now] being the clock reading of the check;
    [stateStartTime] is the clock reading made by [enterState]; and neither
    the check, nor the status display, nor any number of them, nor any
    number of steps that find nothing due changes it (or any other field of
    [trafficLight]). *)
Theorem timeout_measured_from_entry (w : World) (s : TrafficLightState) (n : nat) :
  (State.eval isTimeToChangeState w = true <->
   stateDuration (trafficLight w)
     <= U32.sub (State.eval getCurrentTime w) (stateStartTime (trafficLight w)))
  /\ stateStartTime (trafficLight (State.exec (enterState s) w))
     = State.eval getCurrentTime w
  /\ trafficLight (State.exec isTimeToChangeState w) = trafficLight w
  /\ trafficLight (State.exec displayStatus w) = trafficLight w
  /\ trafficLight (State.exec (State.repeat_m n idleCheck) w) = trafficLight w
  /\ (nothingDue n w ->
      stateStartTime (trafficLight (State.exec (State.repeat_m n runStateMachine) w))
      = stateStartTime (trafficLight w)).
Proof.
  split; [rewrite isTimeToChangeState_eval; apply Z.leb_le|].
  split; [destruct s; reflexivity|].
  split; [reflexivity|]. split; [reflexivity|].
  split; [apply idleChecks_trafficLight|].
  intros H. rewrite (quietSteps_trafficLight n w H). reflexivity.
Qed.

Lemma timeout_measured_from_entry_witness :
  nothingDue 5 booted
  /\ stateStartTime (trafficLight
       (State.exec (State.repeat_m 5 runStateMachine) booted)) = 1000.
Proof.
  assert (H : nothingDue 5 booted) by (vm_compute; repeat split).
  split; [exact H|].
  exact (proj2 (proj2 (proj2 (proj2 (proj2
           (timeout_measured_from_entry booted STATE_RED 5))))) H).
Defined.

(** *** The sensor extension of the green phase *)

Lemma sensor_triggered_exec w :
  State.exec (handleEvent EVENT_SENSOR_TRIGGERED) w =
  if state_eqb (currentState (trafficLight w)) STATE_GREEN
  then extendGreen w else w.
Proof.
  destruct w as [[cs ps st du pr em tc ef] clk rf ec h].
  destruct cs; reflexivity.
Qed.

Lemma greenAfterSensorEvents_state k :
  currentState (trafficLight (greenAfterSensorEvents k)) = STATE_GREEN
  /\ stateDuration (trafficLight (greenAfterSensorEvents k))
     = U32.wrap (15000 + 5000 * Z.of_N k).
Proof.
  unfold greenAfterSensorEvents.
  induction k as [|k [IHs IHd]] using N.peano_ind; [split; reflexivity|].
  rewrite N.iter_succ, sensor_triggered_exec, IHs. cbn [state_eqb].
  split; [exact IHs|].
  cbn [extendGreen trafficLight stateDuration set_stateDuration].
  rewrite IHd, U32Facts.add_wrap_l. f_equal. lia.
Qed.

(** C6, as stated, fails where the addition wraps: after 858990 sensor events
    within one green phase the duration is 4294965000 ms, and the next event
    leaves 2704 ms instead of adding 5000 ms. *)
Lemma sensor_extension_wraps :
  currentState (trafficLight (greenAfterSensorEvents 858990)) = STATE_GREEN
  /\ stateDuration (trafficLight (greenAfterSensorEvents 858990)) = 4294965000
  /\ stateDuration (trafficLight
       (State.exec (handleEvent EVENT_SENSOR_TRIGGERED)
          (greenAfterSensorEvents 858990))) = 2704
  /\ stateDuration (trafficLight
       (State.exec (handleEvent EVENT_SENSOR_TRIGGERED)
          (greenAfterSensorEvents 858990)))
     <> stateDuration (trafficLight (greenAfterSensorEvents 858990)) + 5000.
Proof.
  destruct (greenAfterSensorEvents_state 858990) as [Hs Hd].
  assert (Hafter : stateDuration (trafficLight
            (State.exec (handleEvent EVENT_SENSOR_TRIGGERED)
               (greenAfterSensorEvents 858990))) = 2704).
  { rewrite sensor_triggered_exec, Hs. cbn [state_eqb].
    cbn [extendGreen trafficLight stateDuration set_stateDuration].
    rewrite Hd. reflexivity. }
  split; [exact Hs|]. split; [rewrite Hd; reflexivity|].
  split; [exact Hafter|].
  rewrite Hafter, Hd. vm_compute. discriminate.
Qed.

(** C6, amended. In [STATE_GREEN] the event replaces [stateDuration] by
    [stateDuration + 5000] modulo 2^32, an increase by exactly 5000 whenever
    the duration is at most 2^32 - 5001, and changes nothing else: not the
    current state, not [stateStartTime], no other variable of the program.
    In every other state it changes nothing at all. *)
Theorem sensor_triggered_frame (w : World) :
  let w' := State.exec (handleEvent EVENT_SENSOR_TRIGGERED) w in
  (currentState (trafficLight w) = STATE_GREEN ->
     w' = extendGreen w
     /\ stateDuration (trafficLight w') = U32.add (stateDuration (trafficLight w)) 5000
     /\ (0 <= stateDuration (trafficLight w) <= 4294962295 ->
         stateDuration (trafficLight w') = stateDuration (trafficLight w) + 5000)
     /\ currentState (trafficLight w') = STATE_GREEN
     /\ previousState (trafficLight w') = previousState (trafficLight w)
     /\ stateStartTime (trafficLight w') = stateStartTime (trafficLight w)
     /\ pedestrianRequested (trafficLight w') = pedestrianRequested (trafficLight w)
     /\ emergencyMode (trafficLight w') = emergencyMode (trafficLight w)
     /\ totalCycles (trafficLight w') = totalCycles (trafficLight w)
     /\ errorFlag (trafficLight w') = errorFlag (trafficLight w))
  /\ (currentState (trafficLight w) <> STATE_GREEN -> w' = w).
Proof.
  cbv zeta. rewrite sensor_triggered_exec. split.
  - intros Hgreen. rewrite Hgreen. cbn [state_eqb].
    repeat split; try assumption.
    intros Hfit. cbn. apply U32Facts.add_no_overflow.
    unfold U32.modulus. lia.
  - intros Hother.
    destruct (state_eqb_spec (currentState (trafficLight w)) STATE_GREEN);
      [contradiction | reflexivity].
Qed.

Lemma sensor_triggered_frame_witness :
  currentState (trafficLight greenPhase) = STATE_GREEN
  /\ stateDuration (trafficLight
       (State.exec (handleEvent EVENT_SENSOR_TRIGGERED) greenPhase)) = 20000
  /\ (currentState (trafficLight booted) <> STATE_GREEN
      /\ State.exec (handleEvent EVENT_SENSOR_TRIGGERED) booted = booted).
Proof.
  assert (Hg : currentState (trafficLight greenPhase) = STATE_GREEN)
    by (vm_compute; reflexivity).
  assert (Hfit : 0 <= stateDuration (trafficLight greenPhase) <= 4294962295)
    by (vm_compute; split; discriminate).
  assert (Hr : currentState (trafficLight booted) <> STATE_GREEN)
    by (vm_compute; discriminate).
  split; [exact Hg|]. split.
  - exact (proj1 (proj2 (proj2 (proj1 (sensor_triggered_frame greenPhase) Hg))) Hfit).
  - split; [exact Hr|].
    exact (proj2 (sensor_triggered_frame booted) Hr).
Defined.

(** *** The simulated clock *)

Lemma afterCalls_clock n :
  simulatedTime (afterCalls n) = U32.wrap (1000 * Z.of_N n).
Proof.
  unfold afterCalls. induction n as [|n IH] using N.peano_ind; [reflexivity|].
  rewrite N.iter_succ.
  destruct (getCurrentTime_exec (N.iter n (State.exec getCurrentTime) initialWorld))
    as [-> _].
  rewrite getCurrentTime_eval, IH, U32Facts.add_wrap_l.
  f_equal. lia.
Qed.

Lemma nextTimestamp_closed n :
  nextTimestamp n = U32.wrap (1000 * (Z.of_N n + 1)).
Proof.
  unfold nextTimestamp. rewrite getCurrentTime_eval, afterCalls_clock.
  rewrite U32Facts.add_wrap_l. f_equal. lia.
Qed.

(** C8, as stated, fails at the wrap of the counter: call number 4294967
    returns 4294967000 and call number 4294968 returns 704. *)
Lemma clock_wraps_after_4294967_calls :
  nextTimestamp 4294966 = 4294967000
  /\ nextTimestamp 4294967 = 704
  /\ ~ nextTimestamp 4294966 < nextTimestamp 4294967.
Proof.
  rewrite !nextTimestamp_closed. vm_compute. repeat split. discriminate.
Qed.

(** C8, amended. Each call returns the timestamp of the previous call plus
    1000 modulo 2^32, so the unsigned difference of two consecutive
    timestamps is always 1000; the later timestamp is the greater one as
    long as the earlier is at most 2^32 - 1001, and it is smaller by
    2^32 - 1000 otherwise; the first 4294967 calls of a run return 1000,
    2000, ..., strictly increasing. *)
Theorem clock_advances_modulo (w : World) (n : N) :
  let t1 := State.eval getCurrentTime w in
  let t2 := State.eval getCurrentTime (State.exec getCurrentTime w) in
  t2 = U32.add t1 1000
  /\ U32.sub t2 t1 = 1000
  /\ (t1 <= 4294966295 -> t2 = t1 + 1000 /\ t1 < t2)
  /\ (4294966295 < t1 -> t2 = t1 + 1000 - 4294967296 /\ t2 < t1)
  /\ ((n < 4294967)%N ->
      nextTimestamp n = 1000 * (Z.of_N n + 1)
      /\ ((n < 4294966)%N -> nextTimestamp n < nextTimestamp (N.succ n))).
Proof.
  cbv zeta.
  destruct (getCurrentTime_exec w) as [Hclk _].
  rewrite (getCurrentTime_eval (State.exec getCurrentTime w)), Hclk.
  set (t1 := State.eval getCurrentTime w).
  assert (Hr : U32.in_range t1) by apply U32Facts.add_range.
  unfold U32.in_range, U32.modulus in Hr.
  split; [reflexivity|].
  split; [apply U32Facts.sub_add_cancel; unfold U32.in_range, U32.modulus; lia|].
  split; [|split].
  - intros Hle. rewrite U32Facts.add_no_overflow by (unfold U32.modulus; lia). lia.
  - intros Hgt. rewrite U32Facts.add_overflow by (unfold U32.modulus; lia).
    unfold U32.modulus. lia.
  - intros Hn.
    assert (Hsmall : forall k : N, (k < 4294967)%N ->
              nextTimestamp k = 1000 * (Z.of_N k + 1)).
    { intros k Hk. rewrite nextTimestamp_closed.
      apply U32Facts.wrap_small. unfold U32.in_range, U32.modulus. lia. }
    split; [apply Hsmall; exact Hn|].
    intros Hn'. rewrite !Hsmall by lia. lia.
Qed.

Lemma clock_advances_modulo_witness :
  (State.eval getCurrentTime booted <= 4294966295
   /\ State.eval getCurrentTime (State.exec getCurrentTime booted) = 3000)
  /\ ((5 < 4294967)%N /\ nextTimestamp 5 = 6000).
Proof.
  assert (H1 : State.eval getCurrentTime booted <= 4294966295)
    by (vm_compute; discriminate).
  assert (H2 : (5 < 4294967)%N) by reflexivity.
  split; split; try assumption.
  - exact (proj1 (proj1 (proj2 (proj2 (clock_advances_modulo booted 5))) H1)).
  - exact (proj1 (proj2 (proj2 (proj2 (proj2 (clock_advances_modulo booted 5)))) H2)).
Defined.

End TrafficLightProofs.

(** ** The RTOS tasks example *)

Module RtosProofs.

Import Rtos.

(** *** The bounded queue *)

Section QueueLaws.

Context {T : Type}.

Lemma isFull_spec (q : Queue T) :
  isFull q = true <-> (capacity q <= uxQueueMessagesWaiting q)%nat.
Proof. unfold isFull. apply Nat.leb_le. Qed.

Lemma xQueueSend_full (q : Queue T) (x : T) :
  isFull q = true -> xQueueSend q x = (errQUEUE_FULL, q).
Proof. unfold xQueueSend. intros ->. reflexivity. Qed.

Lemma xQueueSend_room (q : Queue T) (x : T) :
  isFull q = false ->
  xQueueSend q x = (pdTRUE, mkQueue (capacity q) (items q ++ [x])).
Proof. unfold xQueueSend. intros ->. reflexivity. Qed.

Lemma xQueueCreate_wellFormed n : wellFormed (xQueueCreate (T := T) n).
Proof. unfold wellFormed, uxQueueMessagesWaiting. cbn. lia. Qed.

Lemma xQueueSend_wellFormed (q : Queue T) (x : T) :
  wellFormed q -> wellFormed (snd (xQueueSend q x)).
Proof.
  unfold wellFormed, xQueueSend, uxQueueMessagesWaiting. intros H.
  destruct (isFull q) eqn:Hfull; cbn [snd capacity items]; [exact H|].
  unfold isFull, uxQueueMessagesWaiting in Hfull.
  apply Nat.leb_gt in Hfull. rewrite length_app. cbn. lia.
Qed.

Lemma xQueueReceive_wellFormed (q : Queue T) :
  wellFormed q -> wellFormed (snd (xQueueReceive q)).
Proof.
  unfold wellFormed, xQueueReceive, uxQueueMessagesWaiting. intros H.
  destruct (items q) as [|x rest] eqn:Hitems; cbn [snd capacity items].
  - rewrite Hitems. exact H.
  - cbn in H. lia.
Qed.

(** C2. A queue of capacity N holding N items answers a send with zero
    timeout by a queue-full failure and is left as it was; one receive then
    takes the oldest item out, and the send that follows succeeds, putting
    the new item behind the remaining ones. *)
Theorem full_queue_rejects_send (q : Queue T) (c : T) :
  (0 < capacity q)%nat ->
  uxQueueMessagesWaiting q = capacity q ->
  xQueueSend q c = (errQUEUE_FULL, q)
  /\ exists (x : T) (q' : Queue T),
       xQueueReceive q = (pdTRUE, Some x, q')
       /\ items q = x :: items q'
       /\ capacity q' = capacity q
       /\ xQueueSend q' c = (pdTRUE, mkQueue (capacity q) (items q' ++ [c])).
Proof.
  intros Hpos Hfull. split.
  - apply xQueueSend_full, isFull_spec. lia.
  - destruct q as [n l]. unfold uxQueueMessagesWaiting in Hfull. cbn in *.
    destruct l as [|x rest]; [cbn in Hfull; lia|].
    exists x, (mkQueue n rest). repeat split.
    apply xQueueSend_room. unfold isFull, uxQueueMessagesWaiting.
    cbn in *. apply Nat.leb_gt. lia.
Qed.

End QueueLaws.

(** Scenario B: capacity 2, items 1 and 2 in it. *)
Lemma full_queue_rejects_send_witness :
  let q := snd (xQueueSend (snd (xQueueSend (xQueueCreate 2) 1)) 2) in
  ((0 < capacity q)%nat /\ uxQueueMessagesWaiting q = capacity q)
  /\ xQueueSend q 3 = (errQUEUE_FULL, q).
Proof.
  cbv zeta.
  set (q := snd (xQueueSend (snd (xQueueSend (xQueueCreate 2) 1)) 2)).
  assert (H1 : (0 < capacity q)%nat) by (vm_compute; lia).
  assert (H2 : uxQueueMessagesWaiting q = capacity q) by reflexivity.
  split; [split; assumption|].
  exact (proj1 (full_queue_rejects_send q 3 H1 H2)).
Defined.

Example scenario_B :
  let q0 := xQueueCreate 2 in
  let '(r1, q1) := xQueueSend q0 1 in
  let '(r2, q2) := xQueueSend q1 2 in
  let '(r3, q3) := xQueueSend q2 3 in
  let '(r4, x, q4) := xQueueReceive q3 in
  let '(r5, q5) := xQueueSend q4 3 in
  [r1; r2; r3; r4; r5] = [pdTRUE; pdTRUE; errQUEUE_FULL; pdTRUE; pdTRUE]
  /\ q3 = q2 /\ x = Some 1 /\ items q5 = [2; 3].
Proof. vm_compute. repeat split. Qed.

(** The sensor task on a full queue: the failure is reported on the serial
    line and the queue keeps its contents. *)
Lemma sendSensorData_full (w : World) (q : Queue SensorData) (data : SensorData) :
  sensorDataQueue w = Some q ->
  isFull q = true ->
  State.eval (sendSensorData data) w = Some errQUEUE_FULL
  /\ sensorDataQueue (State.exec (sendSensorData data) w) = Some q
  /\ serial (State.exec (sendSensorData data) w)
     = (if serialMutexTaken w then serial w else serial w ++ [MsgSensorQueueFull]).
Proof.
  destruct w as [ss sq bq mt se ls uc]. cbn. intros -> Hfull.
  unfold sendSensorData, State.eval, State.exec, State.bind, State.get. cbn.
  rewrite (xQueueSend_full q data Hfull). cbn.
  destruct mt; cbn; repeat split.
Qed.

(** With the queue [setup] creates, the sixth reading sent without a receive
    in between is the first one refused. *)
Example sensor_queue_of_setup :
  let data := mkSensorData (S754_zero false) (S754_zero false) 0 0 in
  let send := State.bind (sendSensorData data) (fun _ => State.ret tt) in
  let w5 := State.exec (State.repeat_m 5 send) (State.exec setup initialWorld) in
  State.eval (sendSensorData data) w5 = Some errQUEUE_FULL
  /\ State.exec (sendSensorData data) w5
     = mkWorld (systemState w5) (sensorDataQueue w5) (buttonEventQueue w5)
               false [MsgSensorQueueFull] 0 0.
Proof. vm_compute. split; reflexivity. Qed.

(** *** The watchdog *)

Lemma sameCore_refl w : sameCore w w.
Proof. repeat split. Qed.

Lemma sameCore_trans w1 w2 w3 :
  sameCore w1 w2 -> sameCore w2 w3 -> sameCore w1 w3.
Proof.
  intros (A1 & A2 & A3 & A4 & A5) (B1 & B2 & B3 & B4 & B5).
  repeat split; congruence.
Qed.

Lemma safePrintln_core msg w : sameCore w (State.exec (safePrintln msg) w).
Proof.
  destruct w as [ss sq bq mt se ls uc]. destruct mt; repeat split.
Qed.

Lemma checkSensorTask_core env w :
  sameCore w (State.exec (checkSensorTask env) w).
Proof.
  unfold checkSensorTask.
  rewrite StateFacts.exec_bind. cbn [State.get State.eval State.exec fst snd].
  destruct (0 <? sensorSamples (systemState w)); [repeat split|].
  rewrite StateFacts.exec_bind. cbn [State.get State.eval State.exec fst snd].
  destruct (10000 <? U32.sub (millis env) (lastSensorTime w)).
  - rewrite StateFacts.exec_bind. apply safePrintln_core.
  - apply sameCore_refl.
Qed.

Lemma checkMemory_core env w : sameCore w (State.exec (checkMemory env) w).
Proof.
  unfold checkMemory. destruct (freeHeap env <? 10000).
  - rewrite StateFacts.exec_bind. apply safePrintln_core.
  - apply sameCore_refl.
Qed.

Lemma checkLedStack_core env w : sameCore w (State.exec (checkLedStack env) w).
Proof.
  unfold checkLedStack. destruct (ledStackHighWater env <? 100).
  - rewrite StateFacts.exec_bind. apply safePrintln_core.
  - apply sameCore_refl.
Qed.

Lemma systemHealthy_core env w : sameCore w (State.exec (systemHealthy env) w).
Proof.
  unfold systemHealthy. rewrite !StateFacts.exec_bind.
  eapply sameCore_trans; [apply checkSensorTask_core|].
  eapply sameCore_trans; [apply checkMemory_core|].
  eapply sameCore_trans; [apply checkLedStack_core|].
  apply sameCore_refl.
Qed.

Lemma systemHealthy_frame env w :
  let w1 := State.exec (systemHealthy env) w in
  unhealthyCount w1 = unhealthyCount w
  /\ systemState w1 = systemState w
  /\ sensorDataQueue w1 = sensorDataQueue w
  /\ buttonEventQueue w1 = buttonEventQueue w.
Proof.
  destruct (systemHealthy_core env w) as (H1 & H2 & H3 & H4 & _).
  repeat split; assumption.
Qed.

Lemma countUnhealthy_exec healthy w :
  let w' := State.exec (countUnhealthy healthy) w in
  unhealthyCount w' =
    (if healthy then 0
     else if 5 <? unhealthyCount w + 1 then 0 else unhealthyCount w + 1)
  /\ alarmActive (systemState w') =
    (if negb healthy && (5 <? unhealthyCount w + 1) then true
     else alarmActive (systemState w))
  /\ sensorDataQueue w' = sensorDataQueue w
  /\ buttonEventQueue w' = buttonEventQueue w.
Proof.
  destruct w as [ss sq bq mt se ls uc].
  unfold countUnhealthy, safePrintln, set_unhealthyCount, set_alarmActive,
    State.exec, State.bind, State.get, State.when, State.ret, State.modify.
  destruct healthy; cbn; [repeat split|].
  destruct (5 <? uc + 1), mt; cbn; repeat split.
Qed.

Lemma watchdogCheck_unfold env w :
  State.exec (watchdogCheck env) w =
  State.exec (countUnhealthy (State.eval (systemHealthy env) w))
    (State.exec (systemHealthy env) w).
Proof. apply StateFacts.exec_bind. Qed.

(** What one check does to the counter, the alarm flag and the queues. *)
Lemma watchdogCheck_exec env w :
  let healthy := State.eval (systemHealthy env) w in
  let w' := State.exec (watchdogCheck env) w in
  unhealthyCount w' =
    (if healthy then 0
     else if 5 <? unhealthyCount w + 1 then 0 else unhealthyCount w + 1)
  /\ alarmActive (systemState w') =
    (if negb healthy && (5 <? unhealthyCount w + 1) then true
     else alarmActive (systemState w))
  /\ sensorDataQueue w' = sensorDataQueue w
  /\ buttonEventQueue w' = buttonEventQueue w.
Proof.
  cbv zeta. rewrite watchdogCheck_unfold.
  destruct (systemHealthy_frame env w) as (Hc & Hs & Hq1 & Hq2).
  destruct (countUnhealthy_exec (State.eval (systemHealthy env) w)
              (State.exec (systemHealthy env) w)) as (Kc & Ka & Kq1 & Kq2).
  rewrite Kc, Ka, Kq1, Kq2, Hc, Hs, Hq1, Hq2. repeat split.
Qed.

(** What the three checks print, and that the system is healthy exactly
    when they have nothing to report. *)
Lemma systemHealthy_serial env w :
  serial (State.exec (systemHealthy env) w) =
    (if serialMutexTaken w then serial w else serial w ++ warnings env w)
  /\ State.eval (systemHealthy env) w =
    match warnings env w with [] => true | _ :: _ => false end.
Proof.
  destruct w as [ss sq bq mt se ls uc].
  unfold systemHealthy, checkSensorTask, checkMemory, checkLedStack,
    warnings, sensorSilent, safePrintln, set_lastSensorTime,
    State.exec, State.eval, State.bind, State.get, State.when, State.ret,
    State.modify.
  cbn.
  destruct (0 <? sensorSamples ss); cbn;
    [| destruct (10000 <? U32.sub (millis env) ls); cbn ];
    destruct (freeHeap env <? 10000); cbn;
    destruct (ledStackHighWater env <? 100); cbn;
    destruct mt; cbn; rewrite ?app_nil_r, <- ?app_assoc; split; reflexivity.
Qed.

Lemma countUnhealthy_serial healthy w :
  serial (State.exec (countUnhealthy healthy) w) =
    (if serialMutexTaken w then serial w
     else serial w ++
          (if negb healthy && (5 <? unhealthyCount w + 1)
           then [MsgSystemResetRequired] else [])).
Proof.
  destruct w as [ss sq bq mt se ls uc].
  unfold countUnhealthy, safePrintln, set_unhealthyCount, set_alarmActive,
    State.exec, State.bind, State.get, State.when, State.ret, State.modify.
  destruct healthy; cbn; [destruct mt; rewrite ?app_nil_r; reflexivity|].
  destruct (5 <? uc + 1), mt; cbn; rewrite ?app_nil_r; reflexivity.
Qed.

(** What one check prints: its warnings, then the reset line when the alarm
    is raised; nothing at all while the serial mutex is held elsewhere. *)
Lemma watchdogCheck_serial env w :
  serial (State.exec (watchdogCheck env) w) =
    (if serialMutexTaken w then serial w
     else serial w ++ warnings env w ++
          (if negb (State.eval (systemHealthy env) w)
              && (5 <? unhealthyCount w + 1)
           then [MsgSystemResetRequired] else [])).
Proof.
  rewrite watchdogCheck_unfold, countUnhealthy_serial.
  destruct (systemHealthy_core env w) as (Hc & _ & _ & _ & Hm).
  destruct (systemHealthy_serial env w) as [Hs _].
  rewrite Hm, Hc, Hs. destruct (serialMutexTaken w); [reflexivity|].
  now rewrite <- app_assoc.
Qed.

Lemma watchdogRun_cons env envs w :
  State.exec (watchdogRun (env :: envs)) w =
  State.exec (watchdogRun envs) (State.exec (watchdogCheck env) w).
Proof. cbn [watchdogRun]. apply StateFacts.exec_bind. Qed.

(** No run of checks changes a queue. *)
Lemma watchdogRun_queues envs w :
  sensorDataQueue (State.exec (watchdogRun envs) w) = sensorDataQueue w
  /\ buttonEventQueue (State.exec (watchdogRun envs) w) = buttonEventQueue w.
Proof.
  revert w. induction envs as [|env envs IH]; intros w; [split; reflexivity|].
  rewrite watchdogRun_cons.
  destruct (IH (State.exec (watchdogCheck env) w)) as [-> ->].
  destruct (watchdogCheck_exec env w) as (_ & _ & -> & ->). split; reflexivity.
Qed.

(** While the counter cannot pass five, the alarm flag is not touched and
    the counter does not pass five. *)
Lemma watchdogRun_below_threshold envs w :
  0 <= unhealthyCount w ->
  unhealthyCount w + Z.of_nat (length envs) <= 5 ->
  alarmActive (systemState (State.exec (watchdogRun envs) w))
  = alarmActive (systemState w)
  /\ 0 <= unhealthyCount (State.exec (watchdogRun envs) w)
       <= unhealthyCount w + Z.of_nat (length envs).
Proof.
  revert w. induction envs as [|env envs IH]; intros w H0 H5.
  - cbn in *. split; [reflexivity | lia].
  - rewrite watchdogRun_cons. cbn [length] in H5 |- *.
    destruct (watchdogCheck_exec env w) as (Hc & Ha & _).
    assert (Hlt : (5 <? unhealthyCount w + 1) = false) by (apply Z.ltb_ge; lia).
    rewrite Hlt in Hc, Ha. rewrite andb_false_r in Ha.
    destruct (IH (State.exec (watchdogCheck env) w)) as [IHa IHc].
    + rewrite Hc. destruct (State.eval (systemHealthy env) w); lia.
    + rewrite Hc. destruct (State.eval (systemHealthy env) w); lia.
    + rewrite IHa, Ha. split; [reflexivity|].
      rewrite Hc in IHc. destruct (State.eval (systemHealthy env) w); lia.
Qed.

(** Consecutive unhealthy checks count up as long as they stay within
    five. *)
Lemma watchdogRun_counts envs w :
  allUnhealthy envs w ->
  unhealthyCount w + Z.of_nat (length envs) <= 5 ->
  unhealthyCount (State.exec (watchdogRun envs) w)
  = unhealthyCount w + Z.of_nat (length envs).
Proof.
  revert w. induction envs as [|env envs IH]; intros w Hall H5.
  - cbn. lia.
  - rewrite watchdogRun_cons. cbn [length] in H5 |- *.
    destruct Hall as [Hbad Hall].
    destruct (watchdogCheck_exec env w) as (Hc & _).
    rewrite Hbad in Hc.
    assert (Hlt : (5 <? unhealthyCount w + 1) = false) by (apply Z.ltb_ge; lia).
    rewrite Hlt in Hc.
    rewrite IH; [rewrite Hc; lia | exact Hall | rewrite Hc; lia].
Qed.

Lemma watchdogRun_app envs1 envs2 w :
  State.exec (watchdogRun (envs1 ++ envs2)) w =
  State.exec (watchdogRun envs2) (State.exec (watchdogRun envs1) w).
Proof.
  revert w. induction envs1 as [|env envs1 IH]; intros w; [reflexivity|].
  rewrite <- app_comm_cons, !watchdogRun_cons. apply IH.
Qed.

Lemma allUnhealthy_app envs1 envs2 w :
  allUnhealthy (envs1 ++ envs2) w <->
  allUnhealthy envs1 w /\ allUnhealthy envs2 (State.exec (watchdogRun envs1) w).
Proof.
  revert w. induction envs1 as [|env envs1 IH]; intros w.
  - cbn. tauto.
  - rewrite <- app_comm_cons, watchdogRun_cons. cbn [allUnhealthy].
    rewrite IH. tauto.
Qed.

(** C7, as stated, fails on the event and on the count.  The sixth
    consecutive unhealthy check sets the alarm flag, yet nothing was sent:
    both queues are as [setup] created them, and the only output is on the
    serial line; and the counter is back at zero instead of at six. *)
Lemma watchdog_alarm_without_event :
  let w5 := State.exec (watchdogRun (repeat lowMemory 5)) afterSetup in
  let w6 := State.exec (watchdogCheck lowMemory) w5 in
  (unhealthyCount w5 = 5 /\ alarmActive (systemState w5) = false)
  /\ State.eval (systemHealthy lowMemory) w5 = false
  /\ alarmActive (systemState w6) = true
  /\ sensorDataQueue w6 = Some (xQueueCreate 5)
  /\ buttonEventQueue w6 = Some (xQueueCreate 3)
  /\ serial w6 = repeat MsgLowMemory 6 ++ [MsgSystemResetRequired]
  /\ unhealthyCount w6 = 0.
Proof. vm_compute. repeat split. Qed.

(** With the serial mutex held elsewhere, the sixth unhealthy check in a
    row raises the alarm and prints nothing. *)
Example watchdog_alarm_unannounced :
  let held :=
    mkWorld (systemState afterSetup) (sensorDataQueue afterSetup)
            (buttonEventQueue afterSetup) true [] (lastSensorTime afterSetup)
            5 in
  let w' := State.exec (watchdogCheck lowMemory) held in
  alarmActive (systemState w') = true
  /\ serial w' = []
  /\ unhealthyCount w' = 0.
Proof. vm_compute. repeat split. Qed.

(** C7, amended. A healthy check sets the count of consecutive unhealthy
    checks to zero; an unhealthy one adds one to it and, if the result
    exceeds 5, sets [systemState.alarmActive] and puts the count back to
    zero.  The check changes the flag in no other case: it stays as it was
    through any run of checks that cannot bring the count above 5, and it is
    set by the sixth of six consecutive unhealthy checks counted from zero.
    The lines of a check are printed by [safePrintln], so only with the
    serial mutex free: then the check prints the warnings of its failed
    health checks and, when it sets the flag, the reset-required line after
    them; with the mutex held elsewhere it prints nothing and counts and
    sets the flag all the same.  No check sends anything to a queue. *)
Theorem watchdog_alarm_on_sixth_unhealthy_check
    (env : Readings) (envs : list Readings) (w : World) :
  let healthy := State.eval (systemHealthy env) w in
  let w' := State.exec (watchdogCheck env) w in
  unhealthyCount w' =
    (if healthy then 0
     else if 5 <? unhealthyCount w + 1 then 0 else unhealthyCount w + 1)
  /\ alarmActive (systemState w') =
    (if negb healthy && (5 <? unhealthyCount w + 1) then true
     else alarmActive (systemState w))
  /\ serial w' =
    (if serialMutexTaken w then serial w
     else serial w ++ warnings env w ++
          (if negb healthy && (5 <? unhealthyCount w + 1)
           then [MsgSystemResetRequired] else []))
  /\ (sensorDataQueue (State.exec (watchdogRun envs) w) = sensorDataQueue w
      /\ buttonEventQueue (State.exec (watchdogRun envs) w) = buttonEventQueue w)
  /\ (0 <= unhealthyCount w ->
      unhealthyCount w + Z.of_nat (length envs) <= 5 ->
      alarmActive (systemState (State.exec (watchdogRun envs) w))
      = alarmActive (systemState w))
  /\ (unhealthyCount w = 0 ->
      length envs = 6%nat ->
      allUnhealthy envs w ->
      alarmActive (systemState (State.exec (watchdogRun envs) w)) = true
      /\ unhealthyCount (State.exec (watchdogRun envs) w) = 0).
Proof.
  cbv zeta.
  destruct (watchdogCheck_exec env w) as (Hc & Ha & _).
  split; [exact Hc|]. split; [exact Ha|].
  split; [apply watchdogCheck_serial|].
  split; [apply watchdogRun_queues|]. split.
  - intros H0 H5. apply watchdogRun_below_threshold; assumption.
  - intros H0 Hlen Hall.
    destruct (exists_last (l := envs)) as (first & last & ->);
      [intros ->; discriminate|].
    rewrite length_app in Hlen. cbn in Hlen.
    apply allUnhealthy_app in Hall. destruct Hall as [Hfirst [Hlast _]].
    rewrite watchdogRun_app, watchdogRun_cons.
    change (State.exec (watchdogRun []) ?x) with x.
    assert (Hcount : unhealthyCount (State.exec (watchdogRun first) w) = 5).
    { rewrite watchdogRun_counts; [lia | exact Hfirst | lia]. }
    destruct (watchdogCheck_exec last (State.exec (watchdogRun first) w))
      as (Kc & Ka & _).
    rewrite Hlast, Hcount in Kc, Ka. split; assumption.
Qed.

Lemma watchdog_alarm_on_sixth_unhealthy_check_witness :
  (unhealthyCount afterSetup = 0
   /\ length (repeat lowMemory 6) = 6%nat
   /\ allUnhealthy (repeat lowMemory 6) afterSetup)
  /\ alarmActive
       (systemState (State.exec (watchdogRun (repeat lowMemory 6)) afterSetup))
     = true
  /\ alarmActive
       (systemState (State.exec (watchdogRun (repeat lowMemory 5)) afterSetup))
     = false.
Proof.
  assert (H0 : unhealthyCount afterSetup = 0) by reflexivity.
  assert (Hlen : length (repeat lowMemory 6) = 6%nat) by reflexivity.
  assert (Hall : allUnhealthy (repeat lowMemory 6) afterSetup)
    by (vm_compute; repeat split).
  assert (H0' : 0 <= unhealthyCount afterSetup) by (vm_compute; discriminate).
  assert (H5 : unhealthyCount afterSetup
               + Z.of_nat (length (repeat lowMemory 5)) <= 5)
    by (vm_compute; discriminate).
  split; [repeat split; assumption|]. split.
  - exact (proj1 (proj2 (proj2 (proj2 (proj2 (proj2
             (watchdog_alarm_on_sixth_unhealthy_check
                lowMemory (repeat lowMemory 6) afterSetup))))) H0 Hlen Hall)).
  - exact (proj1 (proj2 (proj2 (proj2 (proj2
             (watchdog_alarm_on_sixth_unhealthy_check
                lowMemory (repeat lowMemory 5) afterSetup))))) H0' H5).
Defined.

End RtosProofs.

(** ** The scheduler of the tasks *)

Module SchedulerProofs.

Import Scheduler.

(** *** Task states *)

Lemma isReady_spec (t : Task) : isReady t = true <-> state t = Ready.
Proof. unfold isReady. destruct (state t); split; congruence. Qed.

Lemma setState_length h st ts : length (setState h st ts) = length ts.
Proof.
  revert h. induction ts as [|t ts IH]; intros [|h]; cbn; congruence.
Qed.

Lemma setState_same h st ts :
  nth_error (setState h st ts) h
  = option_map (fun t => mkTask (priority t) st) (nth_error ts h).
Proof.
  revert h. induction ts as [|t ts IH]; intros [|h]; cbn; auto.
Qed.

Lemma setState_other h k st ts :
  k <> h -> nth_error (setState h st ts) k = nth_error ts k.
Proof.
  revert h k. induction ts as [|t ts IH]; intros [|h] [|k] Hne; cbn;
    try reflexivity; try congruence.
  apply IH. congruence.
Qed.

Lemma setState_priorityOf h st ts k :
  priorityOf (setState h st ts) k = priorityOf ts k.
Proof.
  unfold priorityOf. destruct (Nat.eq_dec k h) as [->|Hne].
  - rewrite setState_same. destruct (nth_error ts h); reflexivity.
  - rewrite setState_other by exact Hne. reflexivity.
Qed.

Lemma setState_twice h st1 st2 ts :
  setState h st2 (setState h st1 ts) = setState h st2 ts.
Proof.
  revert h. induction ts as [|t ts IH]; intros [|h]; cbn; try reflexivity.
  now rewrite IH.
Qed.

Lemma setState_stateOf_same h st ts t :
  nth_error ts h = Some t -> stateOf (setState h st ts) h = Some st.
Proof. intros H. unfold stateOf. rewrite setState_same, H. reflexivity. Qed.

Lemma setState_stateOf_other h k st ts :
  k <> h -> stateOf (setState h st ts) k = stateOf ts k.
Proof. intros H. unfold stateOf. now rewrite setState_other. Qed.

(** Blocking a task takes it, and nothing else, out of the Ready tasks. *)
Lemma readyAt_block h ts k :
  readyAt (setState h Blocked ts) k <-> readyAt ts k /\ k <> h.
Proof.
  unfold readyAt. destruct (Nat.eq_dec k h) as [->|Hne].
  - rewrite setState_same. split.
    + intros (t & Ht & Hs). destruct (nth_error ts h); [|discriminate].
      cbn in Ht. injection Ht as <-. discriminate.
    + intros [_ Hne]. congruence.
  - rewrite setState_other by exact Hne. tauto.
Qed.

Lemma readyCount_block h ts :
  readyAt ts h -> S (readyCount (setState h Blocked ts)) = readyCount ts.
Proof.
  unfold readyAt, readyCount. revert h.
  induction ts as [|t ts IH]; intros [|h] (u & Hu & Hs); cbn in *;
    try discriminate.
  - injection Hu as ->. apply isReady_spec in Hs. rewrite Hs.
    unfold isReady at 1. reflexivity.
  - destruct (isReady t); cbn; rewrite <- (IH h); eauto.
Qed.

Lemma readyCount_zero ts k : readyCount ts = 0%nat -> ~ readyAt ts k.
Proof.
  unfold readyAt, readyCount. revert k.
  induction ts as [|t ts IH]; intros [|k] H0 (u & Hu & Hs); cbn in *;
    try discriminate.
  - injection Hu as ->. apply isReady_spec in Hs. rewrite Hs in H0.
    discriminate.
  - destruct (isReady t); [discriminate|]. apply (IH k H0). eauto.
Qed.

Lemma readyCount_le_length ts : (readyCount ts <= length ts)%nat.
Proof.
  unfold readyCount. induction ts as [|t ts IH]; cbn; [lia|].
  destruct (isReady t); cbn; lia.
Qed.

(** *** The scheduling decision *)

(** The invariant of the scan: either no task of the list replaces the
    candidate, none of them being more urgent than it, or the result is the
    first task of the list of the highest priority, which is more urgent
    than the candidate. *)
Lemma scan_spec ts : forall off best,
  (scan off ts best = best
   /\ forall i t, nth_error ts i = Some t -> isReady t = true ->
        match best with
        | None => False
        | Some (_, pb) => priority t <= pb
        end)
  \/ (exists i t,
        scan off ts best = Some ((off + i)%nat, priority t)
        /\ nth_error ts i = Some t /\ isReady t = true
        /\ match best with
           | None => True
           | Some (_, pb) => pb < priority t
           end
        /\ forall j u, nth_error ts j = Some u -> isReady u = true ->
             priority u < priority t
             \/ (priority u = priority t /\ (i <= j)%nat)).
Proof.
  induction ts as [|t ts IH]; intros off best; cbn [scan].
  - left. split; [reflexivity|]. intros [|i] u H; discriminate.
  - destruct (replaces t best) eqn:Hrep; unfold replaces in Hrep.
    + apply andb_true_iff in Hrep. destruct Hrep as [Hready Hbest].
      destruct (IH (S off) (Some (off, priority t)))
        as [[Heq Hall] | (i & u & Heq & Hu & Hr & Hlt & Hall)].
      * right. exists 0%nat, t. rewrite Heq, Nat.add_0_r.
        repeat split; try assumption.
        { destruct best as [[hb pb]|]; [apply Z.ltb_lt; exact Hbest | exact I]. }
        intros [|j] v Hv Hrv; cbn in Hv.
        { injection Hv as <-. right. split; [reflexivity | lia]. }
        { specialize (Hall j v Hv Hrv). cbn in Hall.
          assert (priority v < priority t \/ priority v = priority t) as [|]
            by lia; [left; assumption | right; split; [assumption | lia]]. }
      * right. exists (S i), u. rewrite Heq.
        replace (S off + i)%nat with (off + S i)%nat by lia.
        repeat split; try assumption.
        { destruct best as [[hb pb]|]; [|exact I].
          apply Z.ltb_lt in Hbest. lia. }
        intros [|j] v Hv Hrv; cbn in Hv.
        { injection Hv as <-. left. exact Hlt. }
        { destruct (Hall j v Hv Hrv) as [|[? ?]];
            [left; assumption | right; split; [assumption | lia]]. }
    + assert (Hnot : isReady t = true ->
                     match best with
                     | None => False
                     | Some (_, pb) => priority t <= pb
                     end).
      { intros Hr. rewrite Hr in Hrep. cbn in Hrep.
        destruct best as [[hb pb]|]; [|discriminate].
        apply Z.ltb_ge in Hrep. exact Hrep. }
      destruct (IH (S off) best)
        as [[Heq Hall] | (i & u & Heq & Hu & Hr & Hlt & Hall)].
      * left. split; [exact Heq|].
        intros [|i] v Hv Hrv; cbn in Hv.
        { injection Hv as <-. exact (Hnot Hrv). }
        { exact (Hall i v Hv Hrv). }
      * right. exists (S i), u. rewrite Heq.
        replace (S off + i)%nat with (off + S i)%nat by lia.
        repeat split; try assumption.
        intros [|j] v Hv Hrv; cbn in Hv.
        { injection Hv as <-. specialize (Hnot Hrv).
          destruct best as [[hb pb]|]; [left; lia | contradiction]. }
        { destruct (Hall j v Hv Hrv) as [|[? ?]];
            [left; assumption | right; split; [assumption | lia]]. }
Qed.

(** The selected task is Ready, no Ready task is more urgent, and no Ready
    task as urgent was registered before it. *)
Lemma select_some ts h :
  select ts = Some h ->
  readyAt ts h
  /\ forall k, readyAt ts k ->
       priorityOf ts k < priorityOf ts h
       \/ (priorityOf ts k = priorityOf ts h /\ (h <= k)%nat).
Proof.
  unfold select.
  destruct (scan_spec ts 0%nat None)
    as [[Heq _] | (i & t & Heq & Ht & Hr & _ & Hall)]; rewrite Heq;
    [discriminate|].
  cbn. intros [= <-]. split.
  - exists t. split; [exact Ht | apply isReady_spec; exact Hr].
  - intros k (u & Hu & Hs). unfold priorityOf. rewrite Hu, Ht.
    apply (Hall k u Hu). apply isReady_spec. exact Hs.
Qed.

(** No task is selected exactly when no task is Ready. *)
Lemma select_none ts : select ts = None <-> forall k, ~ readyAt ts k.
Proof.
  unfold select.
  destruct (scan_spec ts 0%nat None)
    as [[Heq Hall] | (i & t & Heq & Ht & Hr & _)]; rewrite Heq; cbn.
  - split; [|reflexivity]. intros _ k (u & Hu & Hs).
    apply (Hall k u Hu). apply isReady_spec. exact Hs.
  - split; [discriminate|]. intros Hno. exfalso. apply (Hno i).
    exists t. split; [exact Ht | apply isReady_spec; exact Hr].
Qed.

Lemma select_ready ts k : readyAt ts k -> exists h, select ts = Some h.
Proof.
  intros Hk. destruct (select ts) as [h|] eqn:Hsel; [eauto|].
  exfalso. exact (proj1 (select_none ts) Hsel k Hk).
Qed.

(** *** Runs *)

Lemma before_block h ts a b : before (setState h Blocked ts) a b <-> before ts a b.
Proof. unfold before. rewrite !setState_priorityOf. tauto. Qed.

Lemma StronglySorted_ext {A : Type} (R R' : A -> A -> Prop) l :
  (forall a b, R a b -> R' a b) -> StronglySorted R l -> StronglySorted R' l.
Proof.
  intros H. induction 1 as [|a l Hs IH Hall]; constructor; [exact IH|].
  eapply Forall_impl; [|exact Hall]. intros b. apply H.
Qed.

Lemma runOrder_step fuel ts h :
  select ts = Some h ->
  runOrder (S fuel) ts =
    (h :: fst (runOrder fuel (setState h Blocked ts)),
     snd (runOrder fuel (setState h Blocked ts))).
Proof.
  intros Hsel. cbn [runOrder]. unfold dispatch, block. rewrite Hsel.
  rewrite setState_twice.
  destruct (runOrder fuel (setState h Blocked ts)); reflexivity.
Qed.

Lemma runOrder_idle fuel ts : select ts = None -> runOrder fuel ts = ([], ts).
Proof.
  intros Hsel. destruct fuel; [reflexivity|].
  cbn [runOrder]. unfold dispatch. now rewrite Hsel.
Qed.

(** Only Ready tasks run, in the order of [before]. *)
Lemma runOrder_sorted fuel : forall ts,
  (forall k, In k (fst (runOrder fuel ts)) -> readyAt ts k)
  /\ StronglySorted (before ts) (fst (runOrder fuel ts)).
Proof.
  induction fuel as [|fuel IH]; intros ts.
  - cbn. split; [contradiction | constructor].
  - destruct (select ts) as [h|] eqn:Hsel.
    + rewrite (runOrder_step fuel ts h Hsel). cbn [fst].
      destruct (IH (setState h Blocked ts)) as [Hin Hsorted].
      destruct (select_some ts h Hsel) as [Hh Hmax].
      split.
      * intros k [<-|Hk]; [exact Hh|].
        apply Hin in Hk. apply readyAt_block in Hk. tauto.
      * constructor.
        { eapply StronglySorted_ext; [|exact Hsorted].
          intros a b. apply before_block. }
        apply Forall_forall. intros k Hk.
        apply Hin in Hk. apply readyAt_block in Hk. destruct Hk as [Hk Hne].
        unfold before. destruct (Hmax k Hk) as [|[? ?]];
          [left; assumption | right; split; [assumption | lia]].
    + rewrite (runOrder_idle (S fuel) ts Hsel). cbn.
      split; [contradiction | constructor].
Qed.

(** With fuel for every Ready task, each of them runs and the run ends
    idle. *)
Lemma runOrder_complete fuel : forall ts,
  (readyCount ts <= fuel)%nat ->
  (forall k, readyAt ts k -> In k (fst (runOrder fuel ts)))
  /\ select (snd (runOrder fuel ts)) = None.
Proof.
  induction fuel as [|fuel IH]; intros ts Hfuel.
  - assert (H0 : readyCount ts = 0%nat) by lia. cbn.
    split.
    + intros k Hk. exact (readyCount_zero ts k H0 Hk).
    + apply select_none. intros k. apply readyCount_zero. exact H0.
  - destruct (select ts) as [h|] eqn:Hsel.
    + rewrite (runOrder_step fuel ts h Hsel). cbn [fst snd].
      destruct (select_some ts h Hsel) as [Hh _].
      pose proof (readyCount_block h ts Hh) as Hcount.
      destruct (IH (setState h Blocked ts)) as [Hin Hidle]; [lia|].
      split; [|exact Hidle].
      intros k Hk. destruct (Nat.eq_dec k h) as [->|Hne]; [left; reflexivity|].
      right. apply Hin. apply readyAt_block. split; assumption.
    + rewrite (runOrder_idle (S fuel) ts Hsel). cbn [fst snd].
      split; [|exact Hsel].
      intros k Hk. exfalso. exact (proj1 (select_none ts) Hsel k Hk).
Qed.

(** The tasks that ran are Blocked at the end; the others are as they
    were. *)
Lemma runOrder_states fuel : forall ts k,
  stateOf (snd (runOrder fuel ts)) k
  = if in_dec Nat.eq_dec k (fst (runOrder fuel ts))
    then Some Blocked else stateOf ts k.
Proof.
  induction fuel as [|fuel IH]; intros ts k.
  - reflexivity.
  - destruct (select ts) as [h|] eqn:Hsel.
    + rewrite (runOrder_step fuel ts h Hsel). cbn [fst snd].
      rewrite IH.
      destruct (select_some ts h Hsel) as [(t & Ht & _) _].
      destruct (in_dec Nat.eq_dec k (fst (runOrder fuel (setState h Blocked ts))))
        as [Hin|Hin];
        destruct (in_dec Nat.eq_dec k
                    (h :: fst (runOrder fuel (setState h Blocked ts))))
        as [Hin'|Hin']; try reflexivity.
      * exfalso. apply Hin'. right. exact Hin.
      * destruct Hin' as [<-|Hin']; [|contradiction].
        exact (setState_stateOf_same h Blocked ts t Ht).
      * apply setState_stateOf_other. intros ->. apply Hin'. left. reflexivity.
    + rewrite (runOrder_idle (S fuel) ts Hsel). reflexivity.
Qed.

(** *** Registration *)

Lemma registerAll_periodic priorities : forall s,
  (length (tasks s) + length priorities <= maxTasks s)%nat ->
  registerAll (map (fun p => (p, Periodic)) priorities) s
  = inr (mkTaskSet (maxTasks s) (tasks s ++ allReady priorities)).
Proof.
  induction priorities as [|p ps IH]; intros [n ts] Hroom;
    cbn [map registerAll length tasks maxTasks allReady] in *.
  - now rewrite app_nil_r.
  - unfold register_task. cbn [tasks maxTasks initialState].
    destruct (Nat.ltb_spec (length ts) n) as [_|Hge]; [|lia].
    rewrite IH; cbn [tasks maxTasks]; [|rewrite length_app; cbn; lia].
    now rewrite <- app_assoc.
Qed.

Lemma register_task_full prio wake s :
  (maxTasks s <= length (tasks s))%nat ->
  register_task prio wake s = inl CapacityExceeded.
Proof.
  intros Hfull. unfold register_task.
  destruct (Nat.ltb_spec (length (tasks s)) (maxTasks s)); [lia | reflexivity].
Qed.

(** *** Preemption *)

Lemma preemptionPoint_higher r ts k :
  stateOf ts r = Some Running ->
  readyAt ts k ->
  priorityOf ts r < priorityOf ts k ->
  exists h,
    preemptionPoint r ts = (h, setState h Running (setState r Ready ts))
    /\ select ts = Some h
    /\ h <> r
    /\ priorityOf ts k <= priorityOf ts h
    /\ stateOf (snd (preemptionPoint r ts)) h = Some Running
    /\ stateOf (snd (preemptionPoint r ts)) r = Some Ready.
Proof.
  intros Hr Hk Hlt.
  destruct (select_ready ts k Hk) as [h Hsel].
  destruct (select_some ts h Hsel) as [(t & Ht & Hs) Hmax].
  assert (Hle : priorityOf ts k <= priorityOf ts h)
    by (destruct (Hmax k Hk) as [|[? ?]]; lia).
  assert (Hne : h <> r).
  { intros ->. unfold stateOf in Hr. rewrite Ht in Hr. cbn in Hr. congruence. }
  exists h. unfold preemptionPoint. rewrite Hsel.
  destruct (Z.ltb_spec (priorityOf ts r) (priorityOf ts h)) as [_|Hge]; [|lia].
  cbn [snd]. repeat split; try assumption.
  - apply (setState_stateOf_same h Running _ t).
    rewrite setState_other by exact Hne. exact Ht.
  - rewrite setState_stateOf_other by congruence.
    unfold stateOf in Hr. destruct (nth_error ts r) as [u|] eqn:Hu;
      [|discriminate].
    exact (setState_stateOf_same r Ready ts u Hu).
Qed.

Lemma preemptionPoint_not_higher r ts :
  (forall k, readyAt ts k -> priorityOf ts k <= priorityOf ts r) ->
  preemptionPoint r ts = (r, ts).
Proof.
  intros Hall. unfold preemptionPoint.
  destruct (select ts) as [h|] eqn:Hsel; [|reflexivity].
  destruct (select_some ts h Hsel) as [Hh _]. specialize (Hall h Hh).
  destruct (Z.ltb_spec (priorityOf ts r) (priorityOf ts h)); [lia | reflexivity].
Qed.

(** *** The tasks of [setup] *)

(** With all five tasks of [setup] Ready, the watchdog runs first, then the
    button handler, the sensor task, the LED task and the display task: the
    last two have priority 1, and the LED task was created first. *)
Example setupTasks_run_order :
  fst (runUntilIdle setupTasks) = [4; 2; 1; 0; 3]%nat
  /\ map (priorityOf setupTasks) (fst (runUntilIdle setupTasks))
     = [4; 3; 2; 1; 1].
Proof. split; reflexivity. Qed.

(** A task table with room for five takes the five tasks of [setup] and
    refuses a sixth. *)
Example setupTasks_registered :
  registerAll (map (fun p => (p, Periodic)) Rtos.taskPriorities) (newTaskSet 5)
  = inr (mkTaskSet 5 setupTasks)
  /\ register_task 1 Periodic (mkTaskSet 5 setupTasks) = inl CapacityExceeded.
Proof. split; reflexivity. Qed.

(** *** Priority order *)

(** C9. Three tasks of priorities 1, 2 and 3, registered in any order and
    all Ready, run in the order 3, 2, 1 when each blocks in turn.  In
    general the scheduling decision selects a Ready task than which no Ready
    task is more urgent and, among the Ready tasks as urgent, the one
    registered first; a run in which each selected task blocks in turn runs
    every Ready task exactly once, more urgent tasks first and equally
    urgent ones in registration order, and ends with no task Ready.  At a
    preemption point a Ready task of strictly higher priority than the
    running task takes over, the running task going back to Ready; when no
    Ready task is strictly more urgent the running task keeps the
    processor. *)
Theorem ready_tasks_run_in_priority_order
    (priorities : list Z) (ts : list Task) (r k : TaskHandle) :
  (Permutation priorities [1; 2; 3] ->
   map (priorityOf (allReady priorities))
       (fst (runUntilIdle (allReady priorities))) = [3; 2; 1])
  /\ (forall h, select ts = Some h ->
        readyAt ts h
        /\ forall j, readyAt ts j ->
             priorityOf ts j < priorityOf ts h
             \/ (priorityOf ts j = priorityOf ts h /\ (h <= j)%nat))
  /\ ((forall h, In h (fst (runUntilIdle ts)) <-> readyAt ts h)
      /\ StronglySorted (before ts) (fst (runUntilIdle ts))
      /\ select (snd (runUntilIdle ts)) = None)
  /\ (stateOf ts r = Some Running ->
      readyAt ts k ->
      priorityOf ts r < priorityOf ts k ->
      select ts = Some (fst (preemptionPoint r ts))
      /\ fst (preemptionPoint r ts) <> r
      /\ priorityOf ts k <= priorityOf ts (fst (preemptionPoint r ts))
      /\ stateOf (snd (preemptionPoint r ts)) (fst (preemptionPoint r ts))
         = Some Running
      /\ stateOf (snd (preemptionPoint r ts)) r = Some Ready)
  /\ ((forall j, readyAt ts j -> priorityOf ts j <= priorityOf ts r) ->
      preemptionPoint r ts = (r, ts)).
Proof.
  split; [|split; [|split; [|split]]].
  - intros Hperm.
    pose proof (Permutation_length Hperm) as Hlen.
    pose proof (Permutation_in 1 (Permutation_sym Hperm)) as H1.
    pose proof (Permutation_in 2 (Permutation_sym Hperm)) as H2.
    pose proof (Permutation_in 3 (Permutation_sym Hperm)) as H3.
    destruct priorities as [|a [|b [|c [|d rest]]]]; try discriminate Hlen.
    cbn in H1, H2, H3.
    assert (K1 : a = 1 \/ b = 1 \/ c = 1) by (clear - H1; intuition congruence).
    assert (K2 : a = 2 \/ b = 2 \/ c = 2) by (clear - H2; intuition congruence).
    assert (K3 : a = 3 \/ b = 3 \/ c = 3) by (clear - H3; intuition congruence).
    clear - K1 K2 K3.
    destruct K1 as [-> | [-> | ->]]; destruct K2 as [K2|[K2|K2]];
      try discriminate K2; subst;
      destruct K3 as [K3|[K3|K3]]; try discriminate K3; subst; reflexivity.
  - apply select_some.
  - unfold runUntilIdle.
    destruct (runOrder_sorted (length ts) ts) as [Hin Hsorted].
    destruct (runOrder_complete (length ts) ts (readyCount_le_length ts))
      as [Hall Hidle].
    repeat split; auto.
  - intros Hr Hk Hlt.
    destruct (preemptionPoint_higher r ts k Hr Hk Hlt)
      as (h & Heq & Hsel & Hne & Hle & Hrun & Hready).
    rewrite Heq in *. cbn [fst snd] in *. repeat split; assumption.
  - apply preemptionPoint_not_higher.
Qed.

Lemma ready_tasks_run_in_priority_order_witness :
  let waiting := [mkTask 1 Running; mkTask 3 Ready; mkTask 2 Ready] in
  let equal := [mkTask 2 Running; mkTask 2 Ready; mkTask 1 Ready] in
  (Permutation [2; 3; 1] [1; 2; 3]
   /\ select (allReady [2; 3; 1]) = Some 1%nat
   /\ stateOf waiting 0%nat = Some Running
   /\ readyAt waiting 2%nat
   /\ priorityOf waiting 0%nat < priorityOf waiting 2%nat
   /\ (forall j, readyAt equal j -> priorityOf equal j <= priorityOf equal 0%nat))
  /\ map (priorityOf (allReady [2; 3; 1]))
         (fst (runUntilIdle (allReady [2; 3; 1]))) = [3; 2; 1]
  /\ readyAt (allReady [2; 3; 1]) 1%nat
  /\ stateOf (snd (preemptionPoint 0%nat waiting)) 0%nat = Some Ready
  /\ preemptionPoint 0%nat equal = (0%nat, equal).
Proof.
  intros waiting equal.
  assert (Hperm : Permutation [2; 3; 1] [1; 2; 3]).
  { apply perm_trans with (l' := [2; 1; 3]).
    - apply perm_skip. apply perm_swap.
    - apply perm_swap. }
  assert (Hsel : select (allReady [2; 3; 1]) = Some 1%nat) by reflexivity.
  assert (Hrun : stateOf waiting 0%nat = Some Running) by reflexivity.
  assert (Hk : readyAt waiting 2%nat)
    by (exists (mkTask 2 Ready); split; reflexivity).
  assert (Hlt : priorityOf waiting 0%nat < priorityOf waiting 2%nat) by reflexivity.
  assert (Hle : forall j, readyAt equal j ->
                  priorityOf equal j <= priorityOf equal 0%nat).
  { intros [|[|[|j]]] (t & Ht & Hs); vm_compute in Ht |- *;
      try discriminate; try (injection Ht as <-; discriminate).
    destruct j; discriminate. }
  split; [repeat split; assumption|].
  split; [|split; [|split]].
  - exact (proj1 (ready_tasks_run_in_priority_order
                    [2; 3; 1] waiting 0%nat 2%nat) Hperm).
  - exact (proj1 (proj1 (proj2 (ready_tasks_run_in_priority_order
                    [2; 3; 1] (allReady [2; 3; 1]) 0%nat 2%nat))
                    1%nat Hsel)).
  - exact (proj2 (proj2 (proj2 (proj2 (proj1 (proj2 (proj2 (proj2
             (ready_tasks_run_in_priority_order
                [2; 3; 1] waiting 0%nat 2%nat)))) Hrun Hk Hlt))))).
  - exact (proj2 (proj2 (proj2 (proj2
             (ready_tasks_run_in_priority_order
                [2; 3; 1] equal 0%nat 0%nat)))) Hle).
Defined.

End SchedulerProofs.

(** ** The hardware-timer example *)

Module HwTimerProofs.

Import HwTimer.

(** *** The order of [<] on floats

    The comparison of the IEEE specification is used as it stands; a NaN
    compares false with everything. *)

Lemma f32_lt_irrefl (x : float) : f32_lt x x = false.
Proof.
  unfold f32_lt, SFltb.
  destruct x as [[]|[]| |[] m e]; cbn; try reflexivity;
    rewrite Z.compare_refl;
    change (Pos.compare_cont Eq m m) with (Pos.compare m m);
    rewrite Pos.compare_refl; reflexivity.
Qed.

Ltac order_cases :=
  repeat match goal with
  | H : context [Z.compare ?a ?b] |- _ => destruct (Z.compare_spec a b)
  | |- context [Z.compare ?a ?b] => destruct (Z.compare_spec a b)
  | H : context [Pos.compare ?a ?b] |- _ => destruct (Pos.compare_spec a b)
  | |- context [Pos.compare ?a ?b] => destruct (Pos.compare_spec a b)
  end.

Lemma f32_lt_trans (x y z : float) :
  f32_lt x y = true -> f32_lt y z = true -> f32_lt x z = true.
Proof.
  unfold f32_lt, SFltb.
  destruct x as [[]|[]| |[] mx ex], y as [[]|[]| |[] my ey],
           z as [[]|[]| |[] mz ez];
    cbn; try congruence;
    change (Pos.compare_cont Eq) with Pos.compare;
    intros Hxy Hyz; order_cases; subst; cbn in *;
    try congruence; try lia.
Qed.

(** Below no lower bound: what is not below [m] is not below anything
    smaller than [m]. *)
Lemma not_lt_lower (v m m' : float) :
  f32_lt v m = false -> f32_lt m' m = true -> f32_lt v m' = false.
Proof.
  intros Hvm Hm'. destruct (f32_lt v m') eqn:Hvm'; [|reflexivity].
  rewrite (f32_lt_trans v m' m Hvm' Hm') in Hvm. discriminate.
Qed.

Lemma not_gt_higher (v m m' : float) :
  f32_lt m v = false -> f32_lt m m' = true -> f32_lt m' v = false.
Proof.
  intros Hmv Hm'. destruct (f32_lt m' v) eqn:Hm'v; [|reflexivity].
  rewrite (f32_lt_trans m m' v Hm' Hm'v) in Hmv. discriminate.
Qed.

(** Away from NaN, not being above is being below or equal. *)
Lemma f32_le_of_not_lt (x y : float) :
  x <> S754_nan -> y <> S754_nan -> f32_lt y x = false -> f32_le x y = true.
Proof.
  unfold f32_lt, f32_le, SFltb, SFleb.
  destruct x as [[]|[]| |[] mx ex], y as [[]|[]| |[] my ey];
    cbn; try congruence;
    change (Pos.compare_cont Eq) with Pos.compare;
    intros _ _ H; order_cases; subst; cbn in *; try congruence; try lia.
Qed.

(** *** The loop *)

Lemma statsLoop_sum readings idxs acc :
  acc_sum (fold_left (statsStep readings) idxs acc)
  = sumFrom (acc_sum acc) (visited readings idxs).
Proof.
  revert acc. induction idxs as [|i idxs IH]; intros acc; [reflexivity|].
  cbn [fold_left visited map sumFrom]. rewrite IH. reflexivity.
Qed.

(** The running minimum and maximum are the initial ones or visited
    readings. *)
Lemma statsLoop_min_in readings idxs acc :
  In (acc_min (fold_left (statsStep readings) idxs acc))
     (acc_min acc :: visited readings idxs).
Proof.
  revert acc. induction idxs as [|i idxs IH]; intros acc; [left; reflexivity|].
  cbn [fold_left visited map].
  destruct (IH (statsStep readings acc i)) as [H|H].
  - cbn [statsStep acc_min] in H.
    destruct (f32_lt (load readings i) (acc_min acc)).
    + right; left. exact H.
    + left. exact H.
  - right; right. exact H.
Qed.

Lemma statsLoop_max_in readings idxs acc :
  In (acc_max (fold_left (statsStep readings) idxs acc))
     (acc_max acc :: visited readings idxs).
Proof.
  revert acc. induction idxs as [|i idxs IH]; intros acc; [left; reflexivity|].
  cbn [fold_left visited map].
  destruct (IH (statsStep readings acc i)) as [H|H].
  - cbn [statsStep acc_max] in H.
    destruct (f32_lt (acc_max acc) (load readings i)).
    + right; left. exact H.
    + left. exact H.
  - right; right. exact H.
Qed.

(** What is not below the running minimum stays so; likewise above the
    running maximum. *)
Lemma statsLoop_min_keeps readings idxs acc v :
  f32_lt v (acc_min acc) = false ->
  f32_lt v (acc_min (fold_left (statsStep readings) idxs acc)) = false.
Proof.
  revert acc. induction idxs as [|i idxs IH]; intros acc Hv; [exact Hv|].
  cbn [fold_left]. apply IH. cbn [statsStep acc_min].
  destruct (f32_lt (load readings i) (acc_min acc)) eqn:Hlt; [|exact Hv].
  exact (not_lt_lower v (acc_min acc) (load readings i) Hv Hlt).
Qed.

Lemma statsLoop_max_keeps readings idxs acc v :
  f32_lt (acc_max acc) v = false ->
  f32_lt (acc_max (fold_left (statsStep readings) idxs acc)) v = false.
Proof.
  revert acc. induction idxs as [|i idxs IH]; intros acc Hv; [exact Hv|].
  cbn [fold_left]. apply IH. cbn [statsStep acc_max].
  destruct (f32_lt (acc_max acc) (load readings i)) eqn:Hlt; [|exact Hv].
  exact (not_gt_higher v (acc_max acc) (load readings i) Hv Hlt).
Qed.

(** No visited reading is below the final minimum or above the final
    maximum. *)
Lemma statsLoop_bounds readings idxs acc v :
  In v (visited readings idxs) ->
  f32_lt v (acc_min (fold_left (statsStep readings) idxs acc)) = false
  /\ f32_lt (acc_max (fold_left (statsStep readings) idxs acc)) v = false.
Proof.
  revert acc. induction idxs as [|i idxs IH]; intros acc Hin; [destruct Hin|].
  cbn [fold_left]. destruct Hin as [<-|Hin]; [|apply IH; exact Hin].
  split.
  - apply statsLoop_min_keeps. cbn [statsStep acc_min].
    destruct (f32_lt (load readings i) (acc_min acc)) eqn:Hlt;
      [apply f32_lt_irrefl | exact Hlt].
  - apply statsLoop_max_keeps. cbn [statsStep acc_max].
    destruct (f32_lt (acc_max acc) (load readings i)) eqn:Hlt;
      [apply f32_lt_irrefl | exact Hlt].
Qed.

(** *** The divisor *)

Lemma readingsToUse_spec total :
  readingsToUse total = Z.min total BUFFER_SIZE.
Proof.
  unfold readingsToUse, BUFFER_SIZE.
  destruct (Z.ltb_spec total 60); lia.
Qed.

Lemma f32_of_int_count n :
  1 <= n <= BUFFER_SIZE -> isNonzeroFinite (f32_of_int n) = true.
Proof.
  unfold BUFFER_SIZE. intros Hn.
  assert (Hall : forallb (fun k => isNonzeroFinite (f32_of_int (Z.of_nat k)))
                   (seq 1 60) = true) by (vm_compute; reflexivity).
  rewrite forallb_forall in Hall.
  specialize (Hall (Z.to_nat n)). rewrite Z2Nat.id in Hall by lia.
  apply Hall, in_seq. lia.
Qed.

(** With the buffer as long as the loop runs, the visited readings are its
    first slots. *)
Lemma visited_firstn readings n :
  (n <= length readings)%nat ->
  visited readings (seq 0 n) = firstn n readings.
Proof.
  intros Hn. apply nth_ext with (d := f32_zero) (d' := f32_zero).
  - unfold visited. rewrite length_map, length_seq, length_firstn. lia.
  - unfold visited. rewrite length_map, length_seq. intros i Hi.
    rewrite (nth_indep _ f32_zero (load readings 0))
      by (rewrite length_map, length_seq; exact Hi).
    rewrite map_nth, seq_nth by exact Hi.
    rewrite nth_firstn.
    destruct (Nat.ltb_spec i n); [reflexivity | lia].
Qed.

Lemma statsLoop_first_visited readings n :
  (0 < n)%nat -> In (load readings 0) (visited readings (seq 0 n)).
Proof.
  intros Hn. destruct n as [|n]; [lia|]. left. reflexivity.
Qed.

(** *** The statistics *)

(** C10, as stated, fails on the average.  Three equal readings
    [12114010 * 2^-31]: their binary32 sum rounds to [9085508 * 2^-29], and
    that divided by 3 rounds to [12114011 * 2^-31], one unit in the last
    place above the maximum. *)
Lemma average_above_maximum :
  totalReadings threeLowReadings = 3
  /\ firstn 3 (sensorReadings threeLowReadings)
     = repeat (S754_finite false 12114010 (-31)) 3
  /\ calculateSensorStats threeLowReadings
     = mkStats (S754_finite false 12114011 (-31))
               (S754_finite false 12114010 (-31))
               (S754_finite false 12114010 (-31))
  /\ f32_le (average (calculateSensorStats threeLowReadings))
            (maximum (calculateSensorStats threeLowReadings)) = false.
Proof. vm_compute. repeat split. Qed.

(** C10, amended. [calculateSensorStats] never divides by zero: with
    [totalReadings] at 0 it returns 0 for the three results without
    dividing; with [totalReadings] positive it divides by
    [n = min(totalReadings, 60)], which is at least 1 and converts to a
    nonzero float.  The average is the binary32 sum, taken in order from 0,
    of the first [n] slots of the buffer, divided in binary32 by [n].
    Minimum and maximum are two of these [n] readings and none of them is
    below the minimum or above the maximum, so that, NaN apart,
    minimum <= reading <= maximum for each of them.  The average is not
    promised to lie between minimum and maximum. *)
Theorem calculateSensorStats_spec (g : Globals) :
  let s := calculateSensorStats g in
  let n := readingsToUse (totalReadings g) in
  let used := firstn (Z.to_nat n) (sensorReadings g) in
  (totalReadings g = 0 -> s = mkStats f32_zero f32_zero f32_zero)
  /\ (0 < totalReadings g ->
      length (sensorReadings g) = Z.to_nat BUFFER_SIZE ->
      n = Z.min (totalReadings g) BUFFER_SIZE
      /\ 1 <= n <= BUFFER_SIZE
      /\ isNonzeroFinite (f32_of_int n) = true
      /\ length used = Z.to_nat n
      /\ average s = f32_div (sumFrom f32_zero used) (f32_of_int n)
      /\ In (minimum s) used
      /\ In (maximum s) used
      /\ (forall v, In v used ->
            f32_lt v (minimum s) = false /\ f32_lt (maximum s) v = false)
      /\ ((forall v, In v used -> v <> S754_nan) ->
          f32_le (minimum s) (maximum s) = true
          /\ forall v, In v used ->
               f32_le (minimum s) v = true /\ f32_le v (maximum s) = true)).
Proof.
  cbv zeta. unfold calculateSensorStats. split.
  - intros ->. reflexivity.
  - intros Hpos Hlen.
    destruct (Z.eqb_spec (totalReadings g) 0) as [H0|_]; [lia|].
    cbn [average minimum maximum].
    set (n := readingsToUse (totalReadings g)).
    assert (Hn : n = Z.min (totalReadings g) BUFFER_SIZE)
      by apply readingsToUse_spec.
    assert (Hrange : 1 <= n <= BUFFER_SIZE) by (unfold BUFFER_SIZE in *; lia).
    assert (Hfit : (Z.to_nat n <= length (sensorReadings g))%nat)
      by (rewrite Hlen; lia).
    assert (Hvis : visited (sensorReadings g) (seq 0 (Z.to_nat n))
                   = firstn (Z.to_nat n) (sensorReadings g))
      by (apply visited_firstn; exact Hfit).
    assert (Hfirst : In (load (sensorReadings g) 0)
                        (firstn (Z.to_nat n) (sensorReadings g)))
      by (rewrite <- Hvis; apply statsLoop_first_visited; lia).
    assert (Hmin : In (acc_min (statsLoop (sensorReadings g) n))
                      (firstn (Z.to_nat n) (sensorReadings g))).
    { rewrite <- Hvis in Hfirst |- *.
      destruct (statsLoop_min_in (sensorReadings g) (seq 0 (Z.to_nat n))
                  (mkAcc f32_zero (load (sensorReadings g) 0)
                     (load (sensorReadings g) 0))) as [H|H];
        [unfold statsLoop; rewrite <- H; exact Hfirst | exact H]. }
    assert (Hmax : In (acc_max (statsLoop (sensorReadings g) n))
                      (firstn (Z.to_nat n) (sensorReadings g))).
    { rewrite <- Hvis in Hfirst |- *.
      destruct (statsLoop_max_in (sensorReadings g) (seq 0 (Z.to_nat n))
                  (mkAcc f32_zero (load (sensorReadings g) 0)
                     (load (sensorReadings g) 0))) as [H|H];
        [unfold statsLoop; rewrite <- H; exact Hfirst | exact H]. }
    assert (Hbounds : forall v,
              In v (firstn (Z.to_nat n) (sensorReadings g)) ->
              f32_lt v (acc_min (statsLoop (sensorReadings g) n)) = false
              /\ f32_lt (acc_max (statsLoop (sensorReadings g) n)) v = false).
    { intros v Hv. rewrite <- Hvis in Hv. apply statsLoop_bounds. exact Hv. }
    split; [exact Hn|]. split; [exact Hrange|].
    split; [apply f32_of_int_count; exact Hrange|].
    split; [apply firstn_length_le; exact Hfit|].
    split; [unfold statsLoop; rewrite statsLoop_sum, Hvis; reflexivity|].
    split; [exact Hmin|]. split; [exact Hmax|]. split; [exact Hbounds|].
    intros Hnan. split.
    + apply f32_le_of_not_lt; [apply Hnan, Hmin | apply Hnan, Hmax |].
      apply (Hbounds _ Hmin).
    + intros v Hv. destruct (Hbounds v Hv) as [Hlo Hhi]. split.
      * apply f32_le_of_not_lt; [apply Hnan, Hmin | apply Hnan, Hv | exact Hlo].
      * apply f32_le_of_not_lt; [apply Hnan, Hv | apply Hnan, Hmax | exact Hhi].
Qed.

Lemma calculateSensorStats_spec_witness :
  (totalReadings initialGlobals = 0
   /\ calculateSensorStats initialGlobals = mkStats f32_zero f32_zero f32_zero)
  /\ ((0 < totalReadings threeLowReadings
       /\ length (sensorReadings threeLowReadings) = Z.to_nat BUFFER_SIZE)
      /\ readingsToUse (totalReadings threeLowReadings) = 3
      /\ f32_le (minimum (calculateSensorStats threeLowReadings))
                (maximum (calculateSensorStats threeLowReadings)) = true).
Proof.
  assert (H0 : totalReadings initialGlobals = 0) by reflexivity.
  assert (Hpos : 0 < totalReadings threeLowReadings) by (vm_compute; reflexivity).
  assert (Hlen : length (sensorReadings threeLowReadings) = Z.to_nat BUFFER_SIZE)
    by (vm_compute; reflexivity).
  assert (Hnan : forall v,
            In v (firstn (Z.to_nat (readingsToUse (totalReadings threeLowReadings)))
                    (sensorReadings threeLowReadings)) -> v <> S754_nan).
  { vm_compute. intros v [<-|[<-|[<-|[]]]]; discriminate. }
  split; [split; [exact H0|]|split; [split; assumption|split]].
  - exact (proj1 (calculateSensorStats_spec initialGlobals) H0).
  - exact (proj1 (proj2 (calculateSensorStats_spec threeLowReadings) Hpos Hlen)).
  - destruct (proj2 (calculateSensorStats_spec threeLowReadings) Hpos Hlen)
      as (_ & _ & _ & _ & _ & _ & _ & _ & Hle).
    exact (proj1 (Hle Hnan)).
Defined.

End HwTimerProofs.

(** ** Facts on signed 32-bit arithmetic *)

Module I32Facts.

Lemma signed_wrap_range z : I32.in_range (I32.wrap z).
Proof.
  unfold I32.in_range, I32.wrap, I32.min_signed, I32.max_signed.
  pose proof (Z.mod_pos_bound (z + 2147483648) 4294967296). lia.
Qed.

Lemma signed_wrap_small z : I32.in_range z -> I32.wrap z = z.
Proof.
  unfold I32.in_range, I32.wrap, I32.min_signed, I32.max_signed. intros H.
  rewrite Z.mod_small; lia.
Qed.

(** Counting up commutes with the wrap-around. *)
Lemma signed_add_wrap_l a b : I32.add (I32.wrap a) b = I32.wrap (a + b).
Proof.
  unfold I32.add, I32.wrap. f_equal.
  replace ((a + 2147483648) mod 4294967296 - 2147483648 + b + 2147483648)
    with ((a + 2147483648) mod 4294967296 + b) by lia.
  rewrite Zplus_mod_idemp_l. f_equal. lia.
Qed.

End I32Facts.

(** ** Runs of the traffic light *)

Module TrafficLightRunsProofs.

Import TrafficLight TrafficLightRuns.

Lemma lamps_snoc trace c : lamps (trace ++ [c]) = applyCall (lamps trace) c.
Proof. unfold lamps. rewrite fold_left_app. reflexivity. Qed.

Lemma lamps_app trace calls :
  lamps (trace ++ calls) = fold_left applyCall calls (lamps trace).
Proof. unfold lamps. apply fold_left_app. Qed.

Lemma enterState_hw s w :
  hw (State.exec (enterState s) w) = hw w ++ entryCalls s.
Proof. destruct s; cbn; repeat rewrite <- app_assoc; reflexivity. Qed.

Lemma enterState_lit s w :
  lamps (hw (State.exec (enterState s) w)) = lampsOf s.
Proof.
  rewrite enterState_hw, lamps_app.
  destruct (lamps (hw w)) as [r g y k]. destruct s; reflexivity.
Qed.

(** X1. Whatever was lit before, [enterState] leaves exactly the lamps of
    the state it enters lit. *)
Theorem enterState_lamps (s : TrafficLightState) (w : World) :
  lamps (hw (State.exec (enterState s) w)) = lampsOf s.
Proof. exact (enterState_lit s w). Qed.

Ltac lamps_after_entry :=
  repeat rewrite fold_left_app; cbn;
  first
    [ reflexivity
    | match goal with
      | |- context [fold_left applyCall ?h allOff] =>
          destruct (fold_left applyCall h allOff)
      end; reflexivity ].

(** Entering any state but the error state, with the error flag down, gives
    a consistent world. *)
Lemma enterState_consistent s w :
  s <> STATE_ERROR ->
  errorFlag (trafficLight w) = false ->
  consistent (State.exec (enterState s) w).
Proof.
  intros Hs He.
  destruct (TrafficLightProofs.enterState_fields s w)
    as (Hcur & _ & _ & _ & _ & _ & _ & Herr).
  unfold consistent. rewrite Hcur, Herr, enterState_lit.
  destruct s; try congruence; cbn; repeat split; congruence.
Qed.

(** The button handler, one branch at a time. *)
Lemma button_pressed_exec w :
  State.exec (handleEvent EVENT_BUTTON_PRESSED) w =
  let w1 := State.exec (modifyTL (set_pedestrianRequested true)) w in
  if state_eqb (currentState (trafficLight w)) STATE_GREEN then
    if 5000 <? U32.sub (State.eval getCurrentTime w) (stateStartTime (trafficLight w))
    then State.exec (enterState STATE_YELLOW) (State.exec getCurrentTime w1)
    else State.exec getCurrentTime w1
  else w1.
Proof.
  destruct w as [[cs ps st du pr em tc ef] clk rf ec h].
  destruct cs; try reflexivity.
  unfold handleEvent, State.exec, State.eval, State.bind, State.when,
    State.get, State.modify, readTL, modifyTL, getCurrentTime.
  simpl. destruct (5000 <? U32.sub (U32.add clk 1000) st); reflexivity.
Qed.

Lemma handleEvent_consistent e w :
  consistent w -> consistent (State.exec (handleEvent e) w).
Proof.
  intros Hw. destruct e.
  2: { rewrite button_pressed_exec. cbv zeta.
       destruct Hw as (Hs & He & Hl).
       destruct (state_eqb (currentState (trafficLight w)) STATE_GREEN);
         [destruct (5000 <? _)|];
         [apply enterState_consistent; [discriminate | exact He]
         | repeat split; assumption
         | repeat split; assumption]. }
  all: revert Hw; destruct w as [[cs ps st du pr em tc ef] clk rf ec h];
    unfold consistent; cbn; intros (Hs & He & Hl); subst ef;
    destruct cs; try congruence; cbn; try (destruct pr; cbn);
    (split; [congruence|split; [reflexivity|]]);
    first [exact Hl | lamps_after_entry].
Qed.

Lemma runStateMachine_consistent w :
  consistent w -> consistent (State.exec runStateMachine w).
Proof.
  intros Hw. rewrite TrafficLightProofs.runStateMachine_unfold.
  destruct (State.eval isTimeToChangeState w).
  - assert (H : consistent (State.exec (handleEvent EVENT_TIMER_EXPIRED)
                             (State.exec isTimeToChangeState w)))
      by (apply handleEvent_consistent; exact Hw).
    exact H.
  - exact Hw.
Qed.

Lemma simulateEvents_unfold w :
  State.exec simulateEvents w =
  let c := eventCounter w + 1 in
  let w1 := State.exec (set_eventCounter c) w in
  if c =? 5 then State.exec (handleEvent EVENT_BUTTON_PRESSED) w1
  else if c =? 15 then State.exec (handleEvent EVENT_SENSOR_TRIGGERED) w1
  else if c =? 25 then State.exec (handleEvent EVENT_EMERGENCY) w1
  else if c =? 30
       then State.exec (set_eventCounter 0)
              (State.exec (handleEvent EVENT_RESET) w1)
  else w1.
Proof.
  unfold simulateEvents. rewrite !StateFacts.exec_bind.
  cbn [State.get State.eval fst]. cbv zeta.
  destruct (eventCounter w + 1 =? 5); [reflexivity|].
  destruct (eventCounter w + 1 =? 15); [reflexivity|].
  destruct (eventCounter w + 1 =? 25); [reflexivity|].
  destruct (eventCounter w + 1 =? 30); [|reflexivity].
  rewrite StateFacts.exec_bind. reflexivity.
Qed.

Lemma set_eventCounter_consistent c w :
  consistent w -> consistent (State.exec (set_eventCounter c) w).
Proof. destruct w as [tl clk rf ec h]. intros Hw. exact Hw. Qed.

Lemma simulateEvents_consistent w :
  consistent w -> consistent (State.exec simulateEvents w).
Proof.
  intros Hw. rewrite simulateEvents_unfold. cbv zeta.
  pose proof (set_eventCounter_consistent (eventCounter w + 1) w Hw) as H1.
  destruct (eventCounter w + 1 =? 5); [apply handleEvent_consistent; exact H1|].
  destruct (eventCounter w + 1 =? 15); [apply handleEvent_consistent; exact H1|].
  destruct (eventCounter w + 1 =? 25); [apply handleEvent_consistent; exact H1|].
  destruct (eventCounter w + 1 =? 30); [|exact H1].
  apply set_eventCounter_consistent, handleEvent_consistent. exact H1.
Qed.

Lemma performAll_cons a rest w :
  State.exec (performAll (a :: rest)) w =
  State.exec (performAll rest) (State.exec (perform a) w).
Proof. cbn [performAll]. apply StateFacts.exec_bind. Qed.

Lemma perform_consistent a w :
  consistent w -> consistent (State.exec (perform a) w).
Proof.
  destruct a; cbn [perform];
    [apply handleEvent_consistent | apply runStateMachine_consistent
    | apply simulateEvents_consistent].
Qed.

Lemma performAll_consistent actions w :
  consistent w -> consistent (State.exec (performAll actions) w).
Proof.
  revert w. induction actions as [|a rest IH]; intros w Hw; [exact Hw|].
  rewrite performAll_cons. apply IH, perform_consistent, Hw.
Qed.

Lemma booted_consistent : consistent booted.
Proof. unfold consistent. cbn. repeat split. discriminate. Qed.

(** X2. From start-up on, whatever events are handled, steps taken and
    simulated events injected, the machine never is in [STATE_ERROR] and
    [errorFlag] is never raised: no path of the program enters the error
    state. *)
Theorem error_state_unreachable (actions : list Action) :
  let w := State.exec (performAll actions) booted in
  currentState (trafficLight w) <> STATE_ERROR
  /\ errorFlag (trafficLight w) = false.
Proof.
  destruct (performAll_consistent actions booted booted_consistent)
    as (Hs & He & _).
  split; assumption.
Qed.

(** X3. From start-up on, the lamps lit are always those of the current
    state; in particular green is never lit together with red, yellow or
    the pedestrians' WALK signal. *)
Theorem lamps_follow_state (actions : list Action) :
  let w := State.exec (performAll actions) booted in
  lamps (hw w) = lampsOf (currentState (trafficLight w))
  /\ (green (lamps (hw w)) = true ->
      red (lamps (hw w)) = false
      /\ yellow (lamps (hw w)) = false
      /\ walk (lamps (hw w)) = false).
Proof.
  destruct (performAll_consistent actions booted booted_consistent)
    as (_ & _ & Hl).
  cbv zeta. split; [exact Hl|]. rewrite Hl.
  destruct (currentState (trafficLight (State.exec (performAll actions) booted)));
    cbn; intros H; repeat split; congruence.
Qed.

(** *** Single events *)

(** Case analysis on the world, the event and the branch taken. *)
Ltac event_cases w e :=
  destruct w as [[cs ps st du pr em tc ef] clk rf ec h];
  destruct e, cs;
  unfold handleEvent, State.exec, State.eval, State.bind, State.when,
    State.get, State.modify, readTL, modifyTL, getCurrentTime;
  simpl;
  try destruct pr;
  try destruct (5000 <? U32.sub (U32.add clk 1000) st);
  try destruct rf;
  simpl.

(** X4. Pressing the pedestrian button always records the request.  Outside
    [STATE_GREEN] nothing else changes.  In [STATE_GREEN] the clock is read:
    if more than 5000 ms have passed in the state the machine goes to
    [STATE_YELLOW], and at 5000 ms or less it stays green with its start
    time and duration untouched. *)
Theorem button_pressed_effect (w : World) :
  let w' := State.exec (handleEvent EVENT_BUTTON_PRESSED) w in
  let elapsed :=
    U32.sub (State.eval getCurrentTime w) (stateStartTime (trafficLight w)) in
  pedestrianRequested (trafficLight w') = true
  /\ (currentState (trafficLight w) <> STATE_GREEN ->
      w' = State.exec (modifyTL (set_pedestrianRequested true)) w)
  /\ (currentState (trafficLight w) = STATE_GREEN -> elapsed <= 5000 ->
      currentState (trafficLight w') = STATE_GREEN
      /\ stateStartTime (trafficLight w') = stateStartTime (trafficLight w)
      /\ stateDuration (trafficLight w') = stateDuration (trafficLight w)
      /\ hw w' = hw w
      /\ simulatedTime w' = State.eval getCurrentTime w)
  /\ (currentState (trafficLight w) = STATE_GREEN -> 5000 < elapsed ->
      currentState (trafficLight w') = STATE_YELLOW
      /\ previousState (trafficLight w') = STATE_GREEN
      /\ stateDuration (trafficLight w') = 3000
      /\ stateStartTime (trafficLight w')
         = U32.add (State.eval getCurrentTime w) 1000).
Proof.
  cbv zeta. rewrite button_pressed_exec. cbv zeta.
  destruct (TrafficLightProofs.state_eqb_spec
              (currentState (trafficLight w)) STATE_GREEN) as [Hg|Hg].
  - destruct (Z.ltb_spec 5000
                (U32.sub (State.eval getCurrentTime w)
                   (stateStartTime (trafficLight w)))) as [Hlt|Hle].
    + split; [reflexivity|]. split; [congruence|]. split; [lia|].
      intros _ _.
      destruct (TrafficLightProofs.enterState_fields STATE_YELLOW
                  (State.exec getCurrentTime
                     (State.exec (modifyTL (set_pedestrianRequested true)) w)))
        as (Hc & Hp & Hst & Hd & _).
      cbv zeta in Hc, Hp, Hst, Hd.
      split; [exact Hc|]. split; [rewrite Hp; exact Hg|].
      split; [exact Hd|]. exact Hst.
    + split; [reflexivity|]. split; [congruence|]. split; [|lia].
      intros _ _. split; [exact Hg|]. repeat split.
  - split; [reflexivity|]. split; [reflexivity|]. split; congruence.
Qed.

Lemma button_pressed_effect_witness :
  (currentState (trafficLight greenPhase) = STATE_GREEN
   /\ U32.sub (State.eval getCurrentTime greenPhase)
              (stateStartTime (trafficLight greenPhase)) <= 5000)
  /\ currentState (trafficLight
       (State.exec (handleEvent EVENT_BUTTON_PRESSED) greenPhase)) = STATE_GREEN.
Proof.
  assert (Hg : currentState (trafficLight greenPhase) = STATE_GREEN)
    by (vm_compute; reflexivity).
  assert (Hle : U32.sub (State.eval getCurrentTime greenPhase)
                  (stateStartTime (trafficLight greenPhase)) <= 5000)
    by (vm_compute; discriminate).
  split; [split; assumption|].
  exact (proj1 (proj1 (proj2 (proj2 (button_pressed_effect greenPhase))) Hg Hle)).
Defined.

(** X5. [totalCycles] counts the passages from yellow to red and nothing
    else: an event changes it only when it is the timer event handled in
    [STATE_YELLOW], which adds one (modulo 2^32). *)
Theorem totalCycles_counts_yellow_to_red (e : TrafficLightEvent) (w : World) :
  totalCycles (trafficLight (State.exec (handleEvent e) w)) =
  match e, currentState (trafficLight w) with
  | EVENT_TIMER_EXPIRED, STATE_YELLOW => U32.add (totalCycles (trafficLight w)) 1
  | _, _ => totalCycles (trafficLight w)
  end.
Proof. event_cases w e; reflexivity. Qed.

(** X6. Whenever an event changes the current state, [previousState] holds
    the state that was left. *)
Theorem previousState_tracks_transitions (e : TrafficLightEvent) (w : World) :
  let w' := State.exec (handleEvent e) w in
  currentState (trafficLight w') <> currentState (trafficLight w) ->
  previousState (trafficLight w') = currentState (trafficLight w).
Proof. event_cases w e; intros H; try reflexivity; congruence. Qed.

Lemma previousState_tracks_transitions_witness :
  currentState (trafficLight
    (State.exec (handleEvent EVENT_TIMER_EXPIRED) booted))
    <> currentState (trafficLight booted)
  /\ previousState (trafficLight
       (State.exec (handleEvent EVENT_TIMER_EXPIRED) booted)) = STATE_RED.
Proof.
  assert (H : currentState (trafficLight
                (State.exec (handleEvent EVENT_TIMER_EXPIRED) booted))
              <> currentState (trafficLight booted))
    by (vm_compute; discriminate).
  split; [exact H|].
  exact (previousState_tracks_transitions EVENT_TIMER_EXPIRED booted H).
Defined.

(** *** Sequences of events *)

Lemma timerEvents_succ k w :
  State.exec (timerEvents (S k)) w =
  State.exec (timerEvents k) (State.exec (handleEvent EVENT_TIMER_EXPIRED) w).
Proof. apply StateFacts.exec_repeat_succ. Qed.

(** X7. A pending pedestrian request is served: from every state but the
    error state, the timer events lead to [STATE_PEDESTRIAN] after 1 (red),
    2 (yellow), 3 (green), 4 (red-yellow) or 5 (pedestrian) of them, the
    request stays pending until then, and entering the pedestrian phase
    clears it. *)
Theorem pedestrian_request_served (w : World) :
  pedestrianRequested (trafficLight w) = true ->
  currentState (trafficLight w) <> STATE_ERROR ->
  let k := timerEventsToPedestrian (currentState (trafficLight w)) in
  let w' := State.exec (timerEvents k) w in
  currentState (trafficLight w') = STATE_PEDESTRIAN
  /\ pedestrianRequested (trafficLight w') = false
  /\ stateDuration (trafficLight w') = 20000
  /\ forall j : nat, (0 < j < k)%nat ->
       currentState (trafficLight (State.exec (timerEvents j) w))
         <> STATE_PEDESTRIAN
       /\ pedestrianRequested (trafficLight (State.exec (timerEvents j) w))
          = true.
Proof.
  destruct w as [[cs ps st du pr em tc ef] clk rf ec h]. cbn [trafficLight
    pedestrianRequested currentState]. intros -> Hs.
  destruct cs; try congruence; cbv zeta; cbn [timerEventsToPedestrian];
    (split; [reflexivity|]); (split; [reflexivity|]); (split; [reflexivity|]);
    intros j Hj;
    destruct j as [|[|[|[|[|j]]]]]; try lia;
    (split; [discriminate | reflexivity]).
Qed.

Lemma pedestrian_request_served_witness :
  (pedestrianRequested (trafficLight requestInYellow) = true
   /\ currentState (trafficLight requestInYellow) <> STATE_ERROR)
  /\ currentState (trafficLight (State.exec (timerEvents 2) requestInYellow))
     = STATE_PEDESTRIAN.
Proof.
  assert (H1 : pedestrianRequested (trafficLight requestInYellow) = true)
    by (vm_compute; reflexivity).
  assert (H2 : currentState (trafficLight requestInYellow) <> STATE_ERROR)
    by (vm_compute; discriminate).
  split; [split; assumption|].
  exact (proj1 (pedestrian_request_served requestInYellow H1 H2)).
Defined.

(** X8. Without a pedestrian request the timer events take the machine
    round red, red-yellow, green, yellow and back to red: four events, one
    more completed cycle counted, the flags as they were. *)
Theorem timer_cycle_from_red (w : World) :
  currentState (trafficLight w) = STATE_RED ->
  pedestrianRequested (trafficLight w) = false ->
  map (fun k => currentState (trafficLight (State.exec (timerEvents k) w)))
      [1; 2; 3; 4]%nat
  = [STATE_RED_YELLOW; STATE_GREEN; STATE_YELLOW; STATE_RED]
  /\ totalCycles (trafficLight (State.exec (timerEvents 4) w))
     = U32.add (totalCycles (trafficLight w)) 1
  /\ pedestrianRequested (trafficLight (State.exec (timerEvents 4) w)) = false
  /\ emergencyMode (trafficLight (State.exec (timerEvents 4) w))
     = emergencyMode (trafficLight w)
  /\ errorFlag (trafficLight (State.exec (timerEvents 4) w))
     = errorFlag (trafficLight w).
Proof.
  destruct w as [[cs ps st du pr em tc ef] clk rf ec h]. cbn [trafficLight
    pedestrianRequested currentState]. intros -> ->.
  repeat split.
Qed.

Lemma timer_cycle_from_red_witness :
  (currentState (trafficLight booted) = STATE_RED
   /\ pedestrianRequested (trafficLight booted) = false)
  /\ totalCycles (trafficLight (State.exec (timerEvents 4) booted)) = 1.
Proof.
  assert (H1 : currentState (trafficLight booted) = STATE_RED) by reflexivity.
  assert (H2 : pedestrianRequested (trafficLight booted) = false) by reflexivity.
  split; [split; assumption|].
  exact (proj1 (proj2 (timer_cycle_from_red booted H1 H2))).
Defined.

(** *** The emergency flag *)

Lemma handleEvent_keeps_emergency e w :
  e <> EVENT_RESET ->
  emergencyMode (trafficLight w) = true ->
  emergencyMode (trafficLight (State.exec (handleEvent e) w)) = true.
Proof.
  intros He. event_cases w e; intros H; try congruence; exact H.
Qed.

Lemma perform_keeps_emergency a w :
  mayReset a = false ->
  emergencyMode (trafficLight w) = true ->
  emergencyMode (trafficLight (State.exec (perform a) w)) = true.
Proof.
  destruct a as [e| |]; cbn [mayReset perform]; intros Ha Hw.
  - apply handleEvent_keeps_emergency; [destruct e; congruence | exact Hw].
  - rewrite TrafficLightProofs.runStateMachine_unfold.
    destruct (State.eval isTimeToChangeState w); [|exact Hw].
    change (emergencyMode (trafficLight
              (State.exec (handleEvent EVENT_TIMER_EXPIRED)
                 (State.exec isTimeToChangeState w))) = true).
    apply handleEvent_keeps_emergency; [discriminate | exact Hw].
  - discriminate.
Qed.

(** X9. [EVENT_EMERGENCY] switches to green from every state and raises
    [emergencyMode]; the flag then stays up through every event other than
    [EVENT_RESET] and through every step, while the timer goes on cycling:
    the next timer event already leaves green for yellow. *)
Theorem emergency_mode_latched (actions : list Action) (w : World) :
  let w1 := State.exec (handleEvent EVENT_EMERGENCY) w in
  (currentState (trafficLight w1) = STATE_GREEN
   /\ emergencyMode (trafficLight w1) = true
   /\ stateDuration (trafficLight w1) = 15000
   /\ lamps (hw w1) = lampsOf STATE_GREEN)
  /\ currentState (trafficLight
       (State.exec (handleEvent EVENT_TIMER_EXPIRED) w1)) = STATE_YELLOW
  /\ (forallb (fun a => negb (mayReset a)) actions = true ->
      emergencyMode (trafficLight (State.exec (performAll actions) w1)) = true).
Proof.
  cbv zeta. split; [|split].
  - repeat split.
    unfold handleEvent. rewrite StateFacts.exec_bind.
    apply enterState_lit.
  - reflexivity.
  - assert (Hgen : forall l w0,
              forallb (fun a => negb (mayReset a)) l = true ->
              emergencyMode (trafficLight w0) = true ->
              emergencyMode (trafficLight (State.exec (performAll l) w0)) = true).
    { induction l as [|a rest IH]; intros w0 Hl Hw0; [exact Hw0|].
      cbn [forallb] in Hl. apply andb_true_iff in Hl. destruct Hl as [Ha Hrest].
      rewrite performAll_cons. apply IH; [exact Hrest|].
      apply perform_keeps_emergency; [|exact Hw0].
      destruct (mayReset a); [discriminate | reflexivity]. }
    intros Hl. apply Hgen; [exact Hl | reflexivity].
Qed.

Lemma emergency_mode_latched_witness :
  forallb (fun a => negb (mayReset a))
    [Step; Deliver EVENT_BUTTON_PRESSED; Step; Deliver EVENT_SENSOR_TRIGGERED]
  = true
  /\ emergencyMode (trafficLight
       (State.exec
          (performAll [Step; Deliver EVENT_BUTTON_PRESSED; Step;
                       Deliver EVENT_SENSOR_TRIGGERED])
          (State.exec (handleEvent EVENT_EMERGENCY) booted))) = true.
Proof.
  assert (H : forallb (fun a => negb (mayReset a))
                [Step; Deliver EVENT_BUTTON_PRESSED; Step;
                 Deliver EVENT_SENSOR_TRIGGERED] = true) by reflexivity.
  split; [exact H|].
  exact (proj2 (proj2 (emergency_mode_latched _ booted)) H).
Defined.

(** *** The event simulation *)

Lemma handleEvent_eventCounter e w :
  eventCounter (State.exec (handleEvent e) w) = eventCounter w.
Proof. event_cases w e; reflexivity. Qed.

Lemma runStateMachine_eventCounter w :
  eventCounter (State.exec runStateMachine w) = eventCounter w.
Proof.
  rewrite TrafficLightProofs.runStateMachine_unfold.
  destruct (State.eval isTimeToChangeState w); [|reflexivity].
  change (eventCounter (State.exec (handleEvent EVENT_TIMER_EXPIRED)
                          (State.exec isTimeToChangeState w)) = eventCounter w).
  rewrite handleEvent_eventCounter. reflexivity.
Qed.

Lemma simulateEvents_eventCounter w :
  0 <= eventCounter w < 30 ->
  eventCounter (State.exec simulateEvents w) = (eventCounter w + 1) mod 30.
Proof.
  intros Hc. rewrite simulateEvents_unfold. cbv zeta.
  destruct (Z.eqb_spec (eventCounter w + 1) 5);
    [rewrite handleEvent_eventCounter, Z.mod_small by lia; reflexivity|].
  destruct (Z.eqb_spec (eventCounter w + 1) 15);
    [rewrite handleEvent_eventCounter, Z.mod_small by lia; reflexivity|].
  destruct (Z.eqb_spec (eventCounter w + 1) 25);
    [rewrite handleEvent_eventCounter, Z.mod_small by lia; reflexivity|].
  destruct (Z.eqb_spec (eventCounter w + 1) 30) as [H30|H30].
  - rewrite H30. reflexivity.
  - rewrite Z.mod_small by lia. reflexivity.
Qed.

(** X10. The counter of the event simulation counts its calls modulo 30
    and nothing else touches it: after any actions since start-up it is the
    number of simulation runs modulo 30, hence always within 0 and 29. *)
Theorem eventCounter_counts_modulo_30 (actions : list Action) :
  eventCounter (State.exec (performAll actions) booted)
  = countSimulate actions mod 30
  /\ 0 <= eventCounter (State.exec (performAll actions) booted) < 30.
Proof.
  assert (Hgen : forall l w, 0 <= eventCounter w < 30 ->
            eventCounter (State.exec (performAll l) w)
            = (eventCounter w + countSimulate l) mod 30).
  { induction l as [|a rest IH]; intros w Hw.
    - cbn. rewrite Z.add_0_r, Z.mod_small; [reflexivity | exact Hw].
    - rewrite performAll_cons. destruct a as [e| |]; cbn [perform countSimulate].
      + rewrite IH; rewrite handleEvent_eventCounter; [reflexivity | exact Hw].
      + rewrite IH; rewrite runStateMachine_eventCounter; [reflexivity | exact Hw].
      + rewrite IH; rewrite simulateEvents_eventCounter by exact Hw.
        * rewrite Zplus_mod_idemp_l. f_equal. lia.
        * apply Z.mod_pos_bound. lia. }
  assert (Heq : eventCounter (State.exec (performAll actions) booted)
                = countSimulate actions mod 30)
    by (rewrite Hgen; [reflexivity | cbn; lia]).
  split; [exact Heq|]. rewrite Heq. apply Z.mod_pos_bound. lia.
Qed.

End TrafficLightRunsProofs.

(** ** The loops of the sensor and button tasks *)

Module RtosTasksProofs.

Import HwTimer Rtos RtosTasks.

(** *** Sending *)

(** What a send of the sensor task changes: the sensor queue and, on a
    failure, the serial line. *)
Lemma sendSensorData_frame data w :
  let w' := State.exec (sendSensorData data) w in
  systemState w' = systemState w
  /\ buttonEventQueue w' = buttonEventQueue w
  /\ lastSensorTime w' = lastSensorTime w
  /\ unhealthyCount w' = unhealthyCount w
  /\ serialMutexTaken w' = serialMutexTaken w.
Proof.
  destruct w as [ss [q|] bq mt se ls uc]; [|repeat split].
  unfold sendSensorData, State.exec, State.bind, State.get. cbn.
  destruct (xQueueSend q data) as [[] q']; cbn; try (repeat split);
    destruct mt; repeat split.
Qed.

Lemma sendSensorData_queue data w q :
  sensorDataQueue w = Some q ->
  sensorDataQueue (State.exec (sendSensorData data) w)
  = Some (snd (xQueueSend q data))
  /\ State.eval (sendSensorData data) w = Some (fst (xQueueSend q data)).
Proof.
  destruct w as [ss sq bq mt se ls uc]. cbn. intros ->.
  unfold sendSensorData, State.exec, State.eval, State.bind, State.get. cbn.
  destruct (xQueueSend q data) as [[] q']; cbn; try (split; reflexivity);
    destruct mt; split; reflexivity.
Qed.

Lemma sendAll_cons d rest w :
  State.exec (sendAll (d :: rest)) w
  = State.exec (sendAll rest) (State.exec (sendSensorData d) w)
  /\ State.eval (sendAll (d :: rest)) w
     = State.eval (sendSensorData d) w
       :: State.eval (sendAll rest) (State.exec (sendSensorData d) w).
Proof.
  cbn [sendAll]. rewrite !StateFacts.exec_bind, !StateFacts.eval_bind.
  split; reflexivity.
Qed.

(** Sending a list of readings: those that fit are appended in order, the
    others are refused. *)
Lemma sendAll_queue readings : forall w q,
  sensorDataQueue w = Some q ->
  (uxQueueMessagesWaiting q <= capacity q)%nat ->
  let room := (capacity q - uxQueueMessagesWaiting q)%nat in
  sensorDataQueue (State.exec (sendAll readings) w)
  = Some (mkQueue (capacity q) (items q ++ firstn room readings))
  /\ State.eval (sendAll readings) w
     = repeat (Some pdTRUE) (Nat.min room (length readings))
       ++ repeat (Some errQUEUE_FULL) (length readings - room).
Proof.
  induction readings as [|d rest IH]; intros w q Hq Hwf; cbv zeta.
  - cbn. rewrite firstn_nil, app_nil_r, Nat.min_0_r. cbn.
    destruct q; split; [exact Hq | reflexivity].
  - destruct (sendAll_cons d rest w) as [-> ->].
    destruct (sendSensorData_queue d w q Hq) as [Hq' ->].
    unfold xQueueSend in *. unfold uxQueueMessagesWaiting in *.
    destruct (isFull q) eqn:Hfull; cbn [fst snd] in *.
    + apply RtosProofs.isFull_spec in Hfull.
      unfold uxQueueMessagesWaiting in Hfull.
      destruct (IH _ q Hq' Hwf) as [-> ->].
      replace (capacity q - length (items q))%nat with 0%nat by lia.
      cbn. rewrite Nat.sub_0_r. split; reflexivity.
    + unfold isFull, uxQueueMessagesWaiting in Hfull. apply Nat.leb_gt in Hfull.
      destruct (IH _ _ Hq') as [-> ->];
        [cbn; rewrite length_app; cbn; lia|].
      cbn [capacity items]. rewrite length_app. cbn [length].
      destruct (capacity q - length (items q))%nat as [|room] eqn:Hroom; [lia|].
      replace (capacity q - (length (items q) + 1))%nat with room by lia.
      cbn [firstn]. rewrite <- app_assoc. cbn. split; reflexivity.
Qed.

(** Each refused send prints the queue-full warning, if the serial mutex is
    free. *)
Lemma sendSensorData_serial data w q :
  sensorDataQueue w = Some q ->
  serial (State.exec (sendSensorData data) w)
  = (if serialMutexTaken w then serial w
     else serial w ++ (if isFull q then [MsgSensorQueueFull] else [])).
Proof.
  destruct w as [ss sq bq mt se ls uc]. cbn. intros ->.
  unfold sendSensorData, State.exec, State.bind, State.get. cbn.
  unfold xQueueSend. destruct (isFull q), mt; cbn;
    rewrite ?app_nil_r; reflexivity.
Qed.

Lemma sendAll_serial readings : forall w q,
  sensorDataQueue w = Some q ->
  (uxQueueMessagesWaiting q <= capacity q)%nat ->
  let room := (capacity q - uxQueueMessagesWaiting q)%nat in
  serial (State.exec (sendAll readings) w)
  = (if serialMutexTaken w then serial w
     else serial w ++ repeat MsgSensorQueueFull (length readings - room)).
Proof.
  induction readings as [|d rest IH]; intros w q Hq Hwf; cbv zeta.
  - cbn. destruct (serialMutexTaken w); [|rewrite app_nil_r]; reflexivity.
  - destruct (sendAll_cons d rest w) as [-> _].
    destruct (sendSensorData_queue d w q Hq) as [Hq' _].
    destruct (sendSensorData_frame d w) as (_ & _ & _ & _ & Hmt).
    cbv zeta in Hmt.
    pose proof (sendSensorData_serial d w q Hq) as Hse.
    unfold xQueueSend in Hq'. unfold uxQueueMessagesWaiting in *.
    destruct (isFull q) eqn:Hfull; cbn [fst snd] in Hq'.
    + apply RtosProofs.isFull_spec in Hfull.
      unfold uxQueueMessagesWaiting in Hfull.
      rewrite (IH _ q Hq' Hwf), Hmt, Hse.
      replace (capacity q - length (items q))%nat with 0%nat by lia.
      cbn [length]. rewrite !Nat.sub_0_r.
      destruct (serialMutexTaken w); [reflexivity|].
      rewrite <- app_assoc. reflexivity.
    + unfold isFull, uxQueueMessagesWaiting in Hfull. apply Nat.leb_gt in Hfull.
      rewrite (IH _ _ Hq');
        [|cbn [capacity items]; rewrite length_app; cbn [length]; lia].
      rewrite Hmt, Hse. cbn [capacity items length].
      rewrite length_app. cbn [length].
      replace (length rest - (capacity q - (length (items q) + 1)))%nat
        with (S (length rest) - (capacity q - length (items q)))%nat by lia.
      destruct (serialMutexTaken w); [reflexivity|].
      rewrite app_nil_r. reflexivity.
Qed.

(** X11. First in, first out, at the entry of the sensor queue (the queue
    being the model used for C2): of a batch of readings sent by the sensor
    task, those for which there is room are accepted and appended in the
    order sent, behind what the queue held; the later ones are refused,
    each with a queue-full warning if the serial mutex is free, and leave
    the queue as it is. *)
Theorem sensor_readings_queued_in_order
    (readings : list SensorData) (w : World) (q : Queue SensorData) :
  sensorDataQueue w = Some q ->
  (uxQueueMessagesWaiting q <= capacity q)%nat ->
  let room := (capacity q - uxQueueMessagesWaiting q)%nat in
  let sent := State.exec (sendAll readings) w in
  State.eval (sendAll readings) w
  = repeat (Some pdTRUE) (Nat.min room (length readings))
    ++ repeat (Some errQUEUE_FULL) (length readings - room)
  /\ sensorDataQueue sent
     = Some (mkQueue (capacity q) (items q ++ firstn room readings))
  /\ serial sent
     = (if serialMutexTaken w then serial w
        else serial w ++ repeat MsgSensorQueueFull (length readings - room)).
Proof.
  intros Hq Hwf. cbv zeta.
  destruct (sendAll_queue readings w q Hq Hwf) as [Hsent Hres].
  split; [exact Hres|]. split; [exact Hsent|].
  exact (sendAll_serial readings w q Hq Hwf).
Qed.

Lemma sensor_readings_queued_in_order_witness :
  let data := mkSensorData f32_zero f32_zero 0 0 in
  (sensorDataQueue afterSetup = Some (xQueueCreate 5)
   /\ (uxQueueMessagesWaiting (xQueueCreate (T := SensorData) 5)
       <= capacity (xQueueCreate (T := SensorData) 5))%nat)
  /\ State.eval (sendAll (repeat data 6)) afterSetup
     = repeat (Some pdTRUE) 5 ++ [Some errQUEUE_FULL].
Proof.
  cbv zeta.
  assert (H1 : sensorDataQueue afterSetup = Some (xQueueCreate 5)) by reflexivity.
  assert (H2 : (uxQueueMessagesWaiting (xQueueCreate (T := SensorData) 5)
                <= capacity (xQueueCreate (T := SensorData) 5))%nat)
    by (vm_compute; lia).
  split; [split; assumption|].
  exact (proj1 (sensor_readings_queued_in_order
                  (repeat (mkSensorData f32_zero f32_zero 0 0) 6)
                  afterSetup (xQueueCreate 5) H1 H2)).
Defined.

(** *** The sensor task *)

Lemma sensorIteration_unfold rawValue now tempSum w :
  let temperature := sensorTemperature (adcVoltage rawValue) in
  let data := mkSensorData (adcVoltage rawValue) temperature rawValue now in
  let tempSum' := f32_add tempSum temperature in
  let w1 := State.exec
              (modifySystemState (fun s =>
                 set_sensorSamples (I32.add (sensorSamples s) 1) s))
              w in
  let w2 := State.exec
              (modifySystemState (fun s =>
                 set_averageTemp
                   (f32_div tempSum' (f32_of_int (sensorSamples s))) s))
              w1 in
  let w3 :=
    if rawAlarm rawValue
    then State.exec (modifySystemState (set_ledMode 2))
           (State.exec (set_alarmActive true) w2)
    else if ledMode (systemState w2) =? 2
         then State.exec (modifySystemState (set_ledMode 1))
                (State.exec (set_alarmActive false) w2)
         else State.exec (set_alarmActive false) w2 in
  State.exec (sensorIteration rawValue now tempSum) w
  = State.exec (sendSensorData data) w3
  /\ State.eval (sensorIteration rawValue now tempSum) w = tempSum'.
Proof.
  cbv zeta. unfold sensorIteration, rawAlarm.
  generalize (sensorTemperature (adcVoltage rawValue)) as temperature.
  generalize (adcVoltage rawValue) as voltage. intros voltage temperature.
  rewrite !StateFacts.exec_bind, !StateFacts.eval_bind.
  destruct (temperatureAlarm temperature).
  - rewrite !StateFacts.exec_bind. split; reflexivity.
  - rewrite !StateFacts.exec_bind.
    cbn [State.get State.eval State.exec fst snd].
    destruct w as [[run mode samples presses avg alarm] sq bq mt se ls uc].
    cbn [modifySystemState set_alarmActive State.modify State.exec snd
         systemState ledMode set_averageTemp set_sensorSamples].
    destruct (mode =? 2); split; reflexivity.
Qed.

Lemma sensorIteration_fields
    (rawValue now : Z) (tempSum : float) (w : World) :
  let w' := State.exec (sensorIteration rawValue now tempSum) w in
  alarmActive (systemState w') = rawAlarm rawValue
  /\ ledMode (systemState w') =
       (if rawAlarm rawValue then 2
        else if ledMode (systemState w) =? 2 then 1
        else ledMode (systemState w))
  /\ (alarmActive (systemState w') = true <-> ledMode (systemState w') = 2)
  /\ sensorSamples (systemState w') = I32.add (sensorSamples (systemState w)) 1
  /\ buttonPresses (systemState w') = buttonPresses (systemState w).
Proof.
  cbv zeta. destruct (sensorIteration_unfold rawValue now tempSum w) as [-> _].
  cbv zeta.
  match goal with
  | |- context [State.exec (sendSensorData ?d) ?w3] =>
      destruct (sendSensorData_frame d w3) as (-> & _)
  end.
  destruct w as [[run mode samples presses avg alarm] sq bq mt se ls uc].
  cbn [modifySystemState set_alarmActive State.modify State.exec snd
       systemState ledMode set_averageTemp set_sensorSamples sensorSamples
       buttonPresses alarmActive].
  destruct (rawAlarm rawValue).
  - cbn. repeat split.
  - destruct (Z.eqb_spec mode 2); cbn; repeat split; try discriminate;
      intros; congruence.
Qed.

(** X12. After an iteration of the sensor task the alarm flag is what the
    reading says, whatever it was before, so an alarm raised by the watchdog
    or by a long press of the button lasts until the next reading in range;
    and the LED mode is the warning mode 2 exactly when the alarm is on: an
    alarm sets it to 2, a reading in range takes it from 2 to 1 and leaves
    every other mode alone.  The sample count goes up by one, as an [int]. *)
Theorem sensor_reading_sets_alarm_and_mode
    (rawValue now : Z) (tempSum : float) (w : World) :
  let w' := State.exec (sensorIteration rawValue now tempSum) w in
  alarmActive (systemState w') = rawAlarm rawValue
  /\ ledMode (systemState w') =
       (if rawAlarm rawValue then 2
        else if ledMode (systemState w) =? 2 then 1
        else ledMode (systemState w))
  /\ (alarmActive (systemState w') = true <-> ledMode (systemState w') = 2)
  /\ sensorSamples (systemState w') = I32.add (sensorSamples (systemState w)) 1
  /\ buttonPresses (systemState w') = buttonPresses (systemState w).
Proof. exact (sensorIteration_fields rawValue now tempSum w). Qed.

Lemma rawAlarm_table :
  forallb (fun n => Bool.eqb (rawAlarm (Z.of_nat n))
                      ((Z.of_nat n <=? 496) || (1241 <=? Z.of_nat n)))
          (seq 0 4096) = true.
Proof. vm_compute. reflexivity. Qed.

(** X13. Over the range of the 12-bit converter the temperature alarm is on
    exactly for raw values up to 496 (below -10 degrees) and from 1241 on
    (above 50 degrees). *)
Theorem temperature_alarm_thresholds (rawValue : Z) :
  0 <= rawValue <= 4095 ->
  rawAlarm rawValue = (rawValue <=? 496) || (1241 <=? rawValue).
Proof.
  intros Hr.
  pose proof rawAlarm_table as Htab. rewrite forallb_forall in Htab.
  specialize (Htab (Z.to_nat rawValue)).
  rewrite Z2Nat.id in Htab by lia.
  apply Bool.eqb_prop, Htab, in_seq. lia.
Qed.

Lemma temperature_alarm_thresholds_witness :
  0 <= 1240 <= 4095 /\ rawAlarm 1240 = false.
Proof.
  assert (H1 : 0 <= 1240 <= 4095) by lia.
  split; [exact H1|].
  exact (temperature_alarm_thresholds 1240 H1).
Defined.

(** *** The button task *)

Lemma sendButtonEvent_frame event w :
  let w' := State.exec (sendButtonEvent event) w in
  systemState w' = systemState w
  /\ sensorDataQueue w' = sensorDataQueue w
  /\ lastSensorTime w' = lastSensorTime w
  /\ unhealthyCount w' = unhealthyCount w
  /\ serialMutexTaken w' = serialMutexTaken w.
Proof.
  destruct w as [ss sq [q|] mt se ls uc]; [|repeat split].
  unfold sendButtonEvent, State.exec, State.bind, State.get. cbn.
  destruct (xQueueSend q event) as [[] q']; cbn; try (repeat split);
    destruct mt; repeat split.
Qed.

Lemma sendButtonEvent_queue event w q :
  buttonEventQueue w = Some q ->
  buttonEventQueue (State.exec (sendButtonEvent event) w)
  = Some (snd (xQueueSend q event)).
Proof.
  destruct w as [ss sq bq mt se ls uc]. cbn. intros ->.
  unfold sendButtonEvent, State.exec, State.bind, State.get. cbn.
  destruct (xQueueSend q event) as [[] q']; cbn; try reflexivity;
    destruct mt; reflexivity.
Qed.

(** The three kinds of iteration: no edge, a press, a release. *)
Lemma buttonIteration_no_edge env loc w :
  pinLevel env = lastButtonState loc ->
  State.exec (buttonIteration env loc) w = w
  /\ State.eval (buttonIteration env loc) w = loc.
Proof.
  destruct env as [pin stamp edge], loc as [last start]. cbn. intros ->.
  unfold buttonIteration, State.exec, State.eval, State.bind. cbn.
  destruct last; cbn; split; reflexivity.
Qed.

Lemma buttonIteration_press env loc w :
  lastButtonState loc = true ->
  pinLevel env = false ->
  let w1 := State.exec
              (modifySystemState (fun s =>
                 set_ledMode (Z.rem (I32.add (ledMode s) 1) 4)
                   (set_buttonPresses (I32.add (buttonPresses s) 1) s)))
              w in
  State.exec (buttonIteration env loc) w
  = State.exec (sendButtonEvent (mkButtonEvent true false 0 (stampReading env))) w1
  /\ State.eval (buttonIteration env loc) w
     = mkButtonLocals false (edgeReading env).
Proof.
  destruct env as [pin stamp edge], loc as [last start]. cbn. intros -> ->.
  unfold buttonIteration. cbn [pinLevel lastButtonState andb negb].
  repeat (rewrite ?StateFacts.exec_bind, ?StateFacts.eval_bind;
          cbn [State.ret State.eval State.exec State.when State.modify
               modifySystemState fst snd released duration eventTimestamp
               stampReading edgeReading pressStartTime]).
  split; reflexivity.
Qed.

Lemma buttonIteration_release env loc w :
  lastButtonState loc = false ->
  pinLevel env = true ->
  let held := U32.sub (edgeReading env) (pressStartTime loc) in
  let w1 := if 2000 <? held then State.exec toggleAlarm w else w in
  State.exec (buttonIteration env loc) w
  = State.exec (sendButtonEvent (mkButtonEvent false true held (stampReading env))) w1
  /\ State.eval (buttonIteration env loc) w
     = mkButtonLocals true (pressStartTime loc).
Proof.
  destruct env as [pin stamp edge], loc as [last start]. cbn. intros -> ->.
  unfold buttonIteration. cbn [pinLevel lastButtonState andb negb
    pressStartTime edgeReading stampReading].
  repeat (rewrite ?StateFacts.exec_bind, ?StateFacts.eval_bind;
          cbn [State.ret State.eval State.exec fst snd pressed
               eventTimestamp]).
  destruct (2000 <? U32.sub edge start); cbn [State.when];
    repeat (rewrite ?StateFacts.exec_bind, ?StateFacts.eval_bind;
            cbn [State.ret State.eval State.exec State.when fst snd pressed
                 eventTimestamp]);
    split; reflexivity.
Qed.

Lemma buttonIterations_cons env rest loc w :
  State.exec (buttonIterations (env :: rest) loc) w
  = State.exec (buttonIterations rest (State.eval (buttonIteration env loc) w))
      (State.exec (buttonIteration env loc) w)
  /\ State.eval (buttonIterations (env :: rest) loc) w
     = State.eval (buttonIterations rest (State.eval (buttonIteration env loc) w))
         (State.exec (buttonIteration env loc) w).
Proof.
  cbn [buttonIterations]. rewrite StateFacts.exec_bind, StateFacts.eval_bind.
  split; reflexivity.
Qed.

Lemma buttonIterations_held holds : forall start w,
  Forall (fun env => pinLevel env = false) holds ->
  State.exec (buttonIterations holds (mkButtonLocals false start)) w = w
  /\ State.eval (buttonIterations holds (mkButtonLocals false start)) w
     = mkButtonLocals false start.
Proof.
  induction holds as [|env rest IH]; intros start w Hall; [split; reflexivity|].
  inversion Hall as [|? ? Henv Hrest]; subst.
  destruct (buttonIterations_cons env rest (mkButtonLocals false start) w)
    as [-> ->].
  destruct (buttonIteration_no_edge env (mkButtonLocals false start) w Henv)
    as [-> ->].
  apply IH. exact Hrest.
Qed.

Lemma buttonIterations_app envs1 envs2 : forall loc w,
  State.exec (buttonIterations (envs1 ++ envs2) loc) w
  = State.exec (buttonIterations envs2
                  (State.eval (buttonIterations envs1 loc) w))
      (State.exec (buttonIterations envs1 loc) w)
  /\ State.eval (buttonIterations (envs1 ++ envs2) loc) w
     = State.eval (buttonIterations envs2
                     (State.eval (buttonIterations envs1 loc) w))
         (State.exec (buttonIterations envs1 loc) w).
Proof.
  induction envs1 as [|env rest IH]; intros loc w; [split; reflexivity|].
  rewrite <- app_comm_cons.
  destruct (buttonIterations_cons env (rest ++ envs2) loc w) as [-> ->].
  destruct (buttonIterations_cons env rest loc w) as [-> ->].
  apply IH.
Qed.

(** X14. A press, any number of iterations with the button held, and the
    release: the press counts one button press and advances the LED mode by
    one modulo 4, both in [int] arithmetic; the release reports the time from the press to the
    release, measured in [unsigned long] arithmetic between the two
    readings of [millis], and toggles the alarm exactly when that time
    exceeds 2000 ms; with two free slots in the queue the two events are
    queued in this order, and nothing is queued while the button is
    held. *)
Theorem press_hold_release
    (press release : ButtonReadings) (holds : list ButtonReadings)
    (start0 : Z) (w : World) (q : Queue ButtonEvent) :
  pinLevel press = false ->
  Forall (fun env => pinLevel env = false) holds ->
  pinLevel release = true ->
  buttonEventQueue w = Some q ->
  (uxQueueMessagesWaiting q + 2 <= capacity q)%nat ->
  let envs := press :: holds ++ [release] in
  let held := U32.sub (edgeReading release) (edgeReading press) in
  let w' := State.exec (buttonIterations envs (mkButtonLocals true start0)) w in
  State.eval (buttonIterations envs (mkButtonLocals true start0)) w
  = mkButtonLocals true (edgeReading press)
  /\ buttonPresses (systemState w')
     = I32.add (buttonPresses (systemState w)) 1
  /\ ledMode (systemState w') = Z.rem (I32.add (ledMode (systemState w)) 1) 4
  /\ alarmActive (systemState w') =
       (if 2000 <? held then negb (alarmActive (systemState w))
        else alarmActive (systemState w))
  /\ buttonEventQueue w' =
       Some (mkQueue (capacity q)
               (items q ++ [mkButtonEvent true false 0 (stampReading press);
                            mkButtonEvent false true held (stampReading release)])).
Proof.
  intros Hpress Hholds Hrelease Hq Hroom. cbv zeta.
  destruct (buttonIterations_cons press (holds ++ [release])
              (mkButtonLocals true start0) w) as [-> ->].
  destruct (buttonIteration_press press (mkButtonLocals true start0) w
              eq_refl Hpress) as [-> ->].
  cbv zeta.
  set (w1 := State.exec (modifySystemState _) w).
  set (w2 := State.exec (sendButtonEvent _) w1).
  destruct (buttonIterations_app holds [release]
              (mkButtonLocals false (edgeReading press)) w2) as [-> ->].
  destruct (buttonIterations_held holds (edgeReading press) w2 Hholds)
    as [-> ->].
  destruct (buttonIterations_cons release []
              (mkButtonLocals false (edgeReading press)) w2) as [-> ->].
  destruct (buttonIteration_release release
              (mkButtonLocals false (edgeReading press)) w2 eq_refl Hrelease)
    as [-> ->].
  cbv zeta. cbn [buttonIterations State.ret State.exec State.eval fst snd
                 pressStartTime].
  split; [reflexivity|].
  set (held := U32.sub (edgeReading release) (edgeReading press)).
  set (w3 := if 2000 <? held then State.exec toggleAlarm w2 else w2).
  assert (Hq1 : buttonEventQueue w1 = Some q) by exact Hq.
  assert (Hq2 : buttonEventQueue w2
                = Some (mkQueue (capacity q)
                          (items q ++ [mkButtonEvent true false 0
                                         (stampReading press)]))).
  { unfold w2. rewrite (sendButtonEvent_queue _ w1 q Hq1).
    rewrite RtosProofs.xQueueSend_room; [reflexivity|].
    unfold isFull. apply Nat.leb_gt. lia. }
  assert (Hs2 : systemState w2 = systemState w1)
    by (unfold w2; apply sendButtonEvent_frame).
  assert (Hq3 : buttonEventQueue w3 = buttonEventQueue w2)
    by (unfold w3; destruct (2000 <? held); reflexivity).
  assert (Hs3 : systemState w3 =
                if 2000 <? held
                then systemState (State.exec toggleAlarm w2)
                else systemState w2)
    by (unfold w3; destruct (2000 <? held); reflexivity).
  destruct (sendButtonEvent_frame
              (mkButtonEvent false true held (stampReading release)) w3)
    as (-> & _).
  rewrite (sendButtonEvent_queue _ w3 _ (eq_trans Hq3 Hq2)).
  rewrite RtosProofs.xQueueSend_room;
    [|unfold isFull, uxQueueMessagesWaiting in *; apply Nat.leb_gt;
      cbn [capacity items]; rewrite length_app; cbn; lia].
  cbn [snd capacity items]. rewrite <- app_assoc. cbn [app].
  rewrite Hs3.
  assert (Hfields :
    buttonPresses (systemState w2) = I32.add (buttonPresses (systemState w)) 1
    /\ ledMode (systemState w2) = Z.rem (I32.add (ledMode (systemState w)) 1) 4
    /\ alarmActive (systemState w2) = alarmActive (systemState w))
    by (rewrite Hs2; repeat split).
  destruct Hfields as (Hb & Hl & Ha).
  destruct (2000 <? held).
  - repeat split; [exact Hb | exact Hl |].
    change (alarmActive (systemState (State.exec toggleAlarm w2)))
      with (negb (alarmActive (systemState w2))).
    rewrite Ha. reflexivity.
  - repeat split; assumption.
Qed.

Lemma press_hold_release_witness :
  let press := mkButtonReadings false 1000 1001 in
  let hold := mkButtonReadings false 1050 0 in
  let release := mkButtonReadings true 3050 3051 in
  (pinLevel press = false
   /\ Forall (fun env => pinLevel env = false) [hold; hold]
   /\ pinLevel release = true
   /\ buttonEventQueue afterSetup = Some (xQueueCreate 3)
   /\ (uxQueueMessagesWaiting (xQueueCreate (T := ButtonEvent) 3) + 2
       <= capacity (xQueueCreate (T := ButtonEvent) 3))%nat)
  /\ alarmActive (systemState
       (State.exec
          (buttonIterations (press :: [hold; hold] ++ [release])
             initialButtonLocals) afterSetup)) = true.
Proof.
  cbv zeta.
  assert (H1 : pinLevel (mkButtonReadings false 1000 1001) = false) by reflexivity.
  assert (H2 : Forall (fun env => pinLevel env = false)
                 [mkButtonReadings false 1050 0; mkButtonReadings false 1050 0])
    by (repeat constructor).
  assert (H3 : pinLevel (mkButtonReadings true 3050 3051) = true) by reflexivity.
  assert (H4 : buttonEventQueue afterSetup = Some (xQueueCreate 3)) by reflexivity.
  assert (H5 : (uxQueueMessagesWaiting (xQueueCreate (T := ButtonEvent) 3) + 2
                <= capacity (xQueueCreate (T := ButtonEvent) 3))%nat)
    by (vm_compute; lia).
  split; [repeat split; assumption|].
  exact (proj1 (proj2 (proj2 (proj2
           (press_hold_release _ _ _ 0 afterSetup _ H1 H2 H3 H4 H5))))).
Defined.

(** *** What the tasks keep true *)

Lemma queueWithin_send {T : Type} n (q : Queue T) x :
  queueWithin n (Some q) -> queueWithin n (Some (snd (xQueueSend q x))).
Proof.
  unfold queueWithin, xQueueSend, isFull, uxQueueMessagesWaiting.
  intros [Hcap Hlen].
  destruct (Nat.leb_spec (capacity q) (length (items q))); cbn [snd capacity items].
  - split; assumption.
  - split; [exact Hcap|]. rewrite length_app. cbn. lia.
Qed.

Lemma sensorIteration_invariant rawValue now tempSum w :
  tasksInvariant w ->
  tasksInvariant (State.exec (sensorIteration rawValue now tempSum) w).
Proof.
  intros (Hmode & Hcount & Hsq & Hbq).
  destruct (sensorIteration_fields rawValue now tempSum w)
    as (_ & Hl & _).
  cbv zeta in Hl.
  destruct (sensorIteration_unfold rawValue now tempSum w) as [Hexec _].
  cbv zeta in Hexec.
  unfold tasksInvariant. rewrite Hl. rewrite Hexec.
  match goal with
  | |- context [State.exec (sendSensorData ?d) ?w3] =>
      destruct (sendSensorData_frame d w3) as (_ & Hb & _ & Hu & _);
      cbv zeta in Hb, Hu; rewrite Hb, Hu;
      assert (Hq3 : sensorDataQueue w3 = sensorDataQueue w)
        by (destruct (rawAlarm rawValue);
            [reflexivity | destruct (_ =? 2); reflexivity]);
      assert (Hb3 : buttonEventQueue w3 = buttonEventQueue w)
        by (destruct (rawAlarm rawValue);
            [reflexivity | destruct (_ =? 2); reflexivity]);
      assert (Hu3 : unhealthyCount w3 = unhealthyCount w)
        by (destruct (rawAlarm rawValue);
            [reflexivity | destruct (_ =? 2); reflexivity]);
      rewrite Hb3, Hu3
  end.
  split; [destruct (rawAlarm rawValue);
          [lia | destruct (ledMode (systemState w) =? 2); lia]|].
  split; [exact Hcount|]. split; [|exact Hbq].
  destruct (sensorDataQueue w) as [q|] eqn:Hq; [|contradiction].
  match goal with
  | |- context [State.exec (sendSensorData ?d) ?w3] =>
      rewrite (proj1 (sendSensorData_queue d w3 q (eq_trans Hq3 eq_refl)))
  end.
  apply queueWithin_send. exact Hsq.
Qed.


Lemma rem_next_mode m : 0 <= m <= 3 -> 0 <= Z.rem (I32.add m 1) 4 <= 3.
Proof.
  intros Hm. assert (H : m = 0 \/ m = 1 \/ m = 2 \/ m = 3) by lia.
  destruct H as [-> | [-> | [-> | ->]]]; vm_compute; split; discriminate.
Qed.

Lemma buttonIteration_invariant env loc w :
  tasksInvariant w ->
  tasksInvariant (State.exec (buttonIteration env loc) w).
Proof.
  intros Hinv. pose proof Hinv as (Hmode & Hcount & Hsq & Hbq).
  destruct (buttonEventQueue w) as [q|] eqn:Hq; [|contradiction].
  destruct loc as [last start], env as [pin stamp edge].
  destruct last, pin.
  - destruct (buttonIteration_no_edge (mkButtonReadings true stamp edge)
                (mkButtonLocals true start) w eq_refl) as [-> _].
    exact Hinv.
  - destruct (buttonIteration_press (mkButtonReadings false stamp edge)
                (mkButtonLocals true start) w eq_refl eq_refl) as [-> _].
    cbv zeta.
    match goal with
    | |- tasksInvariant (State.exec (sendButtonEvent ?e) ?w1) =>
        destruct (sendButtonEvent_frame e w1) as (Hs & Hsq' & _ & Hu & _);
        cbv zeta in Hs, Hsq', Hu;
        unfold tasksInvariant; rewrite Hs, Hsq', Hu;
        rewrite (sendButtonEvent_queue e w1 q Hq)
    end.
    split; [apply rem_next_mode; exact Hmode|].
    split; [exact Hcount|]. split; [exact Hsq|].
    apply queueWithin_send. exact Hbq.
  - destruct (buttonIteration_release (mkButtonReadings true stamp edge)
                (mkButtonLocals false start) w eq_refl eq_refl) as [-> _].
    cbv zeta. cbn [edgeReading pressStartTime stampReading].
    set (w1 := if 2000 <? U32.sub edge start
               then State.exec toggleAlarm w else w).
    assert (H1 : ledMode (systemState w1) = ledMode (systemState w)
                 /\ unhealthyCount w1 = unhealthyCount w
                 /\ sensorDataQueue w1 = sensorDataQueue w
                 /\ buttonEventQueue w1 = Some q)
      by (unfold w1; destruct (2000 <? _); repeat split; exact Hq).
    destruct H1 as (Hl1 & Hu1 & Hs1 & Hb1).
    match goal with
    | |- tasksInvariant (State.exec (sendButtonEvent ?e) w1) =>
        destruct (sendButtonEvent_frame e w1) as (Hs & Hsq' & _ & Hu & _);
        cbv zeta in Hs, Hsq', Hu;
        unfold tasksInvariant; rewrite Hs, Hsq', Hu;
        rewrite (sendButtonEvent_queue e w1 q Hb1)
    end.
    rewrite Hl1, Hu1, Hs1.
    split; [exact Hmode|]. split; [exact Hcount|]. split; [exact Hsq|].
    apply queueWithin_send. exact Hbq.
  - destruct (buttonIteration_no_edge (mkButtonReadings false stamp edge)
                (mkButtonLocals false start) w eq_refl) as [-> _].
    exact Hinv.
Qed.

Lemma countUnhealthy_systemState healthy w :
  ledMode (systemState (State.exec (countUnhealthy healthy) w))
  = ledMode (systemState w)
  /\ sensorSamples (systemState (State.exec (countUnhealthy healthy) w))
     = sensorSamples (systemState w).
Proof.
  destruct w as [ss sq bq mt se ls uc].
  unfold countUnhealthy, safePrintln, set_unhealthyCount, set_alarmActive,
    State.exec, State.bind, State.get, State.when, State.ret, State.modify.
  destruct healthy; cbn; [split; reflexivity|].
  destruct (5 <? uc + 1), mt; cbn; split; reflexivity.
Qed.

Lemma watchdogCheck_systemState env w :
  ledMode (systemState (State.exec (watchdogCheck env) w))
  = ledMode (systemState w)
  /\ sensorSamples (systemState (State.exec (watchdogCheck env) w))
     = sensorSamples (systemState w).
Proof.
  rewrite RtosProofs.watchdogCheck_unfold.
  destruct (countUnhealthy_systemState (State.eval (systemHealthy env) w)
              (State.exec (systemHealthy env) w)) as [-> ->].
  destruct (RtosProofs.systemHealthy_frame env w) as (_ & -> & _).
  split; reflexivity.
Qed.

Lemma watchdogCheck_invariant env w :
  tasksInvariant w -> tasksInvariant (State.exec (watchdogCheck env) w).
Proof.
  intros (Hmode & Hcount & Hsq & Hbq).
  destruct (RtosProofs.watchdogCheck_exec env w) as (Hc & _ & Hq1 & Hq2).
  cbv zeta in Hc, Hq1, Hq2.
  destruct (watchdogCheck_systemState env w) as [Hl _].
  unfold tasksInvariant. rewrite Hl, Hc, Hq1, Hq2.
  split; [exact Hmode|]. split; [|split; assumption].
  destruct (State.eval (systemHealthy env) w); [lia|].
  destruct (Z.ltb_spec 5 (unhealthyCount w + 1)); lia.
Qed.

Lemma taskSteps_cons step rest w :
  State.exec (taskSteps (step :: rest)) w
  = State.exec (taskSteps rest) (State.exec (taskStep step) w).
Proof. cbn [taskSteps]. apply StateFacts.exec_bind. Qed.

Lemma taskStep_invariant step w :
  tasksInvariant w -> tasksInvariant (State.exec (taskStep step) w).
Proof.
  intros Hinv. destruct step; cbn [taskStep];
    rewrite ?StateFacts.exec_bind; cbn [State.ret State.exec snd].
  - apply sensorIteration_invariant. exact Hinv.
  - apply buttonIteration_invariant. exact Hinv.
  - apply watchdogCheck_invariant. exact Hinv.
Qed.

(** X15. Whatever iterations of the sensor, button and watchdog loops
    follow the set-up, in whatever order and with whatever readings:
    the LED mode stays one of 0, 1, 2, 3, the watchdog's count of unhealthy
    checks stays within 0 and 5, and the two queues keep their capacities of
    5 and 3 and never hold more than that. *)
Theorem tasks_keep_invariant (steps : list TaskStep) :
  let w := State.exec (taskSteps steps) afterSetup in
  0 <= ledMode (systemState w) <= 3
  /\ 0 <= unhealthyCount w <= 5
  /\ queueWithin 5 (sensorDataQueue w)
  /\ queueWithin 3 (buttonEventQueue w).
Proof.
  assert (Hgen : forall l w, tasksInvariant w ->
                   tasksInvariant (State.exec (taskSteps l) w)).
  { induction l as [|step rest IH]; intros w Hw; [exact Hw|].
    rewrite taskSteps_cons. apply IH, taskStep_invariant, Hw. }
  apply Hgen. unfold tasksInvariant, queueWithin, uxQueueMessagesWaiting.
  cbn. repeat split; lia.
Qed.

(** *** The watchdog and the sensor task *)

Lemma checkSensorTask_sampled env w :
  0 < sensorSamples (systemState w) ->
  State.eval (checkSensorTask env) w = true.
Proof.
  intros Hs. unfold checkSensorTask. rewrite StateFacts.eval_bind.
  cbn [State.get State.eval State.exec fst snd].
  destruct (Z.ltb_spec 0 (sensorSamples (systemState w))); [|lia].
  rewrite StateFacts.eval_bind. reflexivity.
Qed.

Lemma watchdogRun_sensorSamples envs w :
  sensorSamples (systemState (State.exec (watchdogRun envs) w))
  = sensorSamples (systemState w).
Proof.
  revert w. induction envs as [|env rest IH]; intros w; [reflexivity|].
  rewrite RtosProofs.watchdogRun_cons, IH.
  apply watchdogCheck_systemState.
Qed.

(** X16. The watchdog watches the sensor task only until its first sample.
    Once the sensor task has completed one iteration, its sample count not
    yet at [INT_MAX], the sensor check of the watchdog passes at every later
    check, whatever the time that has passed since: a sensor task that stops
    after its first reading is never reported.  Before the first sample the check fails exactly when more
    than 10000 ms separate the reading of [millis] from
    [lastSensorTime]. *)
Theorem sensor_check_only_before_first_sample
    (rawValue now : Z) (tempSum : float)
    (envs : list Readings) (env : Readings) (w : World) :
  (0 <= sensorSamples (systemState w) < I32.max_signed ->
   sensorCheckPasses env
     (State.exec (watchdogRun envs)
        (State.exec (sensorIteration rawValue now tempSum) w)))
  /\ (sensorSamples (systemState w) = 0 ->
      State.eval (checkSensorTask env) w
      = negb (10000 <? U32.sub (millis env) (lastSensorTime w))).
Proof.
  split.
  - intros Hs. apply checkSensorTask_sampled.
    rewrite watchdogRun_sensorSamples.
    destruct (sensorIteration_fields rawValue now tempSum w)
      as (_ & _ & _ & Hn & _).
    cbv zeta in Hn. rewrite Hn.
    unfold I32.max_signed in Hs. unfold I32.add, I32.wrap.
    rewrite Z.mod_small; lia.
  - intros H0. unfold checkSensorTask. rewrite StateFacts.eval_bind.
    cbn [State.get State.eval State.exec fst snd]. rewrite H0. cbn [Z.ltb Z.compare].
    rewrite StateFacts.eval_bind. cbn [State.get State.eval State.exec fst snd].
    destruct (10000 <? U32.sub (millis env) (lastSensorTime w));
      [rewrite StateFacts.eval_bind|]; reflexivity.
Qed.

Lemma sensor_check_only_before_first_sample_witness :
  0 <= sensorSamples (systemState afterSetup) < I32.max_signed
  /\ sensorCheckPasses (mkReadings 4000000 50000 500)
       (State.exec (watchdogRun [lowMemory; lowMemory])
          (State.exec (sensorIteration 1000 2000 f32_zero) afterSetup))
  /\ State.eval (checkSensorTask (mkReadings 4000000 50000 500)) afterSetup
     = false.
Proof.
  assert (H0 : 0 <= sensorSamples (systemState afterSetup) < I32.max_signed)
    by (vm_compute; split; [discriminate | reflexivity]).
  assert (H1 : sensorSamples (systemState afterSetup) = 0) by reflexivity.
  split; [exact H0|]. split.
  - exact (proj1 (sensor_check_only_before_first_sample 1000 2000 f32_zero
                    [lowMemory; lowMemory] (mkReadings 4000000 50000 500)
                    afterSetup) H0).
  - exact (proj2 (sensor_check_only_before_first_sample 1000 2000 f32_zero
                    [] (mkReadings 4000000 50000 500) afterSetup) H1).
Defined.

(** X17. Consecutive unhealthy checks are counted modulo 6: [k] of them in
    a row, counted from zero, leave the count at [k mod 6], the alarm being
    raised each time the count falls back to zero. *)
Theorem unhealthy_checks_count_modulo_6 (envs : list Readings) (w : World) :
  unhealthyCount w = 0 ->
  allUnhealthy envs w ->
  unhealthyCount (State.exec (watchdogRun envs) w)
  = Z.of_nat (length envs) mod 6
  /\ (6 <= Z.of_nat (length envs) ->
      alarmActive (systemState (State.exec (watchdogRun envs) w)) = true).
Proof.
  assert (Hgen : forall l w0, 0 <= unhealthyCount w0 <= 5 ->
            allUnhealthy l w0 ->
            unhealthyCount (State.exec (watchdogRun l) w0)
            = (unhealthyCount w0 + Z.of_nat (length l)) mod 6
            /\ (6 <= unhealthyCount w0 + Z.of_nat (length l) \/
                alarmActive (systemState w0) = true ->
                alarmActive (systemState (State.exec (watchdogRun l) w0)) = true)).
  { induction l as [|env rest IH]; intros w0 Hc Hall.
    - cbn [length Z.of_nat]. rewrite Z.add_0_r, Z.mod_small by lia.
      split; [reflexivity|]. intros [H|H]; [lia | exact H].
    - destruct Hall as [Hbad Hrest].
      rewrite RtosProofs.watchdogRun_cons.
      destruct (RtosProofs.watchdogCheck_exec env w0) as (Hcnt & Hal & _).
      cbv zeta in Hcnt, Hal. rewrite Hbad in Hcnt, Hal. cbn [negb andb] in Hal.
      destruct (Z.ltb_spec 5 (unhealthyCount w0 + 1)) as [Hover|Hin].
      + destruct (IH (State.exec (watchdogCheck env) w0)) as [IHc IHa];
          [rewrite Hcnt; lia | exact Hrest|].
        rewrite IHc, Hcnt. cbn [length]. split.
        * replace (unhealthyCount w0 + Z.of_nat (S (length rest)))
            with (0 + Z.of_nat (length rest) + 1 * 6) by lia.
          rewrite Z.mod_add by lia. reflexivity.
        * intros _. apply IHa. right. exact Hal.
      + destruct (IH (State.exec (watchdogCheck env) w0)) as [IHc IHa];
          [rewrite Hcnt; lia | exact Hrest|].
        rewrite IHc, Hcnt. cbn [length]. split.
        * f_equal. lia.
        * intros H. apply IHa. rewrite Hcnt, Hal.
          destruct H as [H|H]; [left; lia | right; exact H]. }
  intros H0 Hall. destruct (Hgen envs w) as [Hc Ha]; [lia | exact Hall|].
  rewrite H0 in Hc, Ha. cbn [Z.add] in Hc, Ha.
  split; [exact Hc|]. intros H. apply Ha. left. exact H.
Qed.

Lemma unhealthy_checks_count_modulo_6_witness :
  (unhealthyCount afterSetup = 0 /\ allUnhealthy (repeat lowMemory 8) afterSetup)
  /\ unhealthyCount (State.exec (watchdogRun (repeat lowMemory 8)) afterSetup) = 2.
Proof.
  assert (H0 : unhealthyCount afterSetup = 0) by reflexivity.
  assert (Hall : allUnhealthy (repeat lowMemory 8) afterSetup)
    by (vm_compute; repeat split).
  split; [split; assumption|].
  exact (proj1 (unhealthy_checks_count_modulo_6 (repeat lowMemory 8)
                  afterSetup H0 Hall)).
Defined.

End RtosTasksProofs.

(** ** Runs of readings *)

Module HwTimerRunsProofs.

Import HwTimer HwTimerRuns.

(** *** Stores into the buffer *)

Lemma store_length {A : Type} i (v : A) a : length (store i v a) = length a.
Proof.
  revert i. induction a as [|x rest IH]; intros i; [destruct i; reflexivity|].
  destruct i; cbn; [reflexivity | rewrite IH; reflexivity].
Qed.

Lemma store_same {A : Type} i (v d : A) a :
  (i < length a)%nat -> nth i (store i v a) d = v.
Proof.
  revert i. induction a as [|x rest IH]; intros i Hi; [cbn in Hi; lia|].
  destruct i; cbn; [reflexivity | apply IH; cbn in Hi; lia].
Qed.

Lemma store_other {A : Type} i j (v d : A) a :
  i <> j -> nth j (store i v a) d = nth j a d.
Proof.
  revert i j. induction a as [|x rest IH]; intros i j Hij;
    [destruct i; reflexivity|].
  destruct i, j; cbn; try reflexivity; [congruence | apply IH; congruence].
Qed.

(** *** One reading *)

Lemma readAndStoreSensor_exec rawValue g :
  State.exec (readAndStoreSensor rawValue) g =
  let voltage := adcVoltage rawValue in
  let bad := outOfRange voltage in
  mkGlobals (store (Z.to_nat (bufferIndex g)) voltage (sensorReadings g))
            (Z.rem (bufferIndex g + 1) BUFFER_SIZE)
            (I32.add (totalReadings g) 1)
            (if bad then I32.add (alarmCount g) 1 else alarmCount g)
            (if bad then buzzer g ++ [true; false] else buzzer g).
Proof.
  unfold readAndStoreSensor. rewrite StateFacts.exec_bind. cbv zeta.
  generalize (adcVoltage rawValue) as voltage. intros voltage.
  destruct (outOfRange voltage); reflexivity.
Qed.

Lemma readAll_app raws1 raws2 g :
  State.exec (readAll (raws1 ++ raws2)) g
  = State.exec (readAll raws2) (State.exec (readAll raws1) g).
Proof.
  revert g. induction raws1 as [|r rest IH]; intros g; [reflexivity|].
  cbn [app readAll]. rewrite !StateFacts.exec_bind. apply IH.
Qed.

Lemma afterReadings_snoc raws rawValue :
  afterReadings (raws ++ [rawValue])
  = State.exec (readAndStoreSensor rawValue) (afterReadings raws).
Proof.
  unfold afterReadings. rewrite readAll_app. cbn [readAll].
  rewrite StateFacts.exec_bind. reflexivity.
Qed.

Lemma alarming_snoc raws rawValue :
  alarming (raws ++ [rawValue])
  = alarming raws
    ++ (if outOfRange (adcVoltage rawValue) then [rawValue] else []).
Proof. unfold alarming. rewrite filter_app. reflexivity. Qed.

Lemma beeps_succ n : beeps (S n) = beeps n ++ [true; false].
Proof. unfold beeps. rewrite seq_S, flat_map_app. reflexivity. Qed.

(** *** Counters *)

Lemma afterReadings_counters (raws : list Z) :
  let g := afterReadings raws in
  totalReadings g = I32.wrap (Z.of_nat (length raws))
  /\ alarmCount g = I32.wrap (Z.of_nat (length (alarming raws)))
  /\ bufferIndex g = Z.of_nat (length raws) mod BUFFER_SIZE
  /\ buzzer g = beeps (length (alarming raws))
  /\ length (sensorReadings g) = Z.to_nat BUFFER_SIZE.
Proof.
  cbv zeta. induction raws as [|r raws IH] using rev_ind.
  - repeat split.
  - destruct IH as (Ht & Ha & Hi & Hb & Hl).
    rewrite afterReadings_snoc, readAndStoreSensor_exec. cbv zeta.
    cbn [totalReadings alarmCount bufferIndex buzzer sensorReadings].
    rewrite alarming_snoc, !length_app, store_length, Ht, Ha, Hi, Hb.
    cbn [length]. rewrite I32Facts.signed_add_wrap_l.
    repeat split.
    + f_equal. lia.
    + destruct (outOfRange (adcVoltage r)); cbn [length].
      * rewrite I32Facts.signed_add_wrap_l. f_equal. lia.
      * f_equal. lia.
    + unfold BUFFER_SIZE.
      pose proof (Z.mod_pos_bound (Z.of_nat (length raws)) 60).
      rewrite Z.rem_mod_nonneg by lia.
      rewrite Zplus_mod_idemp_l. f_equal. lia.
    + destruct (outOfRange (adcVoltage r)); cbn [length].
      * rewrite Nat.add_1_r, beeps_succ. reflexivity.
      * rewrite Nat.add_0_r. reflexivity.
    + exact Hl.
Qed.

(** X18. After any readings from start-up, [totalReadings] is their number
    and [alarmCount] the number of those out of range, both as 32-bit
    [int]s; [bufferIndex] is the number of readings modulo 60; the buzzer
    has beeped once per reading out of range; and the buffer still has its
    60 slots. *)
Theorem readings_counted (raws : list Z) :
  let g := afterReadings raws in
  totalReadings g = I32.wrap (Z.of_nat (length raws))
  /\ alarmCount g = I32.wrap (Z.of_nat (length (alarming raws)))
  /\ bufferIndex g = Z.of_nat (length raws) mod BUFFER_SIZE
  /\ buzzer g = beeps (length (alarming raws))
  /\ length (sensorReadings g) = Z.to_nat BUFFER_SIZE.
Proof. exact (afterReadings_counters raws). Qed.

(** *** The circular buffer *)

Lemma slots_differ (i n : nat) :
  (i < n)%nat -> (n < i + 60)%nat -> (n mod 60 <> i mod 60)%nat.
Proof.
  intros Hi Hn Heq.
  pose proof (Nat.div_mod_eq n 60). pose proof (Nat.div_mod_eq i 60). lia.
Qed.

Lemma bufferIndex_slot (raws : list Z) :
  Z.to_nat (bufferIndex (afterReadings raws)) = (length raws mod 60)%nat.
Proof.
  destruct (afterReadings_counters raws) as (_ & _ & Hi & _).
  rewrite Hi. unfold BUFFER_SIZE.
  change 60 with (Z.of_nat 60). rewrite <- Nat2Z.inj_mod. apply Nat2Z.id.
Qed.

(** Readings still in the buffer sit at their number modulo 60; slots not
    yet reached hold the initial zero. *)
Lemma afterReadings_buffer (raws : list Z) :
  (forall i, (i < length raws)%nat -> (length raws <= i + 60)%nat ->
     load (sensorReadings (afterReadings raws)) (i mod 60)
     = adcVoltage (nth i raws 0))
  /\ (forall j, (length raws <= j)%nat ->
        load (sensorReadings (afterReadings raws)) j = f32_zero).
Proof.
  induction raws as [|r raws IH] using rev_ind.
  - split; [intros i Hi; cbn in Hi; lia|].
    intros j _. unfold load, afterReadings. cbn [readAll State.exec State.ret snd].
    cbn [initialGlobals sensorReadings].
    destruct (Nat.lt_ge_cases j (Z.to_nat BUFFER_SIZE)) as [Hj|Hj].
    + apply nth_repeat_lt. exact Hj.
    + apply nth_overflow. rewrite repeat_length. exact Hj.
  - destruct IH as [IHin IHout].
    destruct (afterReadings_counters raws) as (_ & _ & _ & _ & Hlen).
    rewrite afterReadings_snoc, readAndStoreSensor_exec. cbv zeta.
    cbn [sensorReadings]. rewrite bufferIndex_slot, length_app. cbn [length].
    unfold load in *. split.
    + intros i Hi Hlast.
      destruct (Nat.eq_dec i (length raws)) as [->|Hne].
      * rewrite store_same.
        { rewrite nth_middle. reflexivity. }
        rewrite Hlen. apply Nat.mod_upper_bound. discriminate.
      * rewrite store_other by (apply slots_differ; lia).
        rewrite app_nth1 by lia. apply IHin; lia.
    + intros j Hj.
      pose proof (Nat.Div0.mod_le (length raws) 60).
      rewrite store_other by lia. apply IHout. lia.
Qed.

(** X19. The buffer is circular over the last 60 readings: the reading
    number [i], counted from zero, is in slot [i mod 60] from the moment it
    is taken until 60 further readings have been taken; and a slot no
    reading has reached yet still holds zero. *)
Theorem buffer_holds_last_readings (raws : list Z) (i j : nat) :
  ((i < length raws)%nat -> (length raws <= i + 60)%nat ->
   load (sensorReadings (afterReadings raws)) (i mod 60)
   = adcVoltage (nth i raws 0))
  /\ ((length raws <= j)%nat ->
      load (sensorReadings (afterReadings raws)) j = f32_zero).
Proof.
  destruct (afterReadings_buffer raws) as [Hin Hout].
  split; [apply Hin | apply Hout].
Qed.

Lemma buffer_holds_last_readings_witness :
  let raws := map Z.of_nat (seq 0 100) in
  ((70 < length raws)%nat /\ (length raws <= 70 + 60)%nat)
  /\ load (sensorReadings (afterReadings raws)) 10 = adcVoltage 70.
Proof.
  intros raws.
  assert (Hi : (70 < length raws)%nat) by (vm_compute; lia).
  assert (Hlast : (length raws <= 70 + 60)%nat) by (vm_compute; lia).
  split; [split; assumption|].
  exact (proj1 (buffer_holds_last_readings raws 70 0) Hi Hlast).
Defined.

(** *** The converter *)

Lemma outOfRange_table :
  forallb (fun k =>
             Bool.eqb (outOfRange (adcVoltage (Z.of_nat k)))
                      ((Z.of_nat k <=? 620) || (3475 <=? Z.of_nat k)))
          (seq 0 4096) = true.
Proof. vm_compute. reflexivity. Qed.

(** X20. Over the range of the 12-bit converter the out-of-range warning is
    given exactly for the raw values up to 620 and from 3475 on: these are
    the values whose voltage, computed in [double] and stored as [float], is
    below 0.5 or above 2.8. *)
Theorem adc_out_of_range_thresholds (rawValue : Z) :
  validRaw rawValue ->
  outOfRange (adcVoltage rawValue) = (rawValue <=? 620) || (3475 <=? rawValue).
Proof.
  unfold validRaw. intros Hraw.
  pose proof outOfRange_table as Hall. rewrite forallb_forall in Hall.
  specialize (Hall (Z.to_nat rawValue)). rewrite Z2Nat.id in Hall by lia.
  apply Bool.eqb_prop, Hall, in_seq. lia.
Qed.

Lemma adc_out_of_range_thresholds_witness :
  validRaw 620 /\ outOfRange (adcVoltage 620) = true.
Proof.
  assert (H : validRaw 620) by (unfold validRaw; lia).
  split; [exact H|].
  exact (adc_out_of_range_thresholds 620 H).
Defined.

Lemma adcVoltage_table :
  forallb (fun k => f32_lt (adcVoltage (Z.of_nat k))
                           (adcVoltage (Z.of_nat (S k))))
          (seq 0 4095) = true.
Proof. vm_compute. reflexivity. Qed.

Lemma adcVoltage_next (k : nat) :
  (k < 4095)%nat ->
  f32_lt (adcVoltage (Z.of_nat k)) (adcVoltage (Z.of_nat (S k))) = true.
Proof.
  intros Hk. pose proof adcVoltage_table as Hall.
  rewrite forallb_forall in Hall. apply Hall, in_seq. lia.
Qed.

Lemma adcVoltage_increasing_nat (a d : nat) :
  (a + S d <= 4095)%nat ->
  f32_lt (adcVoltage (Z.of_nat a)) (adcVoltage (Z.of_nat (a + S d))) = true.
Proof.
  induction d as [|d IH]; intros Hb.
  - rewrite Nat.add_1_r. apply adcVoltage_next. lia.
  - apply HwTimerProofs.f32_lt_trans
      with (y := adcVoltage (Z.of_nat (a + S d))).
    + apply IH. lia.
    + replace (a + S (S d))%nat with (S (a + S d)) by lia.
      apply adcVoltage_next. lia.
Qed.

(** X21. The conversion from raw value to voltage is strictly increasing
    over the range of the converter, rounding to [float] included: a higher
    raw value is stored as a higher voltage. *)
Theorem adcVoltage_increasing (a b : Z) :
  validRaw a -> validRaw b -> a < b ->
  f32_lt (adcVoltage a) (adcVoltage b) = true.
Proof.
  unfold validRaw. intros Ha Hb Hlt.
  pose proof (adcVoltage_increasing_nat (Z.to_nat a) (Z.to_nat (b - a - 1)))
    as H.
  replace (Z.to_nat a + S (Z.to_nat (b - a - 1)))%nat with (Z.to_nat b)
    in H by lia.
  rewrite !Z2Nat.id in H by lia. apply H. lia.
Qed.

Lemma adcVoltage_increasing_witness :
  (validRaw 7 /\ validRaw 4095 /\ 7 < 4095)
  /\ f32_lt (adcVoltage 7) (adcVoltage 4095) = true.
Proof.
  assert (Ha : validRaw 7) by (unfold validRaw; lia).
  assert (Hb : validRaw 4095) by (unfold validRaw; lia).
  assert (Hlt : 7 < 4095) by lia.
  split; [split; [exact Ha | split; [exact Hb | exact Hlt]]|].
  exact (adcVoltage_increasing 7 4095 Ha Hb Hlt).
Defined.

(** *** Statistics of a run *)

Lemma afterReadings_firstn (raws : list Z) :
  (length raws <= 60)%nat ->
  firstn (length raws) (sensorReadings (afterReadings raws))
  = map adcVoltage raws.
Proof.
  intros Hlen.
  destruct (afterReadings_counters raws) as (_ & _ & _ & _ & Hbuf).
  destruct (afterReadings_buffer raws) as [Hin _].
  change (Z.to_nat BUFFER_SIZE) with 60%nat in Hbuf.
  apply nth_ext with (d := f32_zero) (d' := f32_zero).
  - rewrite length_firstn, length_map. lia.
  - rewrite length_firstn. intros i Hi.
    rewrite nth_firstn.
    destruct (Nat.ltb_spec i (length raws)) as [Hlt|Hge]; [|lia].
    specialize (Hin i Hlt ltac:(lia)).
    rewrite Nat.mod_small in Hin by lia. unfold load in Hin. rewrite Hin.
    change f32_zero with (adcVoltage 0) at 1.
    rewrite map_nth. reflexivity.
Qed.

(** X22. The statistics of a run of up to 60 readings are those of the
    readings taken: the average is their [float] sum in the order taken,
    divided by their number, and minimum and maximum are voltages of the
    run that bound all of them. *)
Theorem stats_of_run (raws : list Z) :
  (1 <= length raws <= 60)%nat ->
  let s := calculateSensorStats (afterReadings raws) in
  let voltages := map adcVoltage raws in
  average s
  = f32_div (sumFrom f32_zero voltages) (f32_of_int (Z.of_nat (length raws)))
  /\ In (minimum s) voltages
  /\ In (maximum s) voltages
  /\ forall v, In v voltages ->
       f32_lt v (minimum s) = false /\ f32_lt (maximum s) v = false.
Proof.
  intros Hlen. cbv zeta.
  destruct (afterReadings_counters raws) as (Htotal & _ & _ & _ & Hbuf).
  change (Z.to_nat BUFFER_SIZE) with 60%nat in Hbuf.
  rewrite I32Facts.signed_wrap_small in Htotal
    by (unfold I32.in_range, I32.min_signed, I32.max_signed; lia).
  unfold calculateSensorStats. rewrite Htotal.
  destruct (Z.eqb_spec (Z.of_nat (length raws)) 0) as [H0|_]; [lia|].
  assert (Huse : readingsToUse (Z.of_nat (length raws))
                 = Z.of_nat (length raws)).
  { rewrite HwTimerProofs.readingsToUse_spec. unfold BUFFER_SIZE. lia. }
  rewrite Huse. cbn [average minimum maximum]. unfold statsLoop.
  rewrite Nat2Z.id.
  set (readings := sensorReadings (afterReadings raws)).
  set (start := mkAcc f32_zero (load readings 0) (load readings 0)).
  assert (Hvisited : visited readings (seq 0 (length raws))
                     = map adcVoltage raws).
  { rewrite HwTimerProofs.visited_firstn by (subst readings; lia).
    apply afterReadings_firstn. lia. }
  assert (Hfirst : In (load readings 0) (map adcVoltage raws)).
  { rewrite <- Hvisited. apply HwTimerProofs.statsLoop_first_visited. lia. }
  split; [|split; [|split]].
  - rewrite HwTimerProofs.statsLoop_sum, Hvisited. reflexivity.
  - destruct (HwTimerProofs.statsLoop_min_in readings (seq 0 (length raws)) start)
      as [<-|H]; [exact Hfirst | rewrite <- Hvisited; exact H].
  - destruct (HwTimerProofs.statsLoop_max_in readings (seq 0 (length raws)) start)
      as [<-|H]; [exact Hfirst | rewrite <- Hvisited; exact H].
  - intros v Hv. rewrite <- Hvisited in Hv.
    exact (HwTimerProofs.statsLoop_bounds readings (seq 0 (length raws)) start v Hv).
Qed.

Lemma stats_of_run_witness :
  (1 <= length [7; 7; 7] <= 60)%nat
  /\ In (minimum (calculateSensorStats (afterReadings [7; 7; 7])))
        (map adcVoltage [7; 7; 7]).
Proof.
  assert (H : (1 <= length [7; 7; 7] <= 60)%nat) by (cbn; lia).
  split; [exact H|].
  exact (proj1 (proj2 (stats_of_run [7; 7; 7] H))).
Defined.

(** *** The uptime display *)

(** X23. The uptime shown by [checkSystemHealth] splits the whole seconds
    of [millis] into hours, minutes below 60 and seconds below 60 without
    loss; the 32-bit [millis] keeps the hours below 1194. *)
Theorem uptime_decomposition (millis : Z) :
  U32.in_range millis ->
  let u := uptimeOf millis in
  hours u * 3600 + minutes u * 60 + seconds u = millis / 1000
  /\ 0 <= minutes u < 60
  /\ 0 <= seconds u < 60
  /\ 0 <= hours u <= 1193.
Proof.
  unfold U32.in_range, U32.modulus. intros Hm. cbv zeta.
  unfold uptimeOf. cbn [hours minutes seconds].
  pose proof (Z.div_mod millis 1000 ltac:(lia)).
  pose proof (Z.mod_pos_bound millis 1000 ltac:(lia)).
  pose proof (Z.div_mod (millis / 1000) 60 ltac:(lia)).
  pose proof (Z.mod_pos_bound (millis / 1000) 60 ltac:(lia)).
  pose proof (Z.div_mod (millis / 1000 / 60) 60 ltac:(lia)).
  pose proof (Z.mod_pos_bound (millis / 1000 / 60) 60 ltac:(lia)).
  lia.
Qed.

Lemma uptime_decomposition_witness :
  U32.in_range 3725999
  /\ hours (uptimeOf 3725999) * 3600 + minutes (uptimeOf 3725999) * 60
     + seconds (uptimeOf 3725999) = 3725
  /\ uptimeOf 3725999 = mkUptime 1 2 5.
Proof.
  assert (H : U32.in_range 3725999) by (unfold U32.in_range, U32.modulus; lia).
  split; [exact H|]. split; [|reflexivity].
  exact (proj1 (uptime_decomposition 3725999 H)).
Defined.

End HwTimerRunsProofs.
